(** * SmartSearch: the date-resolution cascade and the completeness check

  A shallow embedding of [src/app.py]: [parse_date_string], [is_missing]
  and the part of [parse_query] that runs once the extractor's JSON object
  has been decoded ([parsed], lines 149-216).

  Modelling conventions.
  - A Python [str] is a [string]; the characters are the code points below
    256, on which [str.lower], [str.strip] and the regex class [\d] are
    character-wise and are written out below.  Literals of the program
    that hold other characters (the emoji of the follow-up prompts) are
    kept as their UTF-8 bytes; they are only passed through.
  - A JSON value is a [pyval] (null, booleans, integers, strings); the
    decoded object is a [gmap string pyval], so a key that is missing and a
    key that holds null stay distinct, as in the dict.
  - A computation that may raise is a [pyres]; [datetime.now()] is the
    explicit argument [now].
  - [parsedatetime.Calendar.parse] and [dateutil.parser.parse] are the two
    libraries the cascade falls back on; they are parameters. *)

From Stdlib Require Import ZArith String Ascii List Bool Lia.
From Stdlib Require Import DecimalString DecimalFacts DecimalPos.
From stdpp Require Import base option list strings gmap.

Local Open Scope string_scope.
Local Open Scope Z_scope.

(** ** Exceptions

    The exceptions the modelled code can raise; [LibraryError] stands for
    any other exception of the two parser libraries. *)

Inductive exn : Type :=
| OverflowError
| ValueError
| TypeError
| AttributeError
| LibraryError.

Inductive pyres (A : Type) : Type :=
| Ok (a : A)
| Raise (e : exn).
Arguments Ok {A} a.
Arguments Raise {A} e.

Definition pyres_bind {A B : Type} (m : pyres A) (k : A -> pyres B) : pyres B :=
  match m with
  | Ok a => k a
  | Raise e => Raise e
  end.

Notation "'let!' x ':=' m 'in' k" := (pyres_bind m (fun x => k))
  (at level 10, x pattern, m at level 100, k at level 200).

(** ** Strings *)

Module PyStr.

Definition code (c : ascii) : Z := Z.of_N (N_of_ascii c).

(** [str.isspace] on the code points below 256. *)
Definition is_space (c : ascii) : bool :=
  let n := code c in
  ((9 <=? n) && (n <=? 13)) || ((28 <=? n) && (n <=? 32))
  || (n =? 133) || (n =? 160).

(** [\d] on the code points below 256: the ASCII digits. *)
Definition is_digit (c : ascii) : bool :=
  let n := code c in (48 <=? n) && (n <=? 57).

Definition digit_val (c : ascii) : Z := code c - 48.

Definition digit_char (n : Z) : ascii := ascii_of_N (Z.to_N (48 + n)).

(** [str.lower] on one code point below 256: A-Z and the Latin-1 capitals
    (all of 192..222 but the multiplication sign 215) move up by 32. *)
Definition lower_char (c : ascii) : ascii :=
  let n := code c in
  if ((65 <=? n) && (n <=? 90))
     || ((192 <=? n) && (n <=? 222) && negb (n =? 215))
  then ascii_of_N (Z.to_N (n + 32)) else c.

Fixpoint lower (s : string) : string :=
  match s with
  | EmptyString => EmptyString
  | String c s' => String (lower_char c) (lower s')
  end.

Fixpoint lstrip (s : string) : string :=
  match s with
  | EmptyString => EmptyString
  | String c s' => if is_space c then lstrip s' else s
  end.

Fixpoint rstrip (s : string) : string :=
  match s with
  | EmptyString => EmptyString
  | String c s' =>
      match rstrip s' with
      | EmptyString => if is_space c then EmptyString else String c EmptyString
      | r => String c r
      end
  end.

Definition strip (s : string) : string := rstrip (lstrip s).

Fixpoint startswith (p s : string) : bool :=
  match p, s with
  | EmptyString, _ => true
  | String a p', String b s' => Ascii.eqb a b && startswith p' s'
  | String _ _, EmptyString => false
  end.

(** [p in s]. *)
Fixpoint contains (p s : string) : bool :=
  startswith p s ||
  match s with
  | EmptyString => false
  | String _ s' => contains p s'
  end.

Fixpoint drop (n : nat) (s : string) : string :=
  match n, s with
  | O, _ => s
  | S n', String _ s' => drop n' s'
  | S _, EmptyString => EmptyString
  end.

(** The longest prefix of digits, and what follows it. *)
Fixpoint span_digits (s : string) : string * string :=
  match s with
  | EmptyString => (EmptyString, EmptyString)
  | String c s' =>
      if is_digit c
      then let '(ds, rest) := span_digits s' in (String c ds, rest)
      else (EmptyString, s)
  end.

Fixpoint all_digits (s : string) : bool :=
  match s with
  | EmptyString => true
  | String c s' => is_digit c && all_digits s'
  end.

Fixpoint int_of_digits_from (acc : Z) (s : string) : Z :=
  match s with
  | EmptyString => acc
  | String c s' => int_of_digits_from (10 * acc + digit_val c) s'
  end.

(** The value of a string of digits. *)
Definition int_of_digits (ds : string) : Z := int_of_digits_from 0 ds.

(** [int] refuses a text of more than 4300 digits with ValueError: the
    default limit of CPython on the conversion of [str] to [int]. *)
Definition MAX_STR_DIGITS : nat := 4300.

(** [int(ds)] for a string of digits. *)
Definition int_of_digit_text (ds : string) : pyres Z :=
  if (MAX_STR_DIGITS <? String.length ds)%nat then Raise ValueError
  else Ok (int_of_digits ds).

Definition is_empty (s : string) : bool :=
  match s with EmptyString => true | _ => false end.

Fixpoint join (sep : string) (l : list string) : string :=
  match l with
  | [] => EmptyString
  | [x] => x
  | x :: l' => x +:+ sep +:+ join sep l'
  end.

End PyStr.

(** ** re.search(r'after (\d+) days?', s)

  The pattern is the literal [after ], one or more digits (the group), the
  literal [ day] and an optional [s].  After a greedy run of digits the
  next character has to be the space, so the group is the whole run; the
  optional [s] never decides whether there is a match.  [re.search] returns
  the leftmost match; the model returns its group. *)

Module Regex.
Import PyStr.

Definition match_here (s : string) : option string :=
  if startswith "after " s then
    let '(ds, rest) := span_digits (drop 6 s) in
    if negb (is_empty ds) && startswith " day" rest then Some ds else None
  else None.

Fixpoint search_after_days (s : string) : option string :=
  match match_here s with
  | Some ds => Some ds
  | None =>
      match s with
      | EmptyString => None
      | String _ s' => search_after_days s'
      end
  end.

End Regex.

(** ** datetime

    The proleptic Gregorian calendar of Python's [datetime] module, with its
    day numbering ([toordinal], [fromordinal]: 0001-01-01 is day 1) and its
    range, years 1 to 9999. *)

Module Calendar.
Import PyStr.

Definition MINYEAR : Z := 1.
Definition MAXYEAR : Z := 9999.
Definition MAXORDINAL : Z := 3652059.

Definition is_leap (year : Z) : bool :=
  (year mod 4 =? 0) && (negb (year mod 100 =? 0) || (year mod 400 =? 0)).

Definition DAYS_IN_MONTH (month : Z) : Z :=
  match month with
  | 1 => 31 | 2 => 28 | 3 => 31 | 4 => 30 | 5 => 31 | 6 => 30
  | 7 => 31 | 8 => 31 | 9 => 30 | 10 => 31 | 11 => 30 | 12 => 31
  | _ => -1
  end.

Definition DAYS_BEFORE_MONTH (month : Z) : Z :=
  match month with
  | 1 => 0 | 2 => 31 | 3 => 59 | 4 => 90 | 5 => 120 | 6 => 151
  | 7 => 181 | 8 => 212 | 9 => 243 | 10 => 273 | 11 => 304 | 12 => 334
  | _ => -1
  end.

Definition days_in_month (year month : Z) : Z :=
  if (month =? 2) && is_leap year then 29 else DAYS_IN_MONTH month.

Definition days_before_year (year : Z) : Z :=
  let y := year - 1 in
  y * 365 + y / 4 - y / 100 + y / 400.

Definition days_before_month (year month : Z) : Z :=
  DAYS_BEFORE_MONTH month + (if (month >? 2) && is_leap year then 1 else 0).

Definition ymd2ord (year month day : Z) : Z :=
  days_before_year year + days_before_month year month + day.

Definition DI400Y : Z := 146097.
Definition DI100Y : Z := 36524.
Definition DI4Y : Z := 1461.

(** [_ord2ymd] of [datetime.py]. *)
Definition ord2ymd (n : Z) : Z * Z * Z :=
  let n := n - 1 in
  let n400 := n / DI400Y in
  let n := n mod DI400Y in
  let year := n400 * 400 + 1 in
  let n100 := n / DI100Y in
  let n := n mod DI100Y in
  let n4 := n / DI4Y in
  let n := n mod DI4Y in
  let n1 := n / 365 in
  let n := n mod 365 in
  let year := year + n100 * 100 + n4 * 4 + n1 in
  if (n1 =? 4) || (n100 =? 4) then (year - 1, 12, 31)
  else
    let leapyear := (n1 =? 3) && (negb (n4 =? 24) || (n100 =? 3)) in
    let month := Z.shiftr (n + 50) 5 in
    let preceding :=
      DAYS_BEFORE_MONTH month + (if (month >? 2) && leapyear then 1 else 0) in
    let '(month, preceding) :=
      if preceding >? n
      then (month - 1,
            preceding - (DAYS_IN_MONTH (month - 1)
                         + (if (month - 1 =? 2) && leapyear then 1 else 0)))
      else (month, preceding) in
    (year, month, n - preceding + 1).

Record datetime : Type := mkdatetime {
  year : Z; month : Z; day : Z;
  hour : Z; minute : Z; second : Z; microsecond : Z
}.

(** The first six fields of a [time.struct_time]. *)
Record struct_time : Type := mkstruct_time {
  tm_year : Z; tm_mon : Z; tm_mday : Z;
  tm_hour : Z; tm_min : Z; tm_sec : Z
}.

Definition timetuple (d : datetime) : struct_time :=
  mkstruct_time (year d) (month d) (day d) (hour d) (minute d) (second d).

Definition valid_date (y m d : Z) : bool :=
  (MINYEAR <=? y) && (y <=? MAXYEAR) && (1 <=? m) && (m <=? 12)
  && (1 <=? d) && (d <=? days_in_month y m).

Definition valid_time (h mi s us : Z) : bool :=
  (0 <=? h) && (h <=? 23) && (0 <=? mi) && (mi <=? 59)
  && (0 <=? s) && (s <=? 59) && (0 <=? us) && (us <=? 999999).

Definition valid_datetime (d : datetime) : bool :=
  valid_date (year d) (month d) (day d)
  && valid_time (hour d) (minute d) (second d) (microsecond d).

(** The constructor [datetime(y, m, d, H, M, S, us)]: ValueError on a field
    out of range. *)
Definition new_datetime (y m d h mi s us : Z) : pyres datetime :=
  if valid_date y m d && valid_time h mi s us
  then Ok (mkdatetime y m d h mi s us)
  else Raise ValueError.

(** [datetime] built from the first six fields of a [struct_time]. *)
Definition datetime_of_struct (t : struct_time) : pyres datetime :=
  new_datetime (tm_year t) (tm_mon t) (tm_mday t)
               (tm_hour t) (tm_min t) (tm_sec t) 0.

(** [dt.replace(year=y, month=m, day=d)]. *)
Definition replace_date (dt : datetime) (y m d : Z) : pyres datetime :=
  new_datetime y m d (hour dt) (minute dt) (second dt) (microsecond dt).

Definition toordinal (d : datetime) : Z := ymd2ord (year d) (month d) (day d).

(** [dt + timedelta(days=n)]: [timedelta] refuses more than 999999999 days,
    and the sum has to be a day of the years 1 to 9999; the time of day is
    kept. *)
Definition add_days (dt : datetime) (n : Z) : pyres datetime :=
  if Z.abs n >? 999999999 then Raise OverflowError
  else
    let o := toordinal dt + n in
    if (0 <? o) && (o <=? MAXORDINAL)
    then let '(y, m, d) := ord2ymd o in
         Ok (mkdatetime y m d (hour dt) (minute dt) (second dt) (microsecond dt))
    else Raise OverflowError.

(** [dt + relativedelta(months=1)], after [relativedelta.__add__]: the month
    moves on by one, the day is cut to the length of the new month
    ([calendar.monthrange]), [replace] builds the date and the (zero) day
    offset of the relativedelta is added. *)
Definition add_one_month (dt : datetime) : pyres datetime :=
  let y := year dt in
  let m := month dt + 1 in
  let '(y, m) := if m >? 12 then (y + 1, m - 12) else (y, m) in
  let d := Z.min (days_in_month y m) (day dt) in
  let! r := replace_date dt y m d in
  add_days r 0.

Definition pad2 (n : Z) : string :=
  String (digit_char (n / 10 mod 10)) (String (digit_char (n mod 10)) "").

(** A number on four digits: the year from 1000 on (see [strftime]). *)
Definition pad4 (n : Z) : string :=
  String (digit_char (n / 1000 mod 10))
    (String (digit_char (n / 100 mod 10)) (pad2 n)).

(** The directive [%Y] of [strftime], which CPython leaves to the C library:
    glibc writes the digits of the year with no padding, so a year before
    1000 has fewer than four digits (999 for the year 999), which [%Y] of
    [strptime] does not read back. *)
Definition year_text (y : Z) : string := NilEmpty.string_of_int (Z.to_int y).

(** [dt.strftime('%Y-%m-%d')]. *)
Definition strftime (d : datetime) : string :=
  year_text (year d) +:+ "-" +:+ pad2 (month d) +:+ "-" +:+ pad2 (day d).

(** The directive [%m] of [strptime] followed by the literal [-]:
    [1[0-2]|0[1-9]|[1-9]]. *)
Definition parse_month (s : string) : option (Z * string) :=
  match s with
  | String a (String b (String "-" rest)) =>
      if (Ascii.eqb a "1" && (48 <=? code b) && (code b <=? 50))
         || (Ascii.eqb a "0" && (49 <=? code b) && (code b <=? 57))
      then Some (10 * digit_val a + digit_val b, rest) else None
  | String a (String "-" rest) =>
      if (49 <=? code a) && (code a <=? 57)
      then Some (digit_val a, rest) else None
  | _ => None
  end.

(** The directive [%d] at the end of the string:
    [3[01]|[12]\d|0[1-9]|[1-9]| [1-9]]; anything left over is an error. *)
Definition parse_day (s : string) : option Z :=
  match s with
  | String a (String b EmptyString) =>
      if (Ascii.eqb a "3" && (48 <=? code b) && (code b <=? 49))
         || (((Ascii.eqb a "1") || (Ascii.eqb a "2")) && is_digit b)
         || (Ascii.eqb a "0" && (49 <=? code b) && (code b <=? 57))
      then Some (10 * digit_val a + digit_val b)
      else if Ascii.eqb a " " && (49 <=? code b) && (code b <=? 57)
      then Some (digit_val b)
      else None
  | String a EmptyString =>
      if (49 <=? code a) && (code a <=? 57) then Some (digit_val a) else None
  | _ => None
  end.

(** [datetime.strptime(s, '%Y-%m-%d')]: midnight of the day read, ValueError
    when the string does not have the format or the day does not exist. *)
Definition strptime (s : string) : pyres datetime :=
  match s with
  | String y1 (String y2 (String y3 (String y4 (String "-" rest)))) =>
      if is_digit y1 && is_digit y2 && is_digit y3 && is_digit y4 then
        match parse_month rest with
        | Some (m, rest') =>
            match parse_day rest' with
            | Some d =>
                new_datetime
                  (int_of_digits (String y1 (String y2 (String y3 (String y4 ""))))) 
                  m d 0 0 0 0
            | None => Raise ValueError
            end
        | None => Raise ValueError
        end
      else Raise ValueError
  | _ => Raise ValueError
  end.

End Calendar.

(** ** JSON values *)

Inductive pyval : Type :=
| VNone
| VBool (b : bool)
| VInt (z : Z)
| VStr (s : string).

Module PyVal.
Import PyStr.

(** [bool(v)]. *)
Definition truthy (v : pyval) : bool :=
  match v with
  | VNone => false
  | VBool b => b
  | VInt z => negb (z =? 0)
  | VStr s => negb (is_empty s)
  end.

(** [str(v)]. *)
Definition py_str (v : pyval) : string :=
  match v with
  | VNone => "None"
  | VBool true => "True"
  | VBool false => "False"
  | VInt z => NilEmpty.string_of_int (Z.to_int z)
  | VStr s => s
  end.

(** The digits of an integer literal, single underscores allowed between
    digits: the value and the number of digits. *)
Fixpoint int_literal (after_digit : bool) (count : nat) (acc : Z) (s : string)
  : option (Z * nat) :=
  match s with
  | EmptyString => if after_digit then Some (acc, count) else None
  | String c s' =>
      if is_digit c then int_literal true (S count) (10 * acc + digit_val c) s'
      else if Ascii.eqb c "_" && after_digit then int_literal false count acc s'
      else None
  end.

(** The white space that [int] skips around a number.  A text that is all
    ASCII goes to the C parser as it is, which skips what [isspace] of C
    accepts (9-13 and 32); in a text that is not ASCII the white space above
    127 (133 and 160 below 256) is first turned into spaces.  The separators
    28-31, which [str.strip] removes, are not skipped: [int] refuses them. *)
Definition is_int_space (c : ascii) : bool :=
  let n := code c in
  ((9 <=? n) && (n <=? 13)) || (n =? 32) || (n =? 133) || (n =? 160).

Fixpoint int_lstrip (s : string) : string :=
  match s with
  | EmptyString => EmptyString
  | String c s' => if is_int_space c then int_lstrip s' else s
  end.

Fixpoint int_rstrip (s : string) : string :=
  match s with
  | EmptyString => EmptyString
  | String c s' =>
      match int_rstrip s' with
      | EmptyString =>
          if is_int_space c then EmptyString else String c EmptyString
      | r => String c r
      end
  end.

(** [int(s)]: white space around, a sign, the digits; ValueError
    otherwise, and beyond 4300 digits. *)
Definition int_of_str (s : string) : pyres Z :=
  let body (sign : Z) (t : string) :=
    match int_literal false 0 0 t with
    | Some (n, count) =>
        if (MAX_STR_DIGITS <? count)%nat then Raise ValueError
        else Ok (sign * n)
    | None => Raise ValueError
    end in
  match int_rstrip (int_lstrip s) with
  | String "-" t => body (-1) t
  | String "+" t => body 1 t
  | t => body 1 t
  end.

(** [int(v)]. *)
Definition py_int (v : pyval) : pyres Z :=
  match v with
  | VNone => Raise TypeError
  | VBool b => Ok (if b then 1 else 0)
  | VInt z => Ok z
  | VStr s => int_of_str s
  end.

(** [v.lower()]: only a [str] has the method. *)
Definition py_lower (v : pyval) : pyres string :=
  match v with
  | VStr s => Ok (lower s)
  | _ => Raise AttributeError
  end.

(** [d.get(k)] and [d.get(k, dflt)]. *)
Definition get (d : gmap string pyval) (k : string) : pyval :=
  default VNone (d !! k).

Definition get_default (d : gmap string pyval) (k : string) (dflt : pyval) : pyval :=
  default dflt (d !! k).

End PyVal.

(** ** parse_date_string *)

Module App.
Import PyStr Regex Calendar PyVal.

Section Resolver.

(** [parsedatetime.Calendar().parse(text, sourceTime=...)]: a time structure
    and a status, 0 when nothing was recognised. *)
Variable cal_parse : string -> struct_time -> pyres (struct_time * Z).

(** [dateutil.parser.parse(text, fuzzy=True, default=...)]: the fields of
    the datetime it builds, or an exception.  The datetime is built by
    [datetime_of_struct], whose range check stands for the library's own
    construction of the object. *)
Variable dateutil_parse : string -> datetime -> pyres struct_time.

(** Lines 96-106: the two library parsers. *)
Definition parser_fallback (natural_date : string) (today : datetime)
  : pyres (option string) :=
  let! (time_struct, parse_status) := cal_parse natural_date (timetuple today) in
  if negb (parse_status =? 0) then
    let! d := datetime_of_struct time_struct in
    Ok (Some (strftime d))
  else
    match (let! t := dateutil_parse natural_date today in datetime_of_struct t) with
    | Ok d => Ok (Some (strftime d))
    | Raise _ => Ok None
    end.

(** Lines 74-106.  [natural_date] is whatever the decoded object holds; a
    value that is true and is not a [str] has no method [lower]. *)
Definition parse_date_string (natural_date : pyval) (base_date : option datetime)
    (now : datetime) : pyres (option string) :=
  if negb (truthy natural_date) then Ok None
  else
    match natural_date with
    | VStr text =>
        let natural_date_lower := strip (lower text) in
        let today := default now base_date in
        if contains "day after tomorrow" natural_date_lower then
          let! d := add_days today 2 in Ok (Some (strftime d))
        else if contains "tomorrow" natural_date_lower then
          let! d := add_days today 1 in Ok (Some (strftime d))
        else if String.eqb natural_date_lower "next month" then
          let! d := add_one_month today in Ok (Some (strftime d))
        else
          match search_after_days natural_date_lower with
          | Some group1 =>
              let! days := int_of_digit_text group1 in
              let! d := add_days today days in Ok (Some (strftime d))
          | None => parser_fallback text today
          end
    | _ => Raise AttributeError
    end.

(** ** is_missing *)

(** Lines 109-113. *)
Definition SENTINELS : list string :=
  [""; "none"; "not provided"; "departure city (not provided)";
   "arrival city (not provided)"].

Definition is_missing (value : pyval) : bool :=
  match value with
  | VNone => true
  | _ =>
      let value := lower (strip (py_str value)) in
      existsb (String.eqb value) SENTINELS
  end.

(** ** parse_query, from the decoded object on *)

Record segment : Type := mksegment {
  seg_depfrom : pyval; seg_arrto : pyval; seg_depdate : string
}.

Record payload : Type := mkpayload {
  adults : Z; children : Z; infants : Z;
  cabin : string; stops : bool; airline_include : pyval;
  ages : list pyval; segments : list segment
}.

Inductive response : Type :=
| Error500 (e : exn)
| Incomplete (message : string) (missing_fields follow_up : list string)
             (parsed_from parsed_to parsed_depdate : pyval)
| Complete (p : payload).

Definition ASK_FROM : string := "✈️ Where are you flying *from*?".
Definition ASK_TO : string := "🛬 Where are you flying *to*?".
Definition ASK_DEPDATE : string := "📅 When do you want to *depart*?".

(** [if depdate] on a value that is a [str] or [None]. *)
Definition truthy_str (o : option string) : bool :=
  match o with
  | Some s => negb (is_empty s)
  | None => false
  end.

(** Lines 154-155: the two calls of the resolver. *)
Definition resolve_depdate (now : datetime) (depdate_raw : pyval)
  : pyres (option string) :=
  if truthy depdate_raw then parse_date_string depdate_raw None now else Ok None.

Definition resolve_retdate (now : datetime) (retdate_raw : pyval)
    (depdate : option string) : pyres (option string) :=
  if truthy retdate_raw && truthy_str depdate then
    let! base_date := strptime (default "" depdate) in
    parse_date_string retdate_raw (Some base_date) now
  else Ok None.

(** Lines 163-174: the two lists, filled in lockstep. *)
Definition check_missing (depfrom arrto depdate_raw : pyval)
    (depdate : option string) : list string * list string :=
  let missing_fields : list string := [] in
  let follow_up_questions : list string := [] in
  let '(missing_fields, follow_up_questions) :=
    if is_missing depfrom
    then ((missing_fields ++ ["from"])%list,
          (follow_up_questions ++ [ASK_FROM])%list)
    else (missing_fields, follow_up_questions) in
  let '(missing_fields, follow_up_questions) :=
    if is_missing arrto
    then ((missing_fields ++ ["to"])%list,
          (follow_up_questions ++ [ASK_TO])%list)
    else (missing_fields, follow_up_questions) in
  let '(missing_fields, follow_up_questions) :=
    if negb (truthy depdate_raw) || negb (truthy_str depdate)
    then ((missing_fields ++ ["depdate"])%list,
          (follow_up_questions ++ [ASK_DEPDATE])%list)
    else (missing_fields, follow_up_questions) in
  (missing_fields, follow_up_questions).

Definition parse_query (now : datetime) (parsed : gmap string pyval) : response :=
  let depdate_raw := get parsed "depdate" in
  let retdate_raw := get parsed "retdate" in
  let depfrom := get parsed "from" in
  let arrto := get parsed "to" in
  let body : pyres response :=
    let! depdate := resolve_depdate now depdate_raw in
    let! retdate := resolve_retdate now retdate_raw depdate in
    let! adults := py_int (get_default parsed "adults" (VInt 1)) in
    let! children := py_int (get_default parsed "children" (VInt 0)) in
    let! infants := py_int (get_default parsed "infants" (VInt 0)) in
    let! cabin := py_lower (get_default parsed "cabin" (VStr "economy")) in
    let airline := get_default parsed "airline_include" (VStr "") in
    let '(missing_fields, follow_up_questions) :=
      check_missing depfrom arrto depdate_raw depdate in
    if negb (match missing_fields with [] => true | _ => false end) then
      Ok (Incomplete ("Missing fields: " +:+ join ", " missing_fields)
            missing_fields follow_up_questions
            depfrom arrto (if truthy depdate_raw then depdate_raw else VNone))
    else
      let first := mksegment depfrom arrto (default "" depdate) in
      let segments :=
        if truthy_str retdate
        then [first; mksegment arrto depfrom (default "" retdate)]
        else [first] in
      Ok (Complete (mkpayload adults children infants cabin false airline []
                      segments))
  in
  match body with
  | Ok r => r
  | Raise e => Error500 e
  end.

End Resolver.

End App.

(** ** Auxiliary definitions of the proofs *)

Module Aux.
Import PyStr Calendar PyVal App.

(** The end of [ord2ymd]: month and day of the [n]-th day (from 0) of a
    year. *)
Definition md_of_yday (leapyear : bool) (n : Z) : Z * Z :=
  let month := Z.shiftr (n + 50) 5 in
  let preceding :=
    DAYS_BEFORE_MONTH month + (if (month >? 2) && leapyear then 1 else 0) in
  let '(month, preceding) :=
    if preceding >? n
    then (month - 1,
          preceding - (DAYS_IN_MONTH (month - 1)
                       + (if (month - 1 =? 2) && leapyear then 1 else 0)))
    else (month, preceding) in
  (month, n - preceding + 1).

Definition zrange (lo : Z) (len : nat) : list Z :=
  map (fun i => lo + Z.of_nat i) (seq 0 len).

Definition month_length (leap : bool) (m : Z) : Z :=
  if (m =? 2) && leap then 29 else DAYS_IN_MONTH m.

Definition yday_of_md (leap : bool) (m d : Z) : Z :=
  DAYS_BEFORE_MONTH m + (if (m >? 2) && leap then 1 else 0) + d - 1.

(** What [md_of_yday] owes on the [n]-th day of a year. *)
Definition md_ok (leap : bool) (n : Z) : bool :=
  let '(m, d) := md_of_yday leap n in
  (1 <=? m) && (m <=? 12) && (1 <=? d) && (d <=? month_length leap m)
  && (yday_of_md leap m d =? n).

(** What it owes on the day [d] of the month [m]. *)
Definition yday_ok (leap : bool) (m d : Z) : bool :=
  let n := yday_of_md leap m d in
  (0 <=? n) && (n <? 365 + (if leap then 1 else 0))
  && (let '(m', d') := md_of_yday leap n in (m' =? m) && (d' =? d)).

(** The day after, in the calendar. *)
Definition next_day (y m d : Z) : Z * Z * Z :=
  if d <? days_in_month y m then (y, m, d + 1)
  else if m <? 12 then (y, m + 1, 1)
  else (y + 1, 1, 1).

Definition next_date (t : Z * Z * Z) : Z * Z * Z :=
  let '(y, m, d) := t in next_day y m d.

(** The date [n] days after [dt] in the calendar, day by day, at the same
    time of day; the years are not bounded here. *)
Definition plus_days (dt : datetime) (n : nat) : datetime :=
  let '(y, m, d) := Nat.iter n next_date (year dt, month dt, day dt) in
  mkdatetime y m d (hour dt) (minute dt) (second dt) (microsecond dt).

(** A date of the calendar, whatever the year from 1 on. *)
Definition calendar_date (t : Z * Z * Z) : Prop :=
  let '(y, m, d) := t in
  1 <= y /\ 1 <= m <= 12 /\ 1 <= d <= days_in_month y m.

Definition first_char_ok (p : string) : bool :=
  match p with
  | String c _ => negb (is_space c)
  | EmptyString => false
  end.

Fixpoint last_char_ok (p : string) : bool :=
  match p with
  | EmptyString => false
  | String c EmptyString => negb (is_space c)
  | String _ p' => last_char_ok p'
  end.

Fixpoint has_blank (s : string) : bool :=
  match s with
  | EmptyString => false
  | String c s' => Ascii.eqb c " " || has_blank s'
  end.

(** The prompt that goes with a missing field. *)
Definition prompt_for (field : string) : string :=
  if String.eqb field "from" then ASK_FROM
  else if String.eqb field "to" then ASK_TO
  else ASK_DEPDATE.

(** [parse_query] once the two dates are resolved (lines 157-216). *)
Definition query_tail (parsed : gmap string pyval)
    (depdate retdate : option string) : pyres response :=
  let depdate_raw := get parsed "depdate" in
  let depfrom := get parsed "from" in
  let arrto := get parsed "to" in
  let! adults := py_int (get_default parsed "adults" (VInt 1)) in
  let! children := py_int (get_default parsed "children" (VInt 0)) in
  let! infants := py_int (get_default parsed "infants" (VInt 0)) in
  let! cabin := py_lower (get_default parsed "cabin" (VStr "economy")) in
  let airline := get_default parsed "airline_include" (VStr "") in
  let '(missing_fields, follow_up_questions) :=
    check_missing depfrom arrto depdate_raw depdate in
  if negb (match missing_fields with [] => true | _ => false end) then
    Ok (Incomplete ("Missing fields: " +:+ join ", " missing_fields)
          missing_fields follow_up_questions
          depfrom arrto (if truthy depdate_raw then depdate_raw else VNone))
  else
    let first := mksegment depfrom arrto (default "" depdate) in
    let segments :=
      if truthy_str retdate
      then [first; mksegment arrto depfrom (default "" retdate)]
      else [first] in
    Ok (Complete (mkpayload adults children infants cabin false airline []
                    segments)).

(** The claim C7 lists these sentinels. *)
Definition CLAIMED_SENTINELS : list string :=
  [""; "not provided"; "departure city (not provided)";
   "arrival city (not provided)"].

End Aux.

(** ** Instances used as examples *)

Module Fixtures.
Import Calendar App.

(** A calendar parser that recognises nothing: status 0 and the source time
    back, as [parsedatetime] does. *)
Definition no_calendar (text : string) (source : struct_time)
  : pyres (struct_time * Z) := Ok (source, 0).

(** A date parser that refuses everything. *)
Definition no_dateutil (text : string) (dflt : datetime) : pyres struct_time :=
  Raise ValueError.

Definition midnight (y m d : Z) : datetime := mkdatetime y m d 0 0 0 0.

Definition afternoon (y m d : Z) : datetime := mkdatetime y m d 15 24 7 120.

Definition rec_no_destination : gmap string pyval :=
  <["from" := VStr "DEL"]> (<["to" := VNone]> (<["depdate" := VStr "tomorrow"]> ∅)).

Definition rec_no_destination_key : gmap string pyval :=
  <["from" := VStr "DEL"]> (<["depdate" := VStr "tomorrow"]> ∅).

Definition rec_round_trip : gmap string pyval :=
  <["from" := VStr "DEL"]> (<["to" := VStr "DXB"]>
    (<["depdate" := VStr "day after tomorrow"]>
       (<["retdate" := VStr "after 10 days"]> ∅))).

Definition rec_one_way : gmap string pyval :=
  <["from" := VStr "DEL"]> (<["to" := VStr "DXB"]>
    (<["depdate" := VStr "tomorrow"]> ∅)).

Definition rec_null_airline : gmap string pyval :=
  <["airline_include" := VNone]> rec_one_way.

Definition rec_null_adults : gmap string pyval :=
  <["adults" := VNone]> rec_one_way.

Definition rec_null_cabin : gmap string pyval :=
  <["cabin" := VNone]> rec_one_way.

Definition rec_only_destination : gmap string pyval :=
  <["to" := VStr "DXB"]> ∅.

(** A date parser that reads every text as 5 January 999. *)
Definition old_dateutil (text : string) (dflt : datetime) : pyres struct_time :=
  Ok (mkstruct_time 999 1 5 0 0 0).

Definition rec_old_departure : gmap string pyval :=
  <["from" := VStr "DEL"]> (<["to" := VStr "DXB"]>
    (<["depdate" := VStr "0999-01-05"]>
       (<["retdate" := VStr "tomorrow"]> ∅))).

Definition rec_far_return : gmap string pyval :=
  <["retdate" := VStr "after 10000000 days"]> rec_one_way.

(** The number 5 written with 4300 zeros before it. *)
Definition padded_five : string := Nat.iter 4300 (String "0") "5".

(** The current date of the examples: 2025-06-01, in the afternoon. *)
Definition june_first : datetime := afternoon 2025 6 1.

Definition payload_round_trip : payload :=
  mkpayload 1 0 0 "economy" false (VStr "") []
    [mksegment (VStr "DEL") (VStr "DXB") "2025-06-03";
     mksegment (VStr "DXB") (VStr "DEL") "2025-06-13"].

Definition payload_one_way : payload :=
  mkpayload 1 0 0 "economy" false (VStr "") []
    [mksegment (VStr "DEL") (VStr "DXB") "2025-06-02"].

End Fixtures.

(** ** The endpoint, from the request on

    Lines 19-24 (the key of the client) and lines 122-147 of [parse_query]:
    the request body, the call of the language model and the extraction of
    the JSON object from its answer.  The model, [json.loads] and the fixed
    text of the prompt are parameters; the body and the answer of the model
    are what the libraries hand over. *)

Module Endpoint.
Import PyStr PyVal Calendar App.

(** Lines 19-24: [os.getenv("OPENAI_API_KEY").strip()], then the test of the
    key.  [env] is what [os.getenv] returns. *)
Definition load_api_key (env : option string) : pyres string :=
  match env with
  | None => Raise AttributeError
  | Some value =>
      let key := strip value in
      if is_empty key then Raise ValueError else Ok key
  end.

(** Lines 222-224: what the module prints when it is loaded: the length of
    the key, its first ten characters ([key[:10]]) and its last ten
    ([key[-10:]]). *)
Fixpoint first_chars (n : nat) (s : string) : string :=
  match n, s with
  | S n', String c s' => String c (first_chars n' s')
  | _, _ => EmptyString
  end.

Definition last_chars (n : nat) (s : string) : string :=
  drop (String.length s - n) s.

Definition key_report (key : string) : nat * string * string :=
  (String.length key, first_chars 10 key, last_chars 10 key).

(** The longest prefix of [s] that ends with a closing brace. *)
Fixpoint upto_last_close (s : string) : option string :=
  match s with
  | EmptyString => None
  | String c s' =>
      match upto_last_close s' with
      | Some r => Some (String c r)
      | None => if Ascii.eqb c "}" then Some (String c EmptyString) else None
      end
  end.

(** Line 143: the group of [re.search] for an opening brace, anything (new
    lines too, with DOTALL) taken greedily, and a closing brace: from the
    first opening brace with a closing brace after it to the last closing
    brace. *)
Fixpoint search_object (content : string) : option string :=
  match content with
  | EmptyString => None
  | String c s' =>
      if Ascii.eqb c "{" then
        match upto_last_close s' with
        | Some r => Some (String c r)
        | None => search_object s'
        end
      else search_object s'
  end.

(** What [request.get_json()] returns: an object, or any other JSON value,
    which has no method [get]. *)
Inductive json_top : Type :=
| JObject (d : gmap string pyval)
| JOther.

(** The answers of the endpoint: the two error bodies of lines 128 and 145,
    and what lines 149-219 answer. *)
Inductive reply : Type :=
| MissingQuery
| InvalidModelOutput
| Answer (r : response).

Definition status_code (r : reply) : Z :=
  match r with
  | MissingQuery => 400
  | InvalidModelOutput => 500
  | Answer (Error500 _) => 500
  | Answer _ => 200
  end.

Section Handler.

Variable cal_parse : string -> struct_time -> pyres (struct_time * Z).
Variable dateutil_parse : string -> datetime -> pyres struct_time.

(** The fixed text of the prompt (lines 35-70) before the date, between the
    date and the query, and after the query. *)
Variables PROMPT_HEAD PROMPT_MIDDLE PROMPT_TAIL : string.

(** [client.chat.completions.create(...)] followed by
    [.choices[0].message.content]: the content, which may be [None]. *)
Variable chat_completion : string -> pyres (option string).

(** [json.loads] on a text that begins with a brace: an object or an
    exception. *)
Variable json_loads : string -> pyres (gmap string pyval).

(** Lines 34-70. *)
Definition build_prompt (now : datetime) (query : pyval) : string :=
  PROMPT_HEAD +:+ strftime now +:+ PROMPT_MIDDLE +:+ py_str query
  +:+ PROMPT_TAIL.

(** Lines 123-219, with the part from [parsed] on as [parse_query]. *)
Definition search (now : datetime) (body : pyres json_top) : reply :=
  let handler : pyres reply :=
    let! data := body in
    let! user_query :=
      match data with
      | JObject d => Ok (get d "query")
      | JOther => Raise AttributeError
      end in
    if negb (truthy user_query) then Ok MissingQuery
    else
      let prompt := build_prompt now user_query in
      let! content := chat_completion prompt in
      let! content :=
        match content with
        | Some text => Ok (strip text)
        | None => Raise AttributeError
        end in
      match search_object content with
      | None => Ok InvalidModelOutput
      | Some json_match =>
          let! parsed := json_loads json_match in
          Ok (Answer (parse_query cal_parse dateutil_parse now parsed))
      end
  in
  match handler with
  | Ok r => r
  | Raise e => Answer (Error500 e)
  end.

End Handler.

End Endpoint.

(** ** Auxiliary definitions of the further properties *)

Module Aux2.
Import PyStr PyVal Calendar App Endpoint.

Fixpoint all_space (s : string) : bool :=
  match s with
  | EmptyString => true
  | String c s' => is_space c && all_space s'
  end.

(** White space that [int] skips, and nothing else. *)
Fixpoint all_int_space (s : string) : bool :=
  match s with
  | EmptyString => true
  | String c s' => is_int_space c && all_int_space s'
  end.

Fixpoint has_char (a : ascii) (s : string) : bool :=
  match s with
  | EmptyString => false
  | String c s' => Ascii.eqb c a || has_char a s'
  end.

(** A calendar parser that answers on every text and whose time structure,
    when it recognises something, is one of a datetime. *)
Definition calendar_behaves
    (cal_parse : string -> struct_time -> pyres (struct_time * Z)) : Prop :=
  forall text source,
    exists time_struct parse_status,
      cal_parse text source = Ok (time_struct, parse_status)
      /\ (parse_status <> 0 ->
          exists D, datetime_of_struct time_struct = Ok D).

(** A model that answers every prompt with the same content. *)
Definition constant_model (content : option string) (prompt : string)
  : pyres (option string) := Ok content.

(** A decoder for one text. *)
Definition decode_only (text : string) (parsed : gmap string pyval)
    (s : string) : pyres (gmap string pyval) :=
  if String.eqb s text then Ok parsed else Raise ValueError.

Definition body_with_query (q : pyval) : pyres json_top :=
  Ok (JObject (<["query" := q]> ∅)).

(** The keys of the decoded object that [parse_query] reads (lines
    149-161). *)
Definition READ_KEYS : list string :=
  ["depdate"; "retdate"; "from"; "to"; "adults"; "children"; "infants";
   "cabin"; "airline_include"].

(** A character other than [c]. *)
Definition other_char (c : ascii) : ascii :=
  if Ascii.eqb c "x" then "y"%char else "x"%char.

(** The number of days that the phrases and the pattern of
    [parse_date_string] add to the anchor (lines 82-94), for a text that is
    already in lower case and stripped. *)
Definition day_offset (low : string) : option Z :=
  if contains "day after tomorrow" low then Some 2
  else if contains "tomorrow" low then Some 1
  else if String.eqb low "next month" then None
  else
    match Regex.search_after_days low with
    | Some group1 =>
        if (MAX_STR_DIGITS <? String.length group1)%nat then None
        else Some (int_of_digits group1)
    | None => None
    end.

End Aux2.

(** * Proofs *)

Import PyStr Regex Calendar PyVal App Aux Fixtures.

Ltac Zify.zify_post_hook ::= Z.to_euclidean_division_equations.
Local Arguments String.append !_ _ : simpl nomatch.
Local Arguments Ascii.eqb : simpl never.

Ltac each_ascii c := destruct c as [[] [] [] [] [] [] [] []].

Ltac split_eqb :=
  repeat match goal with
    | |- context [Ascii.eqb ?a ?b] =>
        destruct (Ascii.eqb_spec a b); subst; cbn in *
    end.

(** ** Characters and strings *)

Section Strings.

Lemma is_space_lower_char c : is_space (lower_char c) = is_space c.
Proof. each_ascii c; reflexivity. Qed.

Lemma is_digit_lower_char c : is_digit (lower_char c) = is_digit c.
Proof. each_ascii c; reflexivity. Qed.

Lemma blank_lower_char c : Ascii.eqb (lower_char c) " " = Ascii.eqb c " ".
Proof. each_ascii c; reflexivity. Qed.

Lemma lower_app s t : lower (s +:+ t) = lower s +:+ lower t.
Proof. induction s as [|c s IH]; cbn; [reflexivity | now rewrite IH]. Qed.

Lemma lstrip_lower s : lstrip (lower s) = lower (lstrip s).
Proof.
  induction s as [|c s IH]; cbn; [reflexivity|].
  rewrite is_space_lower_char. destruct (is_space c); [exact IH | reflexivity].
Qed.

Lemma rstrip_lower s : rstrip (lower s) = lower (rstrip s).
Proof.
  induction s as [|c s IH]; cbn; [reflexivity|].
  rewrite IH, is_space_lower_char.
  destruct (rstrip s); cbn; [destruct (is_space c)|]; reflexivity.
Qed.

Lemma strip_lower s : strip (lower s) = lower (strip s).
Proof. unfold strip. now rewrite lstrip_lower, rstrip_lower. Qed.

Lemma has_blank_lower s : has_blank (lower s) = has_blank s.
Proof.
  induction s as [|c s IH]; cbn; [reflexivity|].
  now rewrite blank_lower_char, IH.
Qed.

Lemma all_digits_lower s : all_digits (lower s) = all_digits s.
Proof.
  induction s as [|c s IH]; cbn; [reflexivity|].
  now rewrite is_digit_lower_char, IH.
Qed.

Lemma startswith_app p s : startswith p (p +:+ s) = true.
Proof.
  induction p as [|c p IH]; cbn; [reflexivity|]. now rewrite Ascii.eqb_refl.
Qed.

Lemma startswith_spec p s : startswith p s = true <-> exists b, s = p +:+ b.
Proof.
  split.
  - revert s. induction p as [|c p IH]; intros s H; cbn in *.
    + now exists s.
    + destruct s as [|d s]; [discriminate|].
      apply andb_true_iff in H. destruct H as [H1 H2].
      apply Ascii.eqb_eq in H1. subst d.
      destruct (IH _ H2) as [b ->]. now exists b.
  - intros [b ->]. apply startswith_app.
Qed.

Lemma contains_app_r p a s : contains p s = true -> contains p (a +:+ s) = true.
Proof.
  intros H. induction a as [|c a IH]; cbn; [exact H|].
  rewrite IH. apply orb_true_r.
Qed.

(** [p in s] is: [s] is some text, [p], some text. *)
Lemma contains_spec p s :
  contains p s = true <-> exists a b, s = a +:+ p +:+ b.
Proof.
  split.
  - induction s as [|c s IH]; cbn; intros H.
    + rewrite orb_false_r in H. apply startswith_spec in H.
      destruct H as [b ->]. now exists "", b.
    + apply orb_true_iff in H. destruct H as [H|H].
      * apply startswith_spec in H. destruct H as [b ->]. now exists "", b.
      * destruct (IH H) as (a & b & ->). now exists (String c a), b.
  - intros (a & b & ->). apply contains_app_r.
    destruct (p +:+ b) eqn:E; cbn; rewrite <- E, startswith_app; reflexivity.
Qed.

Lemma contains_lstrip p s :
  first_char_ok p = true -> contains p (lstrip s) = contains p s.
Proof.
  intros Hp. destruct p as [|a p]; [discriminate|]. cbn in Hp.
  induction s as [|c s IH]; [reflexivity|].
  cbn [lstrip]. destruct (is_space c) eqn:E; [|reflexivity].
  rewrite IH. cbn.
  destruct (Ascii.eqb_spec a c) as [->|]; [|reflexivity].
  rewrite E in Hp. discriminate.
Qed.

Lemma startswith_rstrip q s :
  (q = "" \/ last_char_ok q = true) -> startswith q (rstrip s) = startswith q s.
Proof.
  revert q. induction s as [|c s IH]; intros q Hq; [reflexivity|].
  destruct q as [|a q]; [destruct (rstrip (String c s)); reflexivity|].
  destruct Hq as [Hq|Hq]; [discriminate|].
  cbn [rstrip].
  assert (Hq' : q = "" \/ last_char_ok q = true).
  { destruct q; [now left | right; exact Hq]. }
  specialize (IH q Hq').
  destruct (rstrip s) eqn:E.
  - destruct (is_space c) eqn:Ec; cbn.
    + destruct (Ascii.eqb_spec a c) as [->|]; [|reflexivity]. cbn.
      rewrite <- IH. destruct q; [|reflexivity].
      cbn in Hq. rewrite Ec in Hq. discriminate.
    + now rewrite <- IH.
  - cbn. now rewrite <- IH.
Qed.

Lemma contains_rstrip p s :
  first_char_ok p = true -> last_char_ok p = true ->
  contains p (rstrip s) = contains p s.
Proof.
  intros Hf Hl. induction s as [|c s IH]; [reflexivity|].
  assert (Hs : startswith p (rstrip (String c s)) = startswith p (String c s))
    by (apply startswith_rstrip; now right).
  cbn [contains]. rewrite <- IH, <- Hs. cbn [rstrip].
  destruct (rstrip s) eqn:E.
  - destruct (is_space c); cbn [contains]; destruct p; try discriminate; cbn;
      rewrite ?orb_false_r, ?andb_false_r; reflexivity.
  - reflexivity.
Qed.

(** Trimming neither adds nor removes an occurrence of a phrase that has no
    white space at its ends. *)
Lemma contains_strip p s :
  first_char_ok p = true -> last_char_ok p = true ->
  contains p (strip s) = contains p s.
Proof.
  intros Hf Hl. unfold strip. now rewrite contains_rstrip, contains_lstrip.
Qed.

End Strings.

Section Trimming.

Lemma lstrip_app pre x :
  first_char_ok x = true -> lstrip (pre +:+ x) = lstrip pre +:+ x.
Proof.
  intros Hx. induction pre as [|c pre IH]; cbn.
  - destruct x as [|a x]; [discriminate|]. cbn in *.
    now destruct (is_space a).
  - destruct (is_space c); [exact IH | reflexivity].
Qed.

Lemma rstrip_app y post :
  last_char_ok y = true -> rstrip (y +:+ post) = y +:+ rstrip post.
Proof.
  induction y as [|c y IH]; intros Hy; [discriminate|].
  cbn [String.append rstrip]. destruct y as [|c' y'].
  - cbn in *. destruct (rstrip post); [|reflexivity].
    now destruct (is_space c).
  - rewrite IH by exact Hy. reflexivity.
Qed.

Lemma last_char_ok_app a b : last_char_ok b = true -> last_char_ok (a +:+ b) = true.
Proof.
  intros Hb. induction a as [|c a IH]; [exact Hb|].
  cbn [String.append last_char_ok]. destruct (a +:+ b) eqn:E; [|exact IH].
  destruct a; [|discriminate]. cbn in E. subst b. discriminate.
Qed.

Lemma app_assoc a b c : (a +:+ b) +:+ c = a +:+ b +:+ c.
Proof. induction a as [|x a IH]; cbn; [reflexivity | now rewrite IH]. Qed.

(** Trimming a text around a core that has no white space at its ends trims
    what is before and what is after the core. *)
Lemma strip_around pre core post :
  first_char_ok core = true -> last_char_ok core = true ->
  strip (pre +:+ core +:+ post) = lstrip pre +:+ core +:+ rstrip post.
Proof.
  intros Hf Hl. unfold strip.
  assert (Hf' : first_char_ok (core +:+ post) = true)
    by (destruct core; [discriminate | exact Hf]).
  rewrite lstrip_app by exact Hf'.
  rewrite <- app_assoc, rstrip_app, app_assoc; [reflexivity|].
  now apply last_char_ok_app.
Qed.

Lemma startswith_blank p a b :
  has_blank p = false -> startswith p (a +:+ String " " b) = startswith p a.
Proof.
  revert a. induction p as [|d p IH]; intros a Hp; [reflexivity|].
  cbn in Hp. apply orb_false_iff in Hp. destruct Hp as [Hd Hp].
  destruct a as [|c a]; cbn.
  - rewrite Hd. reflexivity.
  - now rewrite IH.
Qed.

(** A phrase without blank occurs in [a b] only inside [a] or inside [b]. *)
Lemma contains_blank p a b :
  has_blank p = false ->
  contains p (a +:+ String " " b) = contains p a || contains p b.
Proof.
  intros Hp. induction a as [|c a IH].
  - cbn [String.append contains].
    change (String " " b) with ("" +:+ String " " b) at 1.
    rewrite startswith_blank by exact Hp. now rewrite orb_false_r.
  - change (String c a +:+ String " " b) with (String c (a +:+ String " " b)).
    cbn [contains]. rewrite IH.
    change (String c (a +:+ String " " b)) with (String c a +:+ String " " b).
    rewrite startswith_blank by exact Hp.
    now rewrite orb_assoc.
Qed.

End Trimming.

(** ** The pattern [after (\d+) days?] *)

Section Pattern.

Lemma span_digits_app ds rest :
  all_digits ds = true ->
  match rest with String c _ => is_digit c = false | EmptyString => True end ->
  span_digits (ds +:+ rest) = (ds, rest).
Proof.
  intros Hd Hr. induction ds as [|c ds IH]; cbn in *.
  - destruct rest as [|c r]; [reflexivity|]. cbn. now rewrite Hr.
  - apply andb_true_iff in Hd. destruct Hd as [Hc Hd].
    rewrite Hc, (IH Hd). reflexivity.
Qed.

(** No match begins in a text that comes before the literal and does not
    hold the literal itself. *)
Lemma no_match_across pre rest :
  pre <> "" -> startswith "after " pre = false ->
  startswith "after " (pre +:+ "after " +:+ rest) = false.
Proof.
  intros Hne H.
  destruct pre as [|c1 [|c2 [|c3 [|c4 [|c5 [|c6 p]]]]]]; [congruence|..];
    cbn in *; split_eqb; try reflexivity; try discriminate; congruence.
Qed.

(** The leftmost match and its group. *)
Lemma search_after_days_found pre ds post :
  contains "after " pre = false ->
  all_digits ds = true -> ds <> "" ->
  search_after_days (pre +:+ "after " +:+ ds +:+ " day" +:+ post) = Some ds.
Proof.
  intros Hpre Hd Hne. induction pre as [|c pre IH].
  - cbn [String.append search_after_days]. unfold match_here.
    change (startswith "after " ("after " +:+ ds +:+ " day" +:+ post))
      with (startswith "" (ds +:+ " day" +:+ post)).
    cbn [startswith drop String.append].
    rewrite span_digits_app by (cbn; auto).
    destruct ds; [congruence|]. reflexivity.
  - cbn [contains] in Hpre. apply orb_false_iff in Hpre. destruct Hpre as [H1 H2].
    change (String c pre +:+ "after " +:+ ds +:+ " day" +:+ post)
      with (String c (pre +:+ "after " +:+ ds +:+ " day" +:+ post)).
    cbn [search_after_days]. unfold match_here at 1.
    change (String c (pre +:+ "after " +:+ ds +:+ " day" +:+ post))
      with (String c pre +:+ "after " +:+ ds +:+ " day" +:+ post) at 1.
    rewrite no_match_across by (auto; discriminate).
    now apply IH.
Qed.

Lemma match_here_token x :
  has_blank x = false -> match_here (x +:+ " days") = None.
Proof.
  intros H. unfold match_here.
  destruct x as [|c1 [|c2 [|c3 [|c4 [|c5 [|c6 p]]]]]]; cbn in *;
    split_eqb; try reflexivity; try discriminate.
Qed.

Lemma search_token_tail x :
  has_blank x = false -> search_after_days (x +:+ " days") = None.
Proof.
  induction x as [|c x IH]; intros H.
  - reflexivity.
  - change (String c x +:+ " days") with (String c (x +:+ " days")).
    cbn [search_after_days].
    change (String c (x +:+ " days")) with (String c x +:+ " days").
    rewrite match_here_token by exact H.
    apply IH. cbn in H. now apply orb_false_iff in H.
Qed.

Lemma span_digits_token x ds rest :
  has_blank x = false ->
  span_digits (x +:+ " days") = (ds, rest) ->
  startswith " day" rest = true ->
  ds = x /\ all_digits x = true.
Proof.
  revert ds rest. induction x as [|c x IH]; intros ds rest Hb Hs Hr.
  - cbn in Hs. injection Hs as <- <-. split; reflexivity.
  - cbn in Hb. apply orb_false_iff in Hb. destruct Hb as [Hc Hb].
    cbn [String.append span_digits] in Hs. destruct (is_digit c) eqn:Ec.
    + destruct (span_digits (x +:+ " days")) as [ds' rest'] eqn:E.
      injection Hs as <- <-.
      destruct (IH _ _ Hb eq_refl Hr) as [-> Hall].
      split; [reflexivity|]. cbn. now rewrite Ec, Hall.
    + injection Hs as <- <-. cbn in Hr.
      apply andb_true_iff in Hr. destruct Hr as [Hr _].
      apply Ascii.eqb_eq in Hr. subst c. discriminate.
Qed.

(** [after X days] does not match when the token [X] is not a number written
    in digits. *)
Lemma search_after_days_malformed x :
  has_blank x = false -> (x = "" \/ all_digits x = false) ->
  search_after_days ("after " +:+ x +:+ " days") = None.
Proof.
  intros Hb Hx.
  assert (H0 : match_here ("after " +:+ x +:+ " days") = None).
  { unfold match_here.
    change (startswith "after " ("after " +:+ x +:+ " days")) with true.
    cbn [drop String.append].
    destruct (span_digits (x +:+ " days")) as [ds rest] eqn:E.
    destruct (startswith " day" rest) eqn:Er; [|now rewrite andb_false_r].
    destruct (span_digits_token _ _ _ Hb E Er) as [-> Hall].
    destruct Hx as [->|Hx]; [reflexivity | congruence]. }
  change ("after " +:+ x +:+ " days")
    with (String "a" (String "f" (String "t" (String "e" (String "r"
           (String " " (x +:+ " days"))))))) in *.
  cbn [search_after_days]. rewrite H0.
  rewrite search_token_tail by exact Hb. reflexivity.
Qed.

Lemma int_of_digits_from_nonneg ds acc :
  0 <= acc -> all_digits ds = true -> 0 <= int_of_digits_from acc ds.
Proof.
  revert acc. induction ds as [|c ds IH]; intros acc Ha Hd; cbn in *; [exact Ha|].
  apply andb_true_iff in Hd. destruct Hd as [Hc Hd].
  apply IH; [|exact Hd]. unfold is_digit, digit_val in *. lia.
Qed.

End Pattern.

(** ** The day numbering of the calendar *)

Ltac euclid x c q r :=
  let H1 := fresh "Hdm" in let H2 := fresh "Hbd" in
  pose proof (Z.div_mod x c ltac:(lia)) as H1;
  pose proof (Z.mod_pos_bound x c ltac:(lia)) as H2;
  set (q := x / c) in *; set (r := x mod c) in *; clearbody q r.

Section Ordinals.

Lemma in_zrange lo len x : lo <= x < lo + Z.of_nat len -> In x (zrange lo len).
Proof.
  intros H. unfold zrange. apply in_map_iff. exists (Z.to_nat (x - lo)).
  split; [lia|]. apply in_seq. lia.
Qed.

Lemma is_leap_decomp a b c e :
  0 <= b <= 3 -> 0 <= c <= 24 -> 0 <= e <= 3 ->
  is_leap (400 * a + 100 * b + 4 * c + e + 1)
  = (e =? 3) && (negb (c =? 24) || (b =? 3)).
Proof.
  intros Hb Hc He. unfold is_leap.
  destruct (Z.eqb_spec ((400 * a + 100 * b + 4 * c + e + 1) mod 4) 0),
    (Z.eqb_spec ((400 * a + 100 * b + 4 * c + e + 1) mod 100) 0),
    (Z.eqb_spec ((400 * a + 100 * b + 4 * c + e + 1) mod 400) 0),
    (Z.eqb_spec e 3), (Z.eqb_spec c 24), (Z.eqb_spec b 3);
    cbn [andb orb negb]; try reflexivity; exfalso; lia.
Qed.

Lemma ord2ymd_tail n :
  ord2ymd n =
  let n0 := n - 1 in
  let n400 := n0 / 146097 in
  let r1 := n0 mod 146097 in
  let n100 := r1 / 36524 in
  let r2 := r1 mod 36524 in
  let n4 := r2 / 1461 in
  let r3 := r2 mod 1461 in
  let n1 := r3 / 365 in
  let r4 := r3 mod 365 in
  let year := n400 * 400 + 1 + n100 * 100 + n4 * 4 + n1 in
  if (n1 =? 4) || (n100 =? 4) then (year - 1, 12, 31)
  else let '(m, d) :=
         md_of_yday ((n1 =? 3) && (negb (n4 =? 24) || (n100 =? 3))) r4 in
       (year, m, d).
Proof.
  unfold ord2ymd, md_of_yday, DI400Y, DI100Y, DI4Y. cbv zeta.
  destruct (_ || _); [reflexivity|].
  destruct (_ >? _); reflexivity.
Qed.

Lemma md_of_yday_ok (leap : bool) (n : Z) :
  0 <= n < 365 + (if leap then 1 else 0) -> md_ok leap n = true.
Proof.
  intros H.
  assert (A : forallb (fun l : bool =>
                forallb (fun k : Z =>
                  implb (k <? 365 + (if l then 1 else 0)) (md_ok l k))
                  (zrange 0 366)) [true; false] = true)
    by (vm_compute; reflexivity).
  rewrite forallb_forall in A. specialize (A leap).
  assert (I : In leap [true; false]) by (destruct leap; simpl; auto).
  specialize (A I). rewrite forallb_forall in A.
  specialize (A n).
  assert (J : In n (zrange 0 366)) by (apply in_zrange; destruct leap; lia).
  specialize (A J).
  destruct (Z.ltb_spec n (365 + (if leap then 1 else 0))); [exact A | lia].
Qed.

Lemma yday_of_md_ok (leap : bool) (m d : Z) :
  1 <= m <= 12 -> 1 <= d <= month_length leap m -> yday_ok leap m d = true.
Proof.
  intros Hm Hd.
  assert (A : forallb (fun l : bool =>
                forallb (fun i : Z =>
                  forallb (fun j : Z =>
                    implb (j <=? month_length l i) (yday_ok l i j))
                    (zrange 1 31)) (zrange 1 12)) [true; false] = true)
    by (vm_compute; reflexivity).
  rewrite forallb_forall in A. specialize (A leap).
  assert (I : In leap [true; false]) by (destruct leap; simpl; auto).
  specialize (A I). rewrite forallb_forall in A.
  specialize (A m (in_zrange 1 12 m ltac:(lia))).
  rewrite forallb_forall in A.
  assert (Hd31 : d <= 31).
  { unfold month_length, DAYS_IN_MONTH in Hd.
    assert (E : m = 1 \/ m = 2 \/ m = 3 \/ m = 4 \/ m = 5 \/ m = 6 \/ m = 7
                \/ m = 8 \/ m = 9 \/ m = 10 \/ m = 11 \/ m = 12) by lia.
    repeat (destruct E as [->|E]; [destruct leap; cbn in Hd; lia|]).
    subst. destruct leap; cbn in Hd; lia. }
  specialize (A d (in_zrange 1 31 d ltac:(lia))).
  destruct (Z.leb_spec d (month_length leap m)); [exact A | lia].
Qed.

Lemma ord2ymd_of_yday Y yd :
  0 <= Y -> 0 <= yd < 365 + (if is_leap (Y + 1) then 1 else 0) ->
  ord2ymd (days_before_year (Y + 1) + yd + 1)
  = let '(m, d) := md_of_yday (is_leap (Y + 1)) yd in (Y + 1, m, d).
Proof.
  intros HY Hyd.
  assert (E : exists a b c e,
             Y = 400 * a + 100 * b + 4 * c + e
             /\ 0 <= a /\ 0 <= b <= 3 /\ 0 <= c <= 24 /\ 0 <= e <= 3).
  { exists (Y / 400), (Y mod 400 / 100), (Y mod 100 / 4), (Y mod 4). lia. }
  destruct E as (a & b & c & e & -> & Ha & Hb & Hc & He).
  rewrite is_leap_decomp in * by lia.
  rewrite ord2ymd_tail. unfold days_before_year. cbv zeta.
  replace (400 * a + 100 * b + 4 * c + e + 1 - 1)
    with (400 * a + 100 * b + 4 * c + e) by lia.
  set (L := (e =? 3) && (negb (c =? 24) || (b =? 3))) in *.
  assert (HL : L = true -> e = 3 /\ (c <> 24 \/ b = 3)).
  { unfold L. destruct (Z.eqb_spec e 3), (Z.eqb_spec c 24), (Z.eqb_spec b 3);
      cbn; intros HX; try discriminate HX; lia. }
  assert (HL' : L = false -> e <> 3 \/ (c = 24 /\ b <> 3)).
  { unfold L. destruct (Z.eqb_spec e 3), (Z.eqb_spec c 24), (Z.eqb_spec b 3);
      cbn; intros HX; try discriminate HX; lia. }
  assert (Hyd365 : yd = 365 \/ yd < 365) by (clearbody L; destruct L; lia).
  destruct Hyd365 as [-> | Hlt].
  - destruct L eqn:EL; [|exfalso; lia]. destruct (HL eq_refl) as [-> Hcb].
    match goal with
    | |- context [ (?x + 365 + 1 - 1) ] =>
        replace (x + 365 + 1 - 1)
          with (146097 * a + 36524 * b + 1461 * c + 1460) by lia
    end.
    destruct (Z.eq_dec c 24) as [->|Hc24].
    + assert (b = 3) as -> by lia.
      replace ((146097 * a + 36524 * 3 + 1461 * 24 + 1460) / 146097)
        with a by lia.
      replace ((146097 * a + 36524 * 3 + 1461 * 24 + 1460) mod 146097)
        with 146096 by lia.
      vm_compute (146096 / 36524). vm_compute (146096 mod 36524).
      simpl. f_equal. f_equal. lia.
    + replace ((146097 * a + 36524 * b + 1461 * c + 1460) / 146097)
        with a by lia.
      replace ((146097 * a + 36524 * b + 1461 * c + 1460) mod 146097)
        with (36524 * b + 1461 * c + 1460) by lia.
      replace ((36524 * b + 1461 * c + 1460) / 36524) with b by lia.
      replace ((36524 * b + 1461 * c + 1460) mod 36524)
        with (1461 * c + 1460) by lia.
      replace ((1461 * c + 1460) / 1461) with c by lia.
      replace ((1461 * c + 1460) mod 1461) with 1460 by lia.
      vm_compute (1460 / 365). simpl. f_equal. f_equal. lia.
  - match goal with
    | |- context [ (?x + yd + 1 - 1) ] =>
        replace (x + yd + 1 - 1)
          with (146097 * a + 36524 * b + 1461 * c + 365 * e + yd) by lia
    end.
    assert (Hb2 : 1461 * c + 365 * e + yd < 36524).
    { destruct L; [destruct (HL eq_refl)|destruct (HL' eq_refl)]; lia. }
    replace ((146097 * a + 36524 * b + 1461 * c + 365 * e + yd) / 146097)
      with a by lia.
    replace ((146097 * a + 36524 * b + 1461 * c + 365 * e + yd) mod 146097)
      with (36524 * b + 1461 * c + 365 * e + yd) by lia.
    replace ((36524 * b + 1461 * c + 365 * e + yd) / 36524) with b by lia.
    replace ((36524 * b + 1461 * c + 365 * e + yd) mod 36524)
      with (1461 * c + 365 * e + yd) by lia.
    replace ((1461 * c + 365 * e + yd) / 1461) with c by lia.
    replace ((1461 * c + 365 * e + yd) mod 1461) with (365 * e + yd) by lia.
    replace ((365 * e + yd) / 365) with e by lia.
    replace ((365 * e + yd) mod 365) with yd by lia.
    replace ((e =? 4) || (b =? 4)) with false
      by (symmetry; apply orb_false_iff; lia).
    fold L. destruct (md_of_yday L yd). f_equal. f_equal. lia.
Qed.

Lemma valid_date_iff y m d :
  valid_date y m d = true <->
  1 <= y <= 9999 /\ 1 <= m <= 12 /\ 1 <= d <= month_length (is_leap y) m.
Proof.
  unfold valid_date, days_in_month, month_length, MINYEAR, MAXYEAR.
  rewrite !andb_true_iff, !Z.leb_le. tauto.
Qed.

(** [fromordinal(toordinal(d)) == d] *)
Lemma ord2ymd_ymd2ord y m d :
  valid_date y m d = true -> ord2ymd (ymd2ord y m d) = (y, m, d).
Proof.
  intros H. apply valid_date_iff in H. destruct H as (Hy & Hm & Hd).
  pose proof (yday_of_md_ok (is_leap y) m d Hm Hd) as K.
  unfold yday_ok in K.
  destruct (md_of_yday (is_leap y) (yday_of_md (is_leap y) m d))
    as [m' d'] eqn:E.
  rewrite !andb_true_iff, !Z.leb_le, Z.ltb_lt, !Z.eqb_eq in K.
  destruct K as ((K1 & K2) & -> & ->).
  unfold ymd2ord, days_before_month.
  replace (days_before_year y
           + (DAYS_BEFORE_MONTH m + (if (m >? 2) && is_leap y then 1 else 0)) + d)
    with (days_before_year (y - 1 + 1) + yday_of_md (is_leap y) m d + 1)
    by (unfold yday_of_md; replace (y - 1 + 1) with y by lia; lia).
  rewrite ord2ymd_of_yday; replace (y - 1 + 1) with y by lia; try lia.
  now rewrite E.
Qed.

Lemma ymd2ord_bounds y m d :
  valid_date y m d = true -> 1 <= ymd2ord y m d <= MAXORDINAL.
Proof.
  intros H. apply valid_date_iff in H. destruct H as (Hy & Hm & Hd).
  pose proof (yday_of_md_ok (is_leap y) m d Hm Hd) as K.
  unfold yday_ok in K.
  rewrite !andb_true_iff, !Z.leb_le, Z.ltb_lt in K.
  destruct K as ((K1 & K2) & _).
  unfold ymd2ord, days_before_month, days_before_year, MAXORDINAL.
  unfold yday_of_md in *.
  destruct (is_leap y) eqn:EL.
  - unfold is_leap in EL. apply andb_true_iff in EL. destruct EL as [E4 _].
    apply Z.eqb_eq in E4. lia.
  - lia.
Qed.

Lemma days_before_year_decomp a b c e :
  0 <= b <= 3 -> 0 <= c <= 24 -> 0 <= e <= 3 ->
  days_before_year (400 * a + 100 * b + 4 * c + e + 1)
  = 146097 * a + 36524 * b + 1461 * c + 365 * e.
Proof. intros. unfold days_before_year. lia. Qed.

(** [fromordinal] gives a date of the calendar, and [toordinal] leads back. *)
Lemma ord2ymd_range n :
  1 <= n <= MAXORDINAL ->
  let '(y, m, d) := ord2ymd n in
  valid_date y m d = true /\ ymd2ord y m d = n.
Proof.
  unfold MAXORDINAL. intros Hn. rewrite ord2ymd_tail. cbv zeta.
  euclid (n - 1) 146097 q r1. euclid r1 36524 n100 r2.
  euclid r2 1461 n4 r3. euclid r3 365 n1 r4.
  assert (Hq : 0 <= q <= 24) by lia.
  assert (H100 : 0 <= n100 <= 4) by lia.
  assert (H4 : 0 <= n4 <= 24) by lia.
  assert (H1 : 0 <= n1 <= 4) by lia.
  destruct ((n1 =? 4) || (n100 =? 4)) eqn:Esp.
  - assert (Hsp : (n1 = 4 /\ n4 <= 23 /\ n100 <= 3 /\ r4 = 0)
                  \/ (n100 = 4 /\ n4 = 0 /\ n1 = 0 /\ r4 = 0 /\ r2 = 0)).
    { apply orb_true_iff in Esp. rewrite !Z.eqb_eq in Esp. lia. }
    assert (Ey : exists a b c,
               q * 400 + 1 + n100 * 100 + n4 * 4 + n1 - 1
               = 400 * a + 100 * b + 4 * c + 3 + 1
               /\ 0 <= b <= 3 /\ 0 <= c <= 24 /\ (c <> 24 \/ b = 3)
               /\ n - 1 = 146097 * a + 36524 * b + 1461 * c + 365 * 3 + 365
               /\ 0 <= a /\ 400 * a + 100 * b + 4 * c + 4 <= 9999).
    { destruct Hsp as [Hsp|Hsp].
      - exists q, n100, n4. lia.
      - exists q, 3, 24. lia. }
    destruct Ey as (a & b & c & -> & Hb & Hc & Hcb & En & Ha & Hy).
    assert (EL : is_leap (400 * a + 100 * b + 4 * c + 3 + 1) = true).
    { rewrite is_leap_decomp by lia.
      destruct (Z.eqb_spec c 24), (Z.eqb_spec b 3); cbn; try reflexivity; lia. }
    split.
    + apply valid_date_iff. rewrite EL. cbn. lia.
    + unfold ymd2ord, days_before_month. rewrite EL.
      rewrite days_before_year_decomp by lia. cbn. lia.
  - apply orb_false_iff in Esp. rewrite !Z.eqb_neq in Esp.
    set (L := (n1 =? 3) && (negb (n4 =? 24) || (n100 =? 3))).
    assert (EL : is_leap (q * 400 + 1 + n100 * 100 + n4 * 4 + n1) = L).
    { replace (q * 400 + 1 + n100 * 100 + n4 * 4 + n1)
        with (400 * q + 100 * n100 + 4 * n4 + n1 + 1) by lia.
      apply is_leap_decomp; lia. }
    pose proof (md_of_yday_ok L r4 ltac:(destruct L; lia)) as K.
    unfold md_ok in K. destruct (md_of_yday L r4) as [m d].
    rewrite !andb_true_iff, !Z.leb_le, Z.eqb_eq in K.
    destruct K as ((((K1 & K2) & K3) & K4) & K5).
    split.
    + apply valid_date_iff. rewrite EL. lia.
    + unfold ymd2ord, days_before_month. rewrite EL.
      replace (q * 400 + 1 + n100 * 100 + n4 * 4 + n1)
        with (400 * q + 100 * n100 + 4 * n4 + n1 + 1) by lia.
      rewrite days_before_year_decomp by lia.
      unfold yday_of_md in K5. lia.
Qed.
End Ordinals.

(** ** Dates as text: strftime and strptime *)

Section DateText.

Lemma digit_char_spec k :
  0 <= k <= 9 ->
  is_digit (digit_char k) = true /\ digit_val (digit_char k) = k.
Proof.
  intros H.
  assert (E : k = 0 \/ k = 1 \/ k = 2 \/ k = 3 \/ k = 4 \/ k = 5 \/ k = 6
              \/ k = 7 \/ k = 8 \/ k = 9) by lia.
  repeat (destruct E as [->|E]; [split; reflexivity|]). subst; split; reflexivity.
Qed.

Lemma parse_month_pad2 m rest :
  1 <= m <= 12 -> parse_month (pad2 m +:+ String "-" rest) = Some (m, rest).
Proof.
  intros H.
  assert (E : m = 1 \/ m = 2 \/ m = 3 \/ m = 4 \/ m = 5 \/ m = 6 \/ m = 7
              \/ m = 8 \/ m = 9 \/ m = 10 \/ m = 11 \/ m = 12) by lia.
  repeat (destruct E as [->|E]; [reflexivity|]). subst; reflexivity.
Qed.

Lemma parse_day_pad2 d : 1 <= d <= 31 -> parse_day (pad2 d) = Some d.
Proof.
  intros H.
  assert (E : In d (zrange 1 31)) by (apply in_zrange; lia).
  cbv in E.
  repeat (destruct E as [<-|E]; [reflexivity|]). destruct E.
Qed.

Lemma month_length_le_31 leap m : 1 <= m <= 12 -> month_length leap m <= 31.
Proof.
  intros H.
  assert (E : m = 1 \/ m = 2 \/ m = 3 \/ m = 4 \/ m = 5 \/ m = 6 \/ m = 7
              \/ m = 8 \/ m = 9 \/ m = 10 \/ m = 11 \/ m = 12) by lia.
  repeat (destruct E as [->|E]; [destruct leap; cbn; lia|]).
  subst; destruct leap; cbn; lia.
Qed.

(** From the year 1000 on the digits of the year are four. *)
Lemma year_text_pad4 y : 1000 <= y <= 9999 -> year_text y = pad4 y.
Proof.
  intros H.
  assert (A : forallb (fun k => String.eqb (year_text k) (pad4 k))
                (zrange 1000 (Z.to_nat 9000)) = true)
    by (vm_compute; reflexivity).
  rewrite forallb_forall in A.
  apply String.eqb_eq, A, in_zrange. rewrite Z2Nat.id by lia. lia.
Qed.

(** Before the year 1000 they are one, two or three. *)
Lemma year_text_short y :
  1 <= y <= 999 ->
  (exists a, year_text y = String a "")
  \/ (exists a b, year_text y = String a (String b ""))
  \/ (exists a b c, year_text y = String a (String b (String c ""))).
Proof.
  intros H.
  assert (A : forallb (fun k =>
                         negb (is_empty (year_text k))
                         && (String.length (year_text k) <=? 3)%nat)
                (zrange 1 999) = true) by (vm_compute; reflexivity).
  rewrite forallb_forall in A. specialize (A y (in_zrange 1 999 y ltac:(lia))).
  apply andb_true_iff in A. destruct A as [A1 A2]. apply Nat.leb_le in A2.
  destruct (year_text y) as [|a [|b [|c [|e t]]]]; cbn in A1, A2.
  - discriminate A1.
  - left. now exists a.
  - right; left. now exists a, b.
  - right; right. now exists a, b, c.
  - lia.
Qed.

(** Reading back a date that [strftime] wrote gives the date, at midnight,
    when its year has four digits. *)
Lemma strptime_strftime dt :
  valid_date (year dt) (month dt) (day dt) = true ->
  1000 <= year dt ->
  strptime (strftime dt)
  = Ok (mkdatetime (year dt) (month dt) (day dt) 0 0 0 0).
Proof.
  intros Hv H1000. pose proof Hv as Hv'.
  apply valid_date_iff in Hv'. destruct Hv' as (Hy & Hm & Hd).
  pose proof (month_length_le_31 (is_leap (year dt)) (month dt) Hm) as H31.
  unfold strftime. rewrite year_text_pad4 by lia. unfold pad4.
  destruct (digit_char_spec (year dt / 1000 mod 10) ltac:(lia)) as [D1 V1].
  destruct (digit_char_spec (year dt / 100 mod 10) ltac:(lia)) as [D2 V2].
  destruct (digit_char_spec (year dt / 10 mod 10) ltac:(lia)) as [D3 V3].
  destruct (digit_char_spec (year dt mod 10) ltac:(lia)) as [D4 V4].
  unfold pad2 at 1. cbn [String.append]. unfold strptime.
  rewrite D1, D2, D3, D4. cbn [andb].
  rewrite parse_month_pad2 by lia. rewrite parse_day_pad2 by lia.
  unfold int_of_digits. cbn [int_of_digits_from].
  rewrite V1, V2, V3, V4.
  replace (10 * (10 * (10 * (10 * 0 + year dt / 1000 mod 10)
                        + year dt / 100 mod 10) + year dt / 10 mod 10)
           + year dt mod 10) with (year dt) by lia.
  unfold new_datetime. rewrite Hv. reflexivity.
Qed.

(** The text of a date before the year 1000 is not read back: [%Y] of
    [strptime] asks for four digits. *)
Lemma strptime_strftime_short dt :
  valid_date (year dt) (month dt) (day dt) = true ->
  year dt < 1000 ->
  strptime (strftime dt) = Raise ValueError
  /\ (String.length (strftime dt) < 10)%nat.
Proof.
  intros Hv Hlt. pose proof Hv as Hv'.
  apply valid_date_iff in Hv'. destruct Hv' as (Hy & Hm & Hd).
  assert (E : month dt = 1 \/ month dt = 2 \/ month dt = 3 \/ month dt = 4
              \/ month dt = 5 \/ month dt = 6 \/ month dt = 7 \/ month dt = 8
              \/ month dt = 9 \/ month dt = 10 \/ month dt = 11
              \/ month dt = 12) by lia.
  unfold strftime.
  destruct (year_text_short (year dt) ltac:(lia))
    as [(a & ->)|[(a & b & ->)|(a & b & c & ->)]];
    (split; [|cbn; lia]);
    repeat (destruct E as [->|E]);
    try rewrite E; cbn;
    change (is_digit "-") with false;
    repeat match goal with
      | |- context [is_digit ?x] => destruct (is_digit x)
      end; reflexivity.
Qed.

Lemma strftime_length dt :
  1000 <= year dt <= 9999 -> String.length (strftime dt) = 10%nat.
Proof. intros H. unfold strftime. now rewrite year_text_pad4. Qed.

Lemma strftime_not_empty dt : is_empty (strftime dt) = false.
Proof. unfold strftime. now destruct (year_text (year dt)). Qed.

End DateText.

(** ** Date arithmetic *)

Section DateArithmetic.

Lemma toordinal_bounds dt :
  valid_date (year dt) (month dt) (day dt) = true ->
  1 <= toordinal dt <= MAXORDINAL.
Proof. apply ymd2ord_bounds. Qed.

(** What [dt + timedelta(days=n)] is when it does not raise. *)
Lemma add_days_ok dt n r :
  add_days dt n = Ok r ->
  valid_date (year r) (month r) (day r) = true
  /\ toordinal r = toordinal dt + n
  /\ (hour r, minute r, second r, microsecond r)
     = (hour dt, minute dt, second dt, microsecond dt).
Proof.
  unfold add_days. destruct (Z.abs n >? 999999999); [discriminate|].
  destruct ((0 <? toordinal dt + n) && (toordinal dt + n <=? MAXORDINAL)) eqn:E;
    [|discriminate].
  apply andb_true_iff in E. rewrite Z.ltb_lt, Z.leb_le in E.
  pose proof (ord2ymd_range (toordinal dt + n) ltac:(lia)) as K.
  destruct (ord2ymd (toordinal dt + n)) as [[y m] d].
  intros [= <-]. cbn. unfold toordinal. cbn. tauto.
Qed.

(** When it raises: always OverflowError. *)
Lemma add_days_raise dt n e : add_days dt n = Raise e -> e = OverflowError.
Proof.
  unfold add_days. destruct (Z.abs n >? 999999999); [congruence|].
  destruct (_ && _); [|congruence].
  destruct (ord2ymd _) as [[y m] d]. discriminate.
Qed.

Lemma add_days_in_range dt n :
  valid_date (year dt) (month dt) (day dt) = true ->
  0 <= n -> toordinal dt + n <= MAXORDINAL ->
  exists r, add_days dt n = Ok r.
Proof.
  intros Hv Hn Hmax. pose proof (toordinal_bounds dt Hv) as Hb.
  unfold add_days, MAXORDINAL in *.
  destruct (Z.gtb_spec (Z.abs n) 999999999); [lia|].
  destruct (Z.ltb_spec 0 (toordinal dt + n)); [|lia].
  destruct (Z.leb_spec (toordinal dt + n) 3652059); [|lia].
  cbn. destruct (ord2ymd _) as [[y m] d]. eauto.
Qed.

Lemma add_days_zero dt :
  valid_date (year dt) (month dt) (day dt) = true -> add_days dt 0 = Ok dt.
Proof.
  intros Hv. pose proof (toordinal_bounds dt Hv) as Hb.
  unfold add_days, MAXORDINAL in *. cbn [Z.abs]. cbn [Z.gtb Z.compare].
  rewrite Z.add_0_r.
  destruct (Z.ltb_spec 0 (toordinal dt)); [|lia].
  destruct (Z.leb_spec (toordinal dt) 3652059); [|lia].
  cbn [andb]. unfold toordinal. rewrite ord2ymd_ymd2ord by exact Hv.
  destruct dt; reflexivity.
Qed.

Lemma days_in_month_length y m : days_in_month y m = month_length (is_leap y) m.
Proof. reflexivity. Qed.

(** [dt + relativedelta(months=1)] for a date of the calendar. *)
Lemma add_one_month_spec dt :
  valid_datetime dt = true ->
  let y := if month dt =? 12 then year dt + 1 else year dt in
  let m := if month dt =? 12 then 1 else month dt + 1 in
  let d := Z.min (day dt) (days_in_month y m) in
  add_one_month dt =
  if y <=? MAXYEAR
  then Ok (mkdatetime y m d (hour dt) (minute dt) (second dt) (microsecond dt))
  else Raise ValueError.
Proof.
  intros Hv. unfold valid_datetime in Hv. apply andb_true_iff in Hv.
  destruct Hv as [Hd Ht]. pose proof Hd as Hd'.
  apply valid_date_iff in Hd'. destruct Hd' as (Hy & Hm & Hday).
  cbv zeta. unfold add_one_month.
  assert (E : (if month dt + 1 >? 12
               then (year dt + 1, month dt + 1 - 12)
               else (year dt, month dt + 1))
              = (if month dt =? 12 then year dt + 1 else year dt,
                 if month dt =? 12 then 1 else month dt + 1)).
  { destruct (Z.gtb_spec (month dt + 1) 12), (Z.eqb_spec (month dt) 12);
      try lia; f_equal; lia. }
  rewrite E. clear E.
  set (y := if month dt =? 12 then year dt + 1 else year dt).
  set (m := if month dt =? 12 then 1 else month dt + 1).
  assert (Hm' : 1 <= m <= 12) by (unfold m; destruct (Z.eqb_spec (month dt) 12); lia).
  assert (Hlen : 28 <= days_in_month y m).
  { rewrite days_in_month_length.
    assert (Em : m = 1 \/ m = 2 \/ m = 3 \/ m = 4 \/ m = 5 \/ m = 6 \/ m = 7
                \/ m = 8 \/ m = 9 \/ m = 10 \/ m = 11 \/ m = 12) by lia.
    clearbody m.
    repeat (destruct Em as [->|Em]; [destruct (is_leap y); cbn; lia|]).
    subst; destruct (is_leap y); cbn; lia. }
  rewrite (Z.min_comm (days_in_month y m)).
  set (d := Z.min (day dt) (days_in_month y m)).
  assert (Hd' : 1 <= d <= days_in_month y m) by (unfold d; lia).
  unfold replace_date, new_datetime. rewrite Ht, andb_true_r.
  destruct (Z.leb_spec y MAXYEAR) as [Hle|Hgt].
  - assert (Hvd : valid_date y m d = true).
    { apply valid_date_iff. rewrite <- days_in_month_length.
      unfold MAXYEAR in Hle. unfold y in *.
      destruct (Z.eqb_spec (month dt) 12); lia. }
    rewrite Hvd. cbn [pyres_bind].
    now rewrite add_days_zero by exact Hvd.
  - assert (Hvd : valid_date y m d = false).
    { unfold valid_date. destruct (Z.leb_spec y MAXYEAR); [lia|].
      now rewrite andb_false_r. }
    rewrite Hvd. reflexivity.
Qed.

End DateArithmetic.

(** ** The leftmost match *)

Section Leftmost.

Lemma length_app a b :
  String.length (a +:+ b) = (String.length a + String.length b)%nat.
Proof. induction a as [|c a IH]; cbn; [reflexivity | now rewrite IH]. Qed.

Lemma lstrip_decomp s : exists ws, s = ws +:+ lstrip s.
Proof.
  induction s as [|c s [ws IH]]; [now exists ""|].
  cbn. destruct (is_space c).
  - exists (String c ws). cbn. now rewrite <- IH.
  - now exists "".
Qed.

Lemma rstrip_decomp s : exists ws, s = rstrip s +:+ ws.
Proof.
  induction s as [|c s [ws IH]]; [now exists ""|].
  cbn. destruct (rstrip s) eqn:E.
  - destruct (is_space c).
    + exists (String c s). reflexivity.
    + exists ws. exact (f_equal (String c) IH).
  - exists ws. exact (f_equal (String c) IH).
Qed.

Lemma app_inv_head a b c : a +:+ b = a +:+ c -> b = c.
Proof. induction a as [|x a IH]; cbn; [auto|]. intros [= H]. auto. Qed.

Lemma span_digits_spec b ds rest :
  span_digits b = (ds, rest) -> b = ds +:+ rest /\ all_digits ds = true.
Proof.
  revert ds rest. induction b as [|c b IH]; intros ds rest H; cbn in H.
  - injection H as <- <-. split; reflexivity.
  - destruct (is_digit c) eqn:Ec.
    + destruct (span_digits b) as [ds' rest'] eqn:E.
      injection H as <- <-. destruct (IH _ _ eq_refl) as [-> Hd].
      split; [reflexivity|]. cbn. now rewrite Ec.
    + injection H as <- <-. split; reflexivity.
Qed.

(** A match at the head of the text is an occurrence of the pattern. *)
Lemma match_here_sound t ds :
  match_here t = Some ds ->
  exists post, t = "after " +:+ ds +:+ " day" +:+ post
               /\ all_digits ds = true /\ ds <> "".
Proof.
  unfold match_here. destruct (startswith "after " t) eqn:Es; [|discriminate].
  apply startswith_spec in Es. destruct Es as [b ->].
  change (drop 6 ("after " +:+ b)) with b.
  destruct (span_digits b) as [ds' rest] eqn:E.
  destruct (negb (is_empty ds') && startswith " day" rest) eqn:Ec; [|discriminate].
  intros [= ->]. apply andb_true_iff in Ec. destruct Ec as [Hne Hr].
  apply startswith_spec in Hr. destruct Hr as [post ->].
  destruct (span_digits_spec _ _ _ E) as [-> Hd].
  exists post. repeat split; [exact Hd|]. intros ->. discriminate.
Qed.

(** [re.search] finds the occurrence that begins first. *)
Lemma search_after_days_leftmost t pre ds post :
  t = pre +:+ "after " +:+ ds +:+ " day" +:+ post ->
  all_digits ds = true -> ds <> "" ->
  (forall pre' ds' post',
      t = pre' +:+ "after " +:+ ds' +:+ " day" +:+ post' ->
      all_digits ds' = true -> ds' <> "" ->
      (String.length pre <= String.length pre')%nat) ->
  search_after_days t = Some ds.
Proof.
  revert t. induction pre as [|c pre IH]; intros t Ht Hd Hne Hmin.
  - subst t. apply (search_after_days_found "" ds post); auto.
  - subst t.
    change (String c pre +:+ "after " +:+ ds +:+ " day" +:+ post)
      with (String c (pre +:+ "after " +:+ ds +:+ " day" +:+ post)) in *.
    cbn [search_after_days].
    destruct (match_here (String c (pre +:+ "after " +:+ ds +:+ " day" +:+ post)))
      as [ds0|] eqn:E0.
    + apply match_here_sound in E0. destruct E0 as (post0 & E0 & Hd0 & Hne0).
      specialize (Hmin "" ds0 post0 E0 Hd0 Hne0). cbn in Hmin. lia.
    + apply (IH _ eq_refl Hd Hne).
      intros pre' ds' post' E' Hd' Hne'.
      pose proof (Hmin (String c pre') ds' post'
                    (f_equal (String c) E') Hd' Hne') as K.
      cbn [String.length] in K. lia.
Qed.

Lemma strip_occurrence pre ds post :
  strip (pre +:+ "after " +:+ ds +:+ " day" +:+ post)
  = lstrip pre +:+ "after " +:+ ds +:+ " day" +:+ rstrip post.
Proof.
  pose proof (strip_around pre ("after " +:+ ds +:+ " day") post) as K.
  rewrite !app_assoc in K. cbn [String.append] in *. apply K; [reflexivity|].
  change (String "a" (String "f" (String "t" (String "e" (String "r"
           (String " " (ds +:+ " day")))))))
    with ("after " +:+ ds +:+ " day").
  now repeat apply last_char_ok_app.
Qed.

(** The same after trimming: the white space cut at both ends holds no
    occurrence. *)
Lemma search_after_days_strip t pre ds post :
  t = pre +:+ "after " +:+ ds +:+ " day" +:+ post ->
  all_digits ds = true -> ds <> "" ->
  (forall pre' ds' post',
      t = pre' +:+ "after " +:+ ds' +:+ " day" +:+ post' ->
      all_digits ds' = true -> ds' <> "" ->
      (String.length pre <= String.length pre')%nat) ->
  search_after_days (strip t) = Some ds.
Proof.
  intros Ht Hd Hne Hmin.
  assert (Hs : strip t = lstrip pre +:+ "after " +:+ ds +:+ " day" +:+ rstrip post)
    by (subst t; apply strip_occurrence).
  destruct (lstrip_decomp pre) as [ws Hws].
  destruct (rstrip_decomp post) as [ws' Hws'].
  apply (search_after_days_leftmost _ (lstrip pre) ds (rstrip post) Hs Hd Hne).
  intros pre' ds' post' E' Hd' Hne'.
  specialize (Hmin (ws +:+ pre') ds' (post' +:+ ws')).
  assert (Et : t = (ws +:+ pre') +:+ "after " +:+ ds' +:+ " day" +:+ post' +:+ ws').
  { rewrite Ht. rewrite Hws at 1. rewrite Hws' at 1.
    rewrite !app_assoc. f_equal.
    transitivity ((lstrip pre +:+ "after " +:+ ds +:+ " day" +:+ rstrip post) +:+ ws').
    { now rewrite !app_assoc. }
    rewrite <- Hs, E'.
    repeat first [rewrite app_assoc | progress cbn [String.append]].
    reflexivity. }
  specialize (Hmin Et Hd' Hne').
  rewrite Hws in Hmin at 1. rewrite !length_app in Hmin. lia.
Qed.

End Leftmost.

(** ** Adding days, day by day *)

Section DayByDay.

Lemma days_before_year_succ y :
  days_before_year (y + 1)
  = days_before_year y + 365 + (if is_leap y then 1 else 0).
Proof.
  unfold days_before_year, is_leap.
  replace (y + 1 - 1) with y by lia.
  destruct (Z.eqb_spec (y mod 4) 0), (Z.eqb_spec (y mod 100) 0),
    (Z.eqb_spec (y mod 400) 0); cbn [andb orb negb]; lia.
Qed.

Lemma ymd2ord_next_day y m d :
  calendar_date (y, m, d) ->
  calendar_date (next_day y m d)
  /\ (let '(y', m', d') := next_day y m d in ymd2ord y' m' d')
     = ymd2ord y m d + 1.
Proof.
  intros (Hy & Hm & Hd). unfold next_day.
  destruct (Z.ltb_spec d (days_in_month y m)) as [Hlt|Hge].
  - split; [cbn; lia | unfold ymd2ord; lia].
  - assert (Ed : d = days_in_month y m) by lia.
    destruct (Z.ltb_spec m 12) as [Hm12|Hm12].
    + assert (E : In m (zrange 1 11)) by (apply in_zrange; lia).
      cbv in E. clear Hm Hm12.
      unfold calendar_date, ymd2ord, days_before_month, days_in_month in *.
      set (L := is_leap y) in *. clearbody L.
      repeat (destruct E as [<-|E];
              [repeat match goal with
                 | |- context [Z.pos ?p + 1] =>
                     let v := eval compute in (Z.pos p + 1) in
                     change (Z.pos p + 1) with v
                 end;
               destruct L; cbn in *; lia|]).
      destruct E.
    + assert (m = 12) as -> by lia.
      unfold calendar_date, ymd2ord, days_before_month, days_in_month in *.
      rewrite days_before_year_succ.
      set (L := is_leap y) in *. clearbody L.
      destruct L, (is_leap (y + 1)); cbn in *; lia.
Qed.

Lemma iter_next_date n t :
  calendar_date t ->
  calendar_date (Nat.iter n next_date t)
  /\ (let '(y, m, d) := Nat.iter n next_date t in ymd2ord y m d)
     = (let '(y, m, d) := t in ymd2ord y m d) + Z.of_nat n.
Proof.
  intros Ht. induction n as [|n [IH1 IH2]].
  - cbn. split; [exact Ht|]. destruct t as [[y m] d]. lia.
  - change (Nat.iter (S n) next_date t)
      with (next_date (Nat.iter n next_date t)).
    destruct (Nat.iter n next_date t) as [[y m] d].
    destruct (ymd2ord_next_day y m d IH1) as [K1 K2].
    cbn [next_date]. split; [exact K1|].
    destruct (next_day y m d) as [[y' m'] d']. lia.
Qed.

(** [dt + timedelta(days=n)] is the date [n] days after [dt] in the
    calendar, as long as this date is of a year up to 9999. *)
Lemma add_days_plus_days dt n :
  valid_date (year dt) (month dt) (day dt) = true ->
  year (plus_days dt n) <= MAXYEAR ->
  add_days dt (Z.of_nat n) = Ok (plus_days dt n).
Proof.
  intros Hv Hy. pose proof Hv as Hv'. apply valid_date_iff in Hv'.
  assert (Ht : calendar_date (year dt, month dt, day dt))
    by (cbn; rewrite days_in_month_length; lia).
  destruct (iter_next_date n _ Ht) as [K1 K2].
  unfold plus_days in *.
  destruct (Nat.iter n next_date (year dt, month dt, day dt)) as [[y m] d].
  cbn [year] in Hy. cbn in K1. destruct K1 as (K1 & K1' & K1'').
  assert (Hv2 : valid_date y m d = true).
  { apply valid_date_iff. rewrite <- days_in_month_length.
    unfold MAXYEAR in Hy. lia. }
  pose proof (ymd2ord_bounds y m d Hv2) as Hb.
  pose proof (toordinal_bounds dt Hv) as Hb0.
  unfold add_days. unfold toordinal in *. unfold MAXORDINAL in *.
  destruct (Z.gtb_spec (Z.abs (Z.of_nat n)) 999999999); [lia|].
  rewrite <- K2.
  destruct (Z.ltb_spec 0 (ymd2ord y m d)); [|lia].
  destruct (Z.leb_spec (ymd2ord y m d) 3652059); [|lia].
  cbn [andb]. rewrite ord2ymd_ymd2ord by exact Hv2. reflexivity.
Qed.

End DayByDay.

(** ** Numbers in decimal *)

Section Decimal.

Lemma all_digits_string_of_uint d :
  all_digits (NilEmpty.string_of_uint d) = true.
Proof. induction d; cbn; auto. Qed.

Lemma int_of_digits_revapp d l :
  Z.of_N (DecimalPos.Unsigned.of_lu (Decimal.revapp d l))
  = int_of_digits_from (Z.of_N (DecimalPos.Unsigned.of_lu l))
      (NilEmpty.string_of_uint d).
Proof.
  revert l. induction d; intros l; cbn [Decimal.revapp NilEmpty.string_of_uint
                                         int_of_digits_from];
    [reflexivity | rewrite IHd; f_equal; cbn [DecimalPos.Unsigned.of_lu];
                   unfold digit_val, code; cbn; lia ..].
Qed.

(** The decimal writing of a natural number is a text of digits, and
    [int] reads the number back. *)
Lemma decimal_text n :
  0 <= n ->
  all_digits (py_str (VInt n)) = true
  /\ py_str (VInt n) <> ""
  /\ int_of_digits (py_str (VInt n)) = n.
Proof.
  intros Hn. destruct n as [|p|p]; [repeat split; discriminate | | lia].
  cbn [py_str Z.to_int NilEmpty.string_of_int].
  assert (V : int_of_digits (NilEmpty.string_of_uint (Pos.to_uint p)) = Z.pos p).
  { unfold int_of_digits.
    change 0 with (Z.of_N (DecimalPos.Unsigned.of_lu Decimal.Nil)).
    rewrite <- int_of_digits_revapp.
    change (Decimal.revapp (Pos.to_uint p) Decimal.Nil)
      with (Decimal.rev (Pos.to_uint p)).
    rewrite <- DecimalPos.Unsigned.of_uint_alt, DecimalPos.Unsigned.of_to.
    reflexivity. }
  split; [apply all_digits_string_of_uint|]. split; [|exact V].
  intros E. rewrite E in V. discriminate V.
Qed.

End Decimal.

Section DecimalLength.

Lemma length_string_of_uint d :
  String.length (NilEmpty.string_of_uint d) = Decimal.nb_digits d.
Proof. induction d; cbn; auto. Qed.

Lemma int_of_digits_from_lower d acc :
  0 <= acc ->
  acc * 10 ^ Z.of_nat (Decimal.nb_digits d)
  <= int_of_digits_from acc (NilEmpty.string_of_uint d).
Proof.
  revert acc. induction d; intros acc Ha;
    cbn [Decimal.nb_digits NilEmpty.string_of_uint int_of_digits_from];
    [rewrite Z.pow_0_r; lia | ..];
    (rewrite Nat2Z.inj_succ, Z.pow_succ_r by lia;
     match goal with
     | |- _ <= int_of_digits_from ?a _ =>
         assert (Hk : 10 * acc <= a) by (unfold digit_val, code; cbn; lia);
         specialize (IHd a ltac:(lia));
         pose proof (Z.pow_nonneg 10 (Z.of_nat (Decimal.nb_digits d)) ltac:(lia));
         nia
     end).
Qed.

(** The decimal writing of a number of days that stays within the calendar
    has at most seven digits. *)
Lemma decimal_text_length n :
  0 <= n <= MAXORDINAL -> (String.length (py_str (VInt n)) <= 7)%nat.
Proof.
  unfold MAXORDINAL. intros Hn. destruct n as [|p|p]; [cbn; lia | | lia].
  destruct (decimal_text (Z.pos p) ltac:(lia)) as (_ & _ & V).
  cbn [py_str Z.to_int NilEmpty.string_of_int] in *.
  rewrite length_string_of_uint.
  set (d := Pos.to_uint p) in *.
  assert (Hn0 : Decimal.unorm d = d).
  { unfold d. rewrite <- (DecimalPos.Unsigned.to_of (Pos.to_uint p)).
    now rewrite DecimalPos.Unsigned.of_to. }
  assert (Hz : d <> Decimal.zero) by apply DecimalPos.Unsigned.to_uint_nonzero.
  assert (Hh : Decimal.nzhead d = d).
  { rewrite <- Hn0 at 2. symmetry. apply DecimalFacts.unorm_nzhead.
    intros E. apply DecimalFacts.unorm_0 in E. congruence. }
  assert (Hnil : d <> Decimal.Nil) by apply DecimalPos.Unsigned.to_uint_nonnil.
  destruct (Nat.le_gt_cases (Decimal.nb_digits d) 7) as [|Hbig]; [assumption|].
  exfalso. unfold int_of_digits in V. clearbody d.
  assert (P : 10 ^ 7 <= 10 ^ Z.of_nat (Decimal.nb_digits d - 1))
    by (apply Z.pow_le_mono_r; lia).
  destruct d as [|d|d|d|d|d|d|d|d|d|d]; [congruence | | ..];
    [exfalso; exact (DecimalFacts.nzhead_nonzero _ _ Hh) | ..];
    cbn [Decimal.nb_digits NilEmpty.string_of_uint int_of_digits_from] in *;
    replace (S (Decimal.nb_digits d) - 1)%nat with (Decimal.nb_digits d) in P by lia;
    match type of V with
    | int_of_digits_from ?a _ = _ =>
        pose proof (int_of_digits_from_lower d a ltac:(unfold digit_val, code; cbn; lia)) as L;
        assert (Ha : 1 <= a) by (unfold digit_val, code; cbn; lia)
    end;
    change (10 ^ 7) with 10000000 in P; nia.
Qed.

End DecimalLength.

(** ** The cascade of parse_date_string *)

Section Cascade.

Variable cal_parse : string -> struct_time -> pyres (struct_time * Z).
Variable dateutil_parse : string -> datetime -> pyres struct_time.

Abbreviation resolve := (parse_date_string cal_parse dateutil_parse).
Abbreviation fallback := (parser_fallback cal_parse dateutil_parse).

Lemma new_datetime_valid y m d h mi s us r :
  new_datetime y m d h mi s us = Ok r ->
  valid_date (year r) (month r) (day r) = true.
Proof.
  unfold new_datetime. destruct (valid_date y m d) eqn:E; [|discriminate].
  destruct (valid_time h mi s us); [|discriminate].
  intros [= <-]. exact E.
Qed.

Lemma fallback_output text today d :
  fallback text today = Ok (Some d) ->
  exists D, valid_date (year D) (month D) (day D) = true /\ d = strftime D.
Proof.
  unfold parser_fallback.
  destruct (cal_parse text (timetuple today)) as [[ts st]|e]; [|discriminate].
  cbn [pyres_bind]. destruct (negb (st =? 0)).
  - destruct (datetime_of_struct ts) as [D|e] eqn:E; [|discriminate].
    intros [= <-]. exists D. split; [|reflexivity].
    eapply new_datetime_valid; exact E.
  - destruct (dateutil_parse text today) as [t|e]; [|discriminate].
    cbn [pyres_bind]. destruct (datetime_of_struct t) as [D|e] eqn:E; [|discriminate].
    intros [= <-]. exists D. split; [|reflexivity].
    eapply new_datetime_valid; exact E.
Qed.

(** When neither library recognises the text the result is [None]; an
    exception of [dateutil] is caught. *)
Lemma fallback_silent text today source e :
  cal_parse text (timetuple today) = Ok (source, 0) ->
  dateutil_parse text today = Raise e ->
  fallback text today = Ok None.
Proof. intros H1 H2. unfold parser_fallback. now rewrite H1, H2. Qed.

(** The cascade on a text that is not empty. *)
Lemma resolve_text text base now :
  text <> "" ->
  resolve (VStr text) base now =
  let low := strip (lower text) in
  let today := default now base in
  if contains "day after tomorrow" low then
    let! d := add_days today 2 in Ok (Some (strftime d))
  else if contains "tomorrow" low then
    let! d := add_days today 1 in Ok (Some (strftime d))
  else if String.eqb low "next month" then
    let! d := add_one_month today in Ok (Some (strftime d))
  else
    match search_after_days low with
    | Some group1 =>
        let! days := int_of_digit_text group1 in
        let! d := add_days today days in Ok (Some (strftime d))
    | None => fallback text today
    end.
Proof. intros H. destruct text; [congruence | reflexivity]. Qed.

(** Every date the resolver returns is a day of the calendar, written by
    [strftime]. *)
Lemma resolve_output v base now d :
  resolve v base now = Ok (Some d) ->
  exists D, valid_date (year D) (month D) (day D) = true /\ d = strftime D.
Proof.
  assert (A : forall today n,
             (let! r := add_days today n in Ok (Some (strftime r))) = Ok (Some d) ->
             exists D, valid_date (year D) (month D) (day D) = true
                       /\ d = strftime D).
  { intros today n. destruct (add_days today n) as [r|e] eqn:E; [|discriminate].
    intros [= <-]. exists r. split; [|reflexivity].
    now destruct (add_days_ok _ _ _ E). }
  destruct v as [| b | z | text].
  - discriminate.
  - destruct b; discriminate.
  - unfold parse_date_string. cbn [truthy]. destruct (z =? 0); discriminate.
  - destruct text as [|c text]; [discriminate|].
    rewrite resolve_text by discriminate. cbv zeta.
    destruct (contains "day after tomorrow" _); [apply A|].
    destruct (contains "tomorrow" _); [apply A|].
    destruct (String.eqb _ "next month").
    + unfold add_one_month.
      destruct (if month (default now base) + 1 >? 12 then _ else _) as [y m].
      destruct (replace_date _ _ _ _) as [r|e]; [|discriminate].
      cbn [pyres_bind]. apply A.
    + destruct (search_after_days _) as [g|]; [|apply fallback_output].
      destruct (int_of_digit_text g); [apply A | discriminate].
Qed.

Lemma phrase_not_in_empty p text :
  p <> "" -> contains p (lower text) = true -> text <> "".
Proof.
  intros Hp H ->. cbn in H. destruct p; [congruence | discriminate].
Qed.

(** C2, as amended: a text whose lower-case form holds "day after tomorrow"
    resolves to the second day after the anchor, and one that holds
    "tomorrow" without it to the day after the anchor, whenever that day is
    of a year up to 9999, the last of [datetime]; the case of the letters,
    the text around the phrase, the relative-offset pattern and the two
    library parsers play no part. *)
Theorem exact_phrases_resolve text base now :
  let today := default now base in
  valid_date (year today) (month today) (day today) = true ->
  (contains "day after tomorrow" (lower text) = true ->
   year (plus_days today 2) <= MAXYEAR ->
   resolve (VStr text) base now = Ok (Some (strftime (plus_days today 2))))
  /\ (contains "tomorrow" (lower text) = true ->
      contains "day after tomorrow" (lower text) = false ->
      year (plus_days today 1) <= MAXYEAR ->
      resolve (VStr text) base now = Ok (Some (strftime (plus_days today 1)))).
Proof.
  cbv zeta. intros Hv. split.
  - intros Hc Hy.
    rewrite resolve_text by (eapply phrase_not_in_empty; [|exact Hc]; discriminate).
    cbv zeta. rewrite contains_strip by reflexivity. rewrite Hc.
    pose proof (add_days_plus_days _ 2 Hv Hy) as K.
    change (Z.of_nat 2) with 2 in K. rewrite K. reflexivity.
  - intros Hc Hn Hy.
    rewrite resolve_text by (eapply phrase_not_in_empty; [|exact Hc]; discriminate).
    cbv zeta. rewrite !contains_strip by reflexivity. rewrite Hn, Hc.
    pose proof (add_days_plus_days _ 1 Hv Hy) as K.
    change (Z.of_nat 1) with 1 in K. rewrite K. reflexivity.
Qed.

Lemma strip_tight s :
  first_char_ok s = true -> last_char_ok s = true -> strip s = s.
Proof.
  intros Hf Hl. unfold strip.
  assert (E : lstrip s = s).
  { destruct s as [|c s]; [reflexivity|]. cbn in *. now destruct (is_space c). }
  rewrite E. clear E Hf. induction s as [|c s IH]; [reflexivity|].
  cbn [rstrip]. destruct s as [|c' s'].
  - cbn in *. now destruct (is_space c).
  - rewrite IH by exact Hl. reflexivity.
Qed.

Lemma not_next_month low pre rest :
  low = pre +:+ "after " +:+ rest -> String.eqb low "next month" = false.
Proof.
  intros E. destruct (String.eqb_spec low "next month") as [E'|]; [|reflexivity].
  assert (C : contains "after " low = true)
    by (apply contains_spec; now exists pre, rest).
  rewrite E' in C. discriminate C.
Qed.

(** A match of the pattern is an occurrence of it. *)
Lemma search_after_days_occurs t ds :
  search_after_days t = Some ds ->
  exists pre post,
    t = pre +:+ "after " +:+ ds +:+ " day" +:+ post
    /\ all_digits ds = true /\ ds <> "".
Proof.
  induction t as [|c t IH]; cbn [search_after_days].
  - destruct (match_here "") eqn:E; [|discriminate].
    intros [= <-]. apply match_here_sound in E.
    destruct E as (post & E & H). now exists "", post.
  - destruct (match_here (String c t)) eqn:E.
    + intros [= <-]. apply match_here_sound in E.
      destruct E as (post & E & H). now exists "", post.
    + intros H. destruct (IH H) as (pre & post & -> & K).
      now exists (String c pre), post.
Qed.

(** Where the pattern does not occur in a text, it does not occur in the
    text stripped, and the search finds nothing. *)
Lemma search_after_days_absent t :
  (forall pre ds post,
      t = pre +:+ "after " +:+ ds +:+ " day" +:+ post ->
      all_digits ds = true -> ds = "") ->
  search_after_days (strip t) = None.
Proof.
  intros H. destruct (search_after_days (strip t)) as [ds|] eqn:E; [|reflexivity].
  exfalso. apply search_after_days_occurs in E.
  destruct E as (pre & post & E & Hd & Hne).
  destruct (lstrip_decomp t) as [w1 E1].
  destruct (rstrip_decomp (lstrip t)) as [w2 E2].
  apply Hne, (H (w1 +:+ pre) ds (post +:+ w2)); [|exact Hd].
  rewrite E1, E2 at 1. unfold strip in E. rewrite E.
  now rewrite !app_assoc.
Qed.

(** C3, as amended: the text holds "after N days" (or "after N day"), in any
    case of the letters and with any text around it, that occurrence is the
    first match of the pattern, no earlier phrase is in the text, and the
    N-th day after the anchor is of a year up to 9999: the result is that
    day, the anchor itself for N = 0.  Every natural number N has such a
    writing, its decimal one.  A text in which the pattern occurs nowhere
    ("after ", digits, " day") and which holds no "tomorrow" and is not
    "next month" is handed to the library parsers; so is the text
    [after X days] whose token X has no space in it, holds no "tomorrow" and
    is not a number written in digits (a sign, letters, nothing). *)
Theorem after_n_days_resolves text base now :
  let today := default now base in
  (forall (N : nat) pre ds post,
      lower text = pre +:+ "after " +:+ ds +:+ " day" +:+ post ->
      all_digits ds = true -> ds <> "" -> int_of_digits ds = Z.of_nat N ->
      (String.length ds <= MAX_STR_DIGITS)%nat ->
      (forall pre' ds' post',
          lower text = pre' +:+ "after " +:+ ds' +:+ " day" +:+ post' ->
          all_digits ds' = true -> ds' <> "" ->
          (String.length pre <= String.length pre')%nat) ->
      contains "tomorrow" (lower text) = false ->
      valid_date (year today) (month today) (day today) = true ->
      year (plus_days today N) <= MAXYEAR ->
      resolve (VStr text) base now = Ok (Some (strftime (plus_days today N))))
  /\ (forall N : nat,
         all_digits (py_str (VInt (Z.of_nat N))) = true
         /\ py_str (VInt (Z.of_nat N)) <> ""
         /\ int_of_digits (py_str (VInt (Z.of_nat N))) = Z.of_nat N
         /\ (Z.of_nat N <= MAXORDINAL ->
             (String.length (py_str (VInt (Z.of_nat N))) <= 7)%nat))
  /\ (valid_date (year today) (month today) (day today) = true ->
      lower text = "after 0 days" ->
      resolve (VStr text) base now = Ok (Some (strftime today)))
  /\ (text <> "" ->
      contains "tomorrow" (lower text) = false ->
      strip (lower text) <> "next month" ->
      (forall pre ds post,
          lower text = pre +:+ "after " +:+ ds +:+ " day" +:+ post ->
          all_digits ds = true -> ds = "") ->
      resolve (VStr text) base now = fallback text today)
  /\ (forall x,
         text = "after " +:+ x +:+ " days" ->
         has_blank x = false -> (x = "" \/ all_digits x = false) ->
         contains "tomorrow" (lower x) = false ->
         resolve (VStr text) base now = fallback text today).
Proof.
  cbv zeta.
  assert (P1 : forall pre ds post D,
      lower text = pre +:+ "after " +:+ ds +:+ " day" +:+ post ->
      all_digits ds = true -> ds <> "" ->
      (String.length ds <= MAX_STR_DIGITS)%nat ->
      (forall pre' ds' post',
          lower text = pre' +:+ "after " +:+ ds' +:+ " day" +:+ post' ->
          all_digits ds' = true -> ds' <> "" ->
          (String.length pre <= String.length pre')%nat) ->
      contains "tomorrow" (lower text) = false ->
      add_days (default now base) (int_of_digits ds) = Ok D ->
      resolve (VStr text) base now = Ok (Some (strftime D))).
  { intros pre ds post D Hdec Hd Hne Hlen Hmin Hno Ha.
    assert (Hcont : contains "after " (lower text) = true)
      by (apply contains_spec; now exists pre, (ds +:+ " day" +:+ post)).
    rewrite resolve_text by (eapply phrase_not_in_empty; [|exact Hcont]; discriminate).
    cbv zeta.
    assert (Hno2 : contains "day after tomorrow" (strip (lower text)) = false).
    { destruct (contains "day after tomorrow" (strip (lower text))) eqn:E;
        [|reflexivity].
      apply contains_spec in E. destruct E as (a & b & E).
      assert (C : contains "tomorrow" (strip (lower text)) = true).
      { apply contains_spec. exists (a +:+ "day after "), b. rewrite E.
        now rewrite !app_assoc. }
      rewrite contains_strip in C by reflexivity. congruence. }
    rewrite Hno2, contains_strip, Hno by reflexivity.
    assert (Hs : strip (lower text)
                 = lstrip pre +:+ "after " +:+ ds +:+ " day" +:+ rstrip post)
      by (rewrite Hdec; apply strip_occurrence).
    rewrite (not_next_month _ _ _ Hs).
    rewrite (search_after_days_strip _ _ _ _ Hdec Hd Hne Hmin).
    unfold int_of_digit_text.
    destruct (Nat.ltb_spec MAX_STR_DIGITS (String.length ds)); [lia|].
    cbn [pyres_bind]. rewrite Ha. reflexivity. }
  split; [|split; [|split; [|split]]].
  - intros N pre ds post Hdec Hd Hne HN Hlen Hmin Hno Hv Hy.
    apply (P1 pre ds post); try assumption.
    rewrite HN. now apply add_days_plus_days.
  - intros N. destruct (decimal_text (Z.of_nat N) ltac:(lia)) as (K1 & K2 & K3).
    repeat split; try assumption.
    intros HN. apply decimal_text_length. lia.
  - intros Hv Hz.
    apply (P1 "" "0" "s" (default now base)); try (exact Hz || reflexivity || discriminate).
    + unfold MAX_STR_DIGITS. cbn. lia.
    + intros pre' ds' post' _ _ _. cbn. lia.
    + rewrite Hz. reflexivity.
    + apply add_days_zero. exact Hv.
  - intros Hne Hno Hnm Habs.
    rewrite resolve_text by exact Hne. cbv zeta.
    rewrite (contains_strip "tomorrow") by reflexivity. rewrite Hno.
    destruct (contains "day after tomorrow" (strip (lower text))) eqn:E.
    { apply contains_spec in E. destruct E as (a & b & E).
      assert (C : contains "tomorrow" (strip (lower text)) = true).
      { apply contains_spec. exists (a +:+ "day after "), b. rewrite E.
        now rewrite !app_assoc. }
      rewrite contains_strip in C by reflexivity. congruence. }
    destruct (String.eqb_spec (strip (lower text)) "next month");
      [contradiction|].
    now rewrite (search_after_days_absent _ Habs).
  - intros x -> Hb Hx Hno.
    rewrite resolve_text by discriminate. cbv zeta.
    assert (El : lower ("after " +:+ x +:+ " days")
                 = "after " +:+ lower x +:+ " days")
      by (now rewrite !lower_app).
    rewrite El.
    rewrite strip_tight;
      [| reflexivity | now repeat apply last_char_ok_app].
    assert (Hno1 : contains "tomorrow" ("after " +:+ lower x +:+ " days") = false).
    { change ("after " +:+ lower x +:+ " days")
        with ("after" +:+ String " " (lower x +:+ String " " "days")).
      rewrite !contains_blank by reflexivity. rewrite Hno. reflexivity. }
    assert (Hno2 : contains "day after tomorrow"
                     ("after " +:+ lower x +:+ " days") = false).
    { destruct (contains "day after tomorrow" _) eqn:E; [|reflexivity].
      apply contains_spec in E. destruct E as (a & b & E).
      assert (C : contains "tomorrow" ("after " +:+ lower x +:+ " days") = true).
      { apply contains_spec. exists (a +:+ "day after "), b. rewrite E.
        now rewrite !app_assoc. }
      congruence. }
    rewrite Hno2, Hno1.
    rewrite (not_next_month ("after " +:+ lower x +:+ " days") ""
               (lower x +:+ " days") eq_refl).
    rewrite search_after_days_malformed; [reflexivity | |].
    + now rewrite has_blank_lower.
    + destruct Hx as [->|Hx]; [now left | right; now rewrite all_digits_lower].
Qed.

(** C4, as amended: "next month", once trimmed and put in lower case, moves
    a valid anchor on by one month of the calendar and keeps the day of the
    month, cut to the length of the new month; this for every anchor but those
    of December 9999, whose next month is not a date of [datetime]. *)
Theorem next_month_clamps :
  (forall text base now,
      let today := default now base in
      valid_datetime today = true ->
      lower (strip text) = "next month" ->
      (year today < MAXYEAR \/ month today < 12) ->
      let y := if month today =? 12 then year today + 1 else year today in
      let m := if month today =? 12 then 1 else month today + 1 in
      let d := Z.min (day today) (days_in_month y m) in
      resolve (VStr text) base now
      = Ok (Some (strftime (mkdatetime y m d (hour today) (minute today)
                              (second today) (microsecond today)))))
  /\ (forall now, resolve (VStr "next month") (Some (midnight 2024 1 31)) now
                  = Ok (Some "2024-02-29"))
  /\ (forall now, resolve (VStr "next month") (Some (midnight 2023 1 31)) now
                  = Ok (Some "2023-02-28")).
Proof.
  split; [|split; intros now; reflexivity].
  intros text base now today Hv Hn Hr. cbv zeta.
  assert (Hne : text <> "") by (intros ->; discriminate Hn).
  rewrite resolve_text by exact Hne. cbv zeta.
  rewrite strip_lower, Hn.
  change (contains "day after tomorrow" "next month") with false.
  change (contains "tomorrow" "next month") with false.
  change (String.eqb "next month" "next month") with true. cbv iota.
  fold today. rewrite (add_one_month_spec today Hv). cbv zeta.
  destruct (Z.leb_spec (if month today =? 12 then year today + 1 else year today)
              MAXYEAR) as [Hle|Hgt]; [reflexivity|].
  exfalso. unfold valid_datetime in Hv. apply andb_true_iff in Hv.
  destruct Hv as [Hd _]. apply valid_date_iff in Hd.
  unfold MAXYEAR in *. destruct (Z.eqb_spec (month today) 12); lia.
Qed.

(** C5 does not hold on the code: on "after 10000000 days" the pattern
    matches, the day asked for is past the last date of [datetime], and the
    OverflowError of the addition (line 94) leaves [parse_date_string]
    uncaught, with an explicit anchor as with the current date. *)
Theorem overflow_escapes_the_resolver now :
  resolve (VStr "after 10000000 days") (Some (midnight 2025 6 1)) now
  = Raise OverflowError
  /\ resolve (VStr "after 10000000 days") None (afternoon 2025 6 1)
     = Raise OverflowError.
Proof. split; reflexivity. Qed.

End Cascade.

(** ** is_missing *)

Section Sentinels.

(** C7, as amended: a value counts as missing exactly when it is [None] or
    its text, trimmed and in lower case, is one of the five sentinels of the
    code: the four of the claim and "none".  "Departure City (Not Provided)"
    in any case of the letters is missing like an absent origin. *)
Theorem is_missing_sentinels :
  (forall v,
      is_missing v = true <->
      v = VNone
      \/ In (lower (strip (py_str v)))
           [""; "none"; "not provided"; "departure city (not provided)";
            "arrival city (not provided)"])
  /\ (forall s, lower (strip s) = strip (lower s))
  /\ (forall s,
         lower s = "departure city (not provided)" ->
         is_missing (VStr s) = true /\ is_missing (VStr s) = is_missing VNone).
Proof.
  split; [|split].
  - intros v. destruct v as [|b|z|s].
    + split; [now left | reflexivity].
    + unfold is_missing. rewrite existsb_exists. split.
      * intros (x & Hx & E). apply String.eqb_eq in E. right. now rewrite E.
      * intros [H|H]; [discriminate|]. eexists. split; [exact H|].
        apply String.eqb_refl.
    + unfold is_missing. rewrite existsb_exists. split.
      * intros (x & Hx & E). apply String.eqb_eq in E. right. now rewrite E.
      * intros [H|H]; [discriminate|]. eexists. split; [exact H|].
        apply String.eqb_refl.
    + unfold is_missing. rewrite existsb_exists. split.
      * intros (x & Hx & E). apply String.eqb_eq in E. right. now rewrite E.
      * intros [H|H]; [discriminate|]. eexists. split; [exact H|].
        apply String.eqb_refl.
  - intros s. symmetry. apply strip_lower.
  - intros s Hs.
    assert (E : is_missing (VStr s) = true).
    { unfold is_missing. cbn [py_str]. rewrite <- strip_lower, Hs. reflexivity. }
    split; [exact E | now rewrite E].
Qed.

End Sentinels.

(** ** parse_query *)

Section Completeness.

Variable cal_parse : string -> struct_time -> pyres (struct_time * Z).
Variable dateutil_parse : string -> datetime -> pyres struct_time.

Abbreviation resolve := (parse_date_string cal_parse dateutil_parse).
Abbreviation dep_of := (resolve_depdate cal_parse dateutil_parse).
Abbreviation ret_of := (resolve_retdate cal_parse dateutil_parse).
Abbreviation query := (parse_query cal_parse dateutil_parse).

Lemma parse_query_eq now parsed :
  query now parsed =
  match (let! depdate := dep_of now (get parsed "depdate") in
         let! retdate := ret_of now (get parsed "retdate") depdate in
         query_tail parsed depdate retdate) with
  | Ok r => r
  | Raise e => Error500 e
  end.
Proof. reflexivity. Qed.

Lemma get_insert_ne parsed k k' v :
  k <> k' -> get (<[k := v]> parsed) k' = get parsed k'.
Proof. intros H. unfold get. now rewrite lookup_insert_ne. Qed.

Lemma get_insert_eq parsed k v : get (<[k := v]> parsed) k = v.
Proof. unfold get. now rewrite lookup_insert_eq. Qed.

Lemma get_delete_eq parsed k : get (delete k parsed) k = VNone.
Proof. unfold get. now rewrite lookup_delete_eq. Qed.

Lemma get_delete_ne parsed k k' :
  k <> k' -> get (delete k parsed) k' = get parsed k'.
Proof. intros H. unfold get. now rewrite lookup_delete_ne. Qed.

Lemma get_default_insert_ne parsed k k' v dflt :
  k <> k' -> get_default (<[k := v]> parsed) k' dflt = get_default parsed k' dflt.
Proof. intros H. unfold get_default. now rewrite lookup_insert_ne. Qed.

Lemma get_default_delete_ne parsed k k' dflt :
  k <> k' -> get_default (delete k parsed) k' dflt = get_default parsed k' dflt.
Proof. intros H. unfold get_default. now rewrite lookup_delete_ne. Qed.

(** What follows the resolution of the dates does not read the key
    [retdate]. *)
Lemma query_tail_insert_retdate parsed v depdate retdate :
  query_tail (<["retdate" := v]> parsed) depdate retdate
  = query_tail parsed depdate retdate.
Proof.
  unfold query_tail.
  rewrite !get_insert_ne, !get_default_insert_ne by discriminate. reflexivity.
Qed.

Lemma query_tail_delete_retdate parsed depdate retdate :
  query_tail (delete "retdate" parsed) depdate retdate
  = query_tail parsed depdate retdate.
Proof.
  unfold query_tail.
  rewrite !get_delete_ne, !get_default_delete_ne by discriminate. reflexivity.
Qed.

Lemma check_missing_lockstep depfrom arrto depdate_raw depdate :
  sublist (check_missing depfrom arrto depdate_raw depdate).1
          ["from"; "to"; "depdate"]
  /\ (check_missing depfrom arrto depdate_raw depdate).2
     = map prompt_for (check_missing depfrom arrto depdate_raw depdate).1
  /\ ~ In "retdate" (check_missing depfrom arrto depdate_raw depdate).1.
Proof.
  unfold check_missing.
  destruct (is_missing depfrom), (is_missing arrto),
    (negb (truthy depdate_raw) || negb (truthy_str depdate));
    (split; [cbn; repeat constructor | split; [reflexivity|]]);
    cbn; intros H; repeat (destruct H as [H|H]; [discriminate H|]); exact H.
Qed.

(** What an Incomplete answer holds. *)
Lemma query_tail_incomplete parsed depdate retdate msg missing prompts a b c :
  query_tail parsed depdate retdate = Ok (Incomplete msg missing prompts a b c) ->
  (missing, prompts)
  = check_missing (get parsed "from") (get parsed "to") (get parsed "depdate")
      depdate
  /\ missing <> []
  /\ forall retdate',
      query_tail parsed depdate retdate'
      = Ok (Incomplete msg missing prompts a b c).
Proof.
  unfold query_tail.
  destruct (py_int (get_default parsed "adults" (VInt 1))); [|discriminate].
  destruct (py_int (get_default parsed "children" (VInt 0))); [|discriminate].
  destruct (py_int (get_default parsed "infants" (VInt 0))); [|discriminate].
  destruct (py_lower (get_default parsed "cabin" (VStr "economy")));
    [|discriminate].
  cbn [pyres_bind].
  destruct (check_missing _ _ _ depdate) as [mf fu].
  destruct mf as [|f mf]; cbn [negb].
  - discriminate.
  - intros [= <- <- <- <- <- <-]. repeat split. discriminate.
Qed.

(** What a Complete answer holds. *)
Lemma query_tail_complete parsed depdate retdate p :
  query_tail parsed depdate retdate = Ok (Complete p) ->
  exists dep,
    depdate = Some dep
    /\ check_missing (get parsed "from") (get parsed "to")
         (get parsed "depdate") depdate = ([], [])
    /\ py_int (get_default parsed "adults" (VInt 1)) = Ok (adults p)
    /\ py_int (get_default parsed "children" (VInt 0)) = Ok (children p)
    /\ py_int (get_default parsed "infants" (VInt 0)) = Ok (infants p)
    /\ py_lower (get_default parsed "cabin" (VStr "economy")) = Ok (cabin p)
    /\ airline_include p = get_default parsed "airline_include" (VStr "")
    /\ stops p = false /\ ages p = []
    /\ segments p
       = mksegment (get parsed "from") (get parsed "to") dep
         :: (if truthy_str retdate
             then [mksegment (get parsed "to") (get parsed "from")
                     (default "" retdate)]
             else []).
Proof.
  unfold query_tail.
  destruct (py_int (get_default parsed "adults" (VInt 1))); [|discriminate].
  destruct (py_int (get_default parsed "children" (VInt 0))); [|discriminate].
  destruct (py_int (get_default parsed "infants" (VInt 0))); [|discriminate].
  destruct (py_lower (get_default parsed "cabin" (VStr "economy")));
    [|discriminate].
  cbn [pyres_bind].
  destruct (check_missing _ _ _ depdate) as [mf fu] eqn:Ec.
  destruct mf as [|f mf]; cbn [negb]; [|discriminate].
  intros [= <-]. cbn [adults children infants cabin stops airline_include ages
                      segments].
  assert (Hd : exists dep, depdate = Some dep /\ fu = []).
  { unfold check_missing in Ec.
    destruct (is_missing (get parsed "from")), (is_missing (get parsed "to")),
      (negb (truthy (get parsed "depdate")) || negb (truthy_str depdate)) eqn:E;
      try discriminate Ec.
    injection Ec as <-. apply orb_false_iff in E. destruct E as [_ E].
    destruct depdate as [dep|]; [|discriminate]. now exists dep. }
  destruct Hd as (dep & -> & ->). exists dep.
  repeat split. now destruct (truthy_str retdate).
Qed.

Lemma ret_of_output now v depdate r :
  ret_of now v depdate = Ok (Some r) -> truthy_str (Some r) = true.
Proof.
  unfold resolve_retdate. destruct (truthy v && truthy_str depdate); [|discriminate].
  destruct (strptime (default "" depdate)) as [base|e]; [|discriminate].
  cbn [pyres_bind]. intros H. apply resolve_output in H.
  destruct H as (D & _ & ->). cbn [truthy_str]. now rewrite strftime_not_empty.
Qed.

(** C6 does not hold on the code: the return date can block completeness.
    The one-way record [rec_one_way] is Complete; with the return
    "after 10000000 days" added ([rec_far_return]) the resolution of the
    return raises OverflowError (line 94, through line 155) and the answer
    is the error answer.  The rest of the claim holds: the missing list is a
    sub-list of from, to, depdate in that order, the prompts are the prompts
    of its fields in the same order, the return date is never listed, adds
    nothing to the lists of an Incomplete answer and never turns a Complete
    answer into an Incomplete one; and the record that has the destination
    only misses from and depdate, with the two prompts in that order. *)
Theorem missing_fields_in_lockstep now parsed :
  (query june_first rec_one_way = Complete payload_one_way
   /\ ret_of june_first (get rec_far_return "retdate") (Some "2025-06-02")
      = Raise OverflowError
   /\ query june_first rec_far_return = Error500 OverflowError)
  /\ (forall depfrom arrto depdate_raw depdate,
      sublist (check_missing depfrom arrto depdate_raw depdate).1
              ["from"; "to"; "depdate"]
      /\ (check_missing depfrom arrto depdate_raw depdate).2
         = map prompt_for (check_missing depfrom arrto depdate_raw depdate).1
      /\ ~ In "retdate" (check_missing depfrom arrto depdate_raw depdate).1)
  /\ (forall msg missing prompts a b c,
         query now parsed = Incomplete msg missing prompts a b c ->
         missing <> []
         /\ sublist missing ["from"; "to"; "depdate"]
         /\ ~ In "retdate" missing
         /\ prompts = map prompt_for missing)
  /\ (forall v msg missing prompts a b c,
         query now (<["retdate" := v]> parsed)
         = Incomplete msg missing prompts a b c ->
         query now (delete "retdate" parsed)
         = Incomplete msg missing prompts a b c)
  /\ (forall v p,
         query now (delete "retdate" parsed) = Complete p ->
         (exists p', query now (<["retdate" := v]> parsed) = Complete p')
         \/ (exists dep e,
               ret_of now v (Some dep) = Raise e
               /\ query now (<["retdate" := v]> parsed) = Error500 e))
  /\ query now rec_only_destination
     = Incomplete "Missing fields: from, depdate" ["from"; "depdate"]
         [ASK_FROM; ASK_DEPDATE] VNone (VStr "DXB") VNone.
Proof.
  split; [repeat split; reflexivity|].
  split; [intros; apply check_missing_lockstep|].
  split; [|split; [|split; [|reflexivity]]].
  - intros msg missing prompts a b c H. rewrite parse_query_eq in H.
    destruct (dep_of now (get parsed "depdate")) as [depdate|e]; [|discriminate].
    cbn [pyres_bind] in H.
    destruct (ret_of now (get parsed "retdate") depdate) as [retdate|e];
      [|discriminate].
    cbn [pyres_bind] in H.
    destruct (query_tail parsed depdate retdate) as [r|e] eqn:E; [|discriminate].
    subst r. apply query_tail_incomplete in E. destruct E as (E & Hne & _).
    pose proof (check_missing_lockstep (get parsed "from") (get parsed "to")
                  (get parsed "depdate") depdate) as (K1 & K2 & K3).
    rewrite <- E in K1, K2, K3. cbn [fst snd] in K1, K2, K3.
    repeat split; assumption.
  - intros v msg missing prompts a b c H. rewrite parse_query_eq in *.
    rewrite get_insert_ne in H by discriminate.
    rewrite get_delete_ne by discriminate.
    destruct (dep_of now (get parsed "depdate")) as [depdate|e]; [|discriminate].
    cbn [pyres_bind] in *.
    destruct (ret_of now (get (<["retdate" := v]> parsed) "retdate") depdate)
      as [retdate|e]; [|discriminate].
    cbn [pyres_bind] in H. rewrite query_tail_insert_retdate in H.
    destruct (query_tail parsed depdate retdate) as [r|e] eqn:E; [|discriminate].
    subst r. apply query_tail_incomplete in E. destruct E as (_ & _ & E).
    destruct (ret_of now (get (delete "retdate" parsed) "retdate") depdate)
      as [retdate'|e] eqn:E'.
    + cbn [pyres_bind]. now rewrite query_tail_delete_retdate, E.
    + rewrite get_delete_eq in E'. discriminate E'.
  - intros v p H. rewrite parse_query_eq in *.
    rewrite get_insert_ne by discriminate.
    rewrite get_delete_ne in H by discriminate.
    destruct (dep_of now (get parsed "depdate")) as [depdate|e]; [|discriminate].
    cbn [pyres_bind] in *.
    destruct (ret_of now (get (delete "retdate" parsed) "retdate") depdate)
      as [retdate|e]; [|discriminate].
    cbn [pyres_bind] in H. rewrite query_tail_delete_retdate in H.
    destruct (query_tail parsed depdate retdate) as [r|e] eqn:E; [|discriminate].
    subst r. pose proof E as E0.
    apply query_tail_complete in E. destruct E as (dep & -> & _).
    rewrite get_insert_eq.
    destruct (ret_of now v (Some dep)) as [retdate'|e] eqn:E'.
    + left. cbn [pyres_bind]. rewrite query_tail_insert_retdate.
      unfold query_tail in *.
      destruct (py_int (get_default parsed "adults" (VInt 1))); [|discriminate].
      destruct (py_int (get_default parsed "children" (VInt 0))); [|discriminate].
      destruct (py_int (get_default parsed "infants" (VInt 0))); [|discriminate].
      destruct (py_lower (get_default parsed "cabin" (VStr "economy")));
        [|discriminate].
      cbn [pyres_bind] in *.
      destruct (check_missing _ _ _ (Some dep)) as [mf fu].
      destruct mf; cbn [negb] in *; [|discriminate]. eauto.
    + right. exists dep, e. split; [exact E' | reflexivity].
Qed.

(** C8, as amended: with from "DEL", no destination and departure "tomorrow"
    on 2025-06-01 the answer is Incomplete, the missing list is ["to"], and
    the parsed fields echo the raw values: the departure echoed is the text
    "tomorrow"; the date it resolves to, 2025-06-02, is computed and not put
    in the answer. *)
Theorem incomplete_echoes_raw_values h mi s us :
  let now := mkdatetime 2025 6 1 h mi s us in
  query now rec_no_destination
  = Incomplete "Missing fields: to" ["to"] [ASK_TO]
      (VStr "DEL") VNone (VStr "tomorrow")
  /\ query now rec_no_destination_key
     = Incomplete "Missing fields: to" ["to"] [ASK_TO]
         (VStr "DEL") VNone (VStr "tomorrow")
  /\ dep_of now (get rec_no_destination "depdate") = Ok (Some "2025-06-02").
Proof. cbv zeta. repeat split; reflexivity. Qed.

(** The defaults of a Complete answer, for the keys that the record does not
    have. *)
Lemma complete_defaults now parsed p :
  query now parsed = Complete p ->
  (parsed !! "adults" = None -> adults p = 1)
  /\ (parsed !! "children" = None -> children p = 0)
  /\ (parsed !! "infants" = None -> infants p = 0)
  /\ (parsed !! "cabin" = None -> cabin p = "economy")
  /\ (forall c, parsed !! "cabin" = Some (VStr c) -> cabin p = lower c)
  /\ (parsed !! "airline_include" = None -> airline_include p = VStr "")
  /\ (forall v, parsed !! "airline_include" = Some v -> airline_include p = v).
Proof.
  intros H. rewrite parse_query_eq in H.
  destruct (dep_of now (get parsed "depdate")) as [depdate|e]; [|discriminate].
  cbn [pyres_bind] in H.
  destruct (ret_of now (get parsed "retdate") depdate) as [retdate|e];
    [|discriminate].
  cbn [pyres_bind] in H.
  destruct (query_tail parsed depdate retdate) as [r|e] eqn:E; [|discriminate].
  subst r. apply query_tail_complete in E.
  destruct E as (dep & _ & _ & Ha & Hc & Hi & Hcab & Hair & _).
  unfold get_default in *.
  repeat split.
  - intros K. rewrite K in Ha. now injection Ha.
  - intros K. rewrite K in Hc. now injection Hc.
  - intros K. rewrite K in Hi. now injection Hi.
  - intros K. rewrite K in Hcab. now injection Hcab.
  - intros c K. rewrite K in Hcab. now injection Hcab.
  - intros K. now rewrite K in Hair.
  - intros v K. now rewrite K in Hair.
Qed.

(** C9: a key that holds null is not given its default.  With a null
    airline the answer is Complete and carries null, not the empty text;
    with a null count or a null cabin the conversion raises and the answer
    is the error. *)
Theorem null_values_are_not_defaulted :
  query (afternoon 2025 6 1) rec_null_airline
  = Complete (mkpayload 1 0 0 "economy" false VNone []
                [mksegment (VStr "DEL") (VStr "DXB") "2025-06-02"])
  /\ query (afternoon 2025 6 1) rec_null_adults = Error500 TypeError
  /\ query (afternoon 2025 6 1) rec_null_cabin = Error500 AttributeError.
Proof. repeat split; reflexivity. Qed.

(** C10: the segments of a Complete answer are the outward segment alone
    when the return date is absent or does not resolve, and the outward
    segment followed by the way back, origin and destination exchanged, on
    the resolved return date when it does. *)
Theorem segments_of_complete now parsed p :
  query now parsed = Complete p ->
  exists dep,
    dep_of now (get parsed "depdate") = Ok (Some dep)
    /\ match ret_of now (get parsed "retdate") (Some dep) with
       | Ok None =>
           segments p = [mksegment (get parsed "from") (get parsed "to") dep]
       | Ok (Some ret) =>
           segments p = [mksegment (get parsed "from") (get parsed "to") dep;
                         mksegment (get parsed "to") (get parsed "from") ret]
       | Raise _ => False
       end.
Proof.
  intros H. rewrite parse_query_eq in H.
  destruct (dep_of now (get parsed "depdate")) as [depdate|e]; [|discriminate].
  cbn [pyres_bind] in H.
  destruct (ret_of now (get parsed "retdate") depdate) as [retdate|e] eqn:Er;
    [|discriminate].
  cbn [pyres_bind] in H.
  destruct (query_tail parsed depdate retdate) as [r|e] eqn:E; [|discriminate].
  subst r. apply query_tail_complete in E.
  destruct E as (dep & -> & _ & _ & _ & _ & _ & _ & _ & _ & Hs).
  exists dep. split; [reflexivity|]. rewrite Er.
  destruct retdate as [ret|].
  - rewrite (ret_of_output _ _ _ _ Er) in Hs. exact Hs.
  - exact Hs.
Qed.

End Completeness.

(** ** The anchor of the return date *)

Section Anchoring.

Variable cal_parse : string -> struct_time -> pyres (struct_time * Z).
Variable dateutil_parse : string -> datetime -> pyres struct_time.

Abbreviation resolve := (parse_date_string cal_parse dateutil_parse).
Abbreviation dep_of := (resolve_depdate cal_parse dateutil_parse).
Abbreviation ret_of := (resolve_retdate cal_parse dateutil_parse).
Abbreviation query := (parse_query cal_parse dateutil_parse).

(** C1 does not hold on the code.  Line 155 reads the departure back from
    its text, and the text of a day before the year 1000 is not read back:
    with a return value that is true, [strptime] raises ValueError and the
    answer is the error answer, where the claim has the return resolved from
    the departure.  On the record [rec_old_departure], whose departure the
    date parser resolves to 5 January 999, the departure is 999-01-05 and
    the answer is the error.  From the year 1000 on the code does what the
    claim says: the return is resolved from the departure, read back at
    midnight, and never from the current date; without a resolved departure
    the resolver is not called for the return. *)
Theorem return_date_anchored_on_departure now parsed :
  let depdate_raw := get parsed "depdate" in
  let retdate_raw := get parsed "retdate" in
  (resolve_depdate no_calendar old_dateutil june_first
     (get rec_old_departure "depdate") = Ok (Some "999-01-05")
   /\ strptime "999-01-05" = Raise ValueError
   /\ parse_query no_calendar old_dateutil june_first rec_old_departure
      = Error500 ValueError)
  /\ (forall d,
         dep_of now depdate_raw = Ok (Some d) ->
         exists D,
           valid_datetime D = true /\ strftime D = d
           /\ (hour D, minute D, second D, microsecond D) = (0, 0, 0, 0)
           /\ (1000 <= year D ->
               strptime d = Ok D
               /\ ret_of now retdate_raw (Some d)
                  = (if truthy retdate_raw then resolve retdate_raw (Some D) now
                     else Ok None)
               /\ forall now', resolve retdate_raw (Some D) now'
                               = resolve retdate_raw (Some D) now)
           /\ (year D < 1000 ->
               strptime d = Raise ValueError
               /\ (truthy retdate_raw = true ->
                   ret_of now retdate_raw (Some d) = Raise ValueError
                   /\ query now parsed = Error500 ValueError)))
  /\ (forall now' r, ret_of now' r None = Ok None)
  /\ (forall now',
         ret_of now' (VStr "after 10 days") (Some "2025-03-10")
         = Ok (Some "2025-03-20")).
Proof.
  cbv zeta. split; [repeat split; reflexivity|]. split; [|split].
  - intros d Hd. pose proof Hd as Hd0. unfold resolve_depdate in Hd.
    destruct (truthy (get parsed "depdate")); [|discriminate].
    apply resolve_output in Hd. destruct Hd as (D0 & Hv & ->).
    exists (mkdatetime (year D0) (month D0) (day D0) 0 0 0 0).
    split; [unfold valid_datetime; cbn; now rewrite Hv|].
    split; [reflexivity|]. split; [reflexivity|].
    cbn [year month day]. split.
    + intros H1000. split; [now apply strptime_strftime|]. split.
      * unfold resolve_retdate. cbn [truthy_str default].
        rewrite strftime_not_empty. cbn [negb]. rewrite andb_true_r.
        destruct (truthy (get parsed "retdate")); [|reflexivity].
        unfold id. rewrite strptime_strftime by assumption. reflexivity.
      * intros now'. destruct (get parsed "retdate") as [|b|z|[|c t]]; reflexivity.
    + intros Hlt.
      destruct (strptime_strftime_short D0 Hv Hlt) as [Hs _].
      split; [exact Hs|]. intros Ht.
      assert (Hr : ret_of now (get parsed "retdate") (Some (strftime D0))
                   = Raise ValueError).
      { unfold resolve_retdate. rewrite Ht. cbn [truthy_str default andb].
        rewrite strftime_not_empty. cbn [negb]. unfold id. now rewrite Hs. }
      split; [exact Hr|].
      rewrite parse_query_eq, Hd0. cbn [pyres_bind]. now rewrite Hr.
  - intros now' r. unfold resolve_retdate. cbn [truthy_str].
    now rewrite andb_false_r.
  - intros now'. reflexivity.
Qed.

End Anchoring.

(** * The claims on concrete inputs *)

Section Instances.

(** C2 on two texts, anchor 2025-06-01. *)
Lemma exact_phrases_witness :
  (contains "day after tomorrow" (lower "Leaving the Day After TOMORROW, early")
   = true
   /\ parse_date_string no_calendar no_dateutil
        (VStr "Leaving the Day After TOMORROW, early")
        (Some (midnight 2025 6 1)) june_first = Ok (Some "2025-06-03"))
  /\ (contains "tomorrow" (lower "  Tomorrow after 5 days ") = true
      /\ parse_date_string no_calendar no_dateutil
           (VStr "  Tomorrow after 5 days ")
           (Some (midnight 2025 6 1)) june_first = Ok (Some "2025-06-02")).
Proof.
  split; (split; [reflexivity|]).
  - apply (proj1 (exact_phrases_resolve no_calendar no_dateutil
                    "Leaving the Day After TOMORROW, early"
                    (Some (midnight 2025 6 1)) june_first eq_refl));
      [reflexivity | discriminate].
  - apply (proj2 (exact_phrases_resolve no_calendar no_dateutil
                    "  Tomorrow after 5 days "
                    (Some (midnight 2025 6 1)) june_first eq_refl));
      [reflexivity | reflexivity | discriminate].
Defined.

(** C2 as stated fails on the last day of the calendar: the day after is no
    date of [datetime] and the addition raises. *)
Lemma exact_phrases_counterexample :
  contains "tomorrow" (lower "tomorrow") = true
  /\ contains "day after tomorrow" (lower "tomorrow") = false
  /\ valid_datetime (midnight 9999 12 31) = true
  /\ parse_date_string no_calendar no_dateutil (VStr "tomorrow")
       (Some (midnight 9999 12 31)) june_first = Raise OverflowError.
Proof. repeat split; reflexivity. Qed.

(** C3 on a text with the pattern in the middle, on the text "after 0 days",
    on a text without the pattern and on a negative number. *)
Lemma after_n_days_witness :
  parse_date_string no_calendar no_dateutil (VStr "Back after 15 Days, thanks")
    (Some (midnight 2025 6 1)) june_first = Ok (Some "2025-06-16")
  /\ parse_date_string no_calendar no_dateutil (VStr "After 0 Days")
       (Some (midnight 2025 6 1)) june_first = Ok (Some "2025-06-01")
  /\ parse_date_string no_calendar no_dateutil (VStr "soon")
       (Some (midnight 2025 6 1)) june_first
     = parser_fallback no_calendar no_dateutil "soon" (midnight 2025 6 1)
  /\ parse_date_string no_calendar no_dateutil (VStr "after -3 days")
       (Some (midnight 2025 6 1)) june_first
     = parser_fallback no_calendar no_dateutil "after -3 days"
         (midnight 2025 6 1).
Proof.
  destruct (after_n_days_resolves no_calendar no_dateutil
              "Back after 15 Days, thanks" (Some (midnight 2025 6 1)) june_first)
    as (H1 & _ & _ & _ & _).
  destruct (after_n_days_resolves no_calendar no_dateutil
              "After 0 Days" (Some (midnight 2025 6 1)) june_first)
    as (_ & _ & H2 & _ & _).
  destruct (after_n_days_resolves no_calendar no_dateutil
              "soon" (Some (midnight 2025 6 1)) june_first)
    as (_ & _ & _ & H4 & _).
  destruct (after_n_days_resolves no_calendar no_dateutil
              "after -3 days" (Some (midnight 2025 6 1)) june_first)
    as (_ & _ & _ & _ & H3).
  split; [|split; [|split]].
  - apply (H1 15%nat "back " "15" "s, thanks");
      try reflexivity; try discriminate.
    + unfold MAX_STR_DIGITS. cbn. lia.
    + intros pre' ds' post' E _ _.
      destruct pre' as [|c1 [|c2 [|c3 [|c4 [|c5 pre']]]]];
        try discriminate E; cbn; lia.
  - apply H2; reflexivity.
  - apply H4; [discriminate | reflexivity | discriminate |].
    intros pre ds post E _.
    destruct pre as [|c1 [|c2 [|c3 [|c4 [|c5 pre]]]]]; discriminate E.
  - apply (H3 "-3"); try reflexivity. now right.
Defined.

(** C3 as stated fails for a number of days that leads past 9999-12-31,
    where the addition raises, for a second occurrence of the pattern, which
    the first one hides, for a number written with more digits than [int]
    accepts, and for a token that is no number but holds the pattern, which
    matches there and does not fall through. *)
Lemma after_n_days_counterexample :
  (lower "after 10000000 days"
   = "" +:+ "after " +:+ "10000000" +:+ " day" +:+ "s"
   /\ int_of_digits "10000000" = 10000000
   /\ parse_date_string no_calendar no_dateutil (VStr "after 10000000 days")
        (Some (midnight 2025 6 1)) june_first = Raise OverflowError)
  /\ (lower "after 3 days or after 5 days"
      = "after 3 days or " +:+ "after " +:+ "5" +:+ " day" +:+ "s"
      /\ parse_date_string no_calendar no_dateutil
           (VStr "after 3 days or after 5 days")
           (Some (midnight 2025 6 1)) june_first = Ok (Some "2025-06-04"))
  /\ (int_of_digits padded_five = 5
      /\ all_digits padded_five = true
      /\ parse_date_string no_calendar no_dateutil
           (VStr ("after " +:+ padded_five +:+ " days"))
           (Some (midnight 2025 6 1)) june_first = Raise ValueError)
  /\ (all_digits "x after 5" = false
      /\ parse_date_string no_calendar no_dateutil
           (VStr ("after " +:+ "x after 5" +:+ " days"))
           (Some (midnight 2025 6 1)) june_first = Ok (Some "2025-06-06")
      /\ parser_fallback no_calendar no_dateutil
           ("after " +:+ "x after 5" +:+ " days") (midnight 2025 6 1)
         = Ok None).
Proof. repeat split; vm_compute; reflexivity. Qed.

(** C4 on the last day of January and in December. *)
Lemma next_month_witness :
  parse_date_string no_calendar no_dateutil (VStr "  Next Month ")
    (Some (afternoon 2024 1 31)) june_first = Ok (Some "2024-02-29")
  /\ parse_date_string no_calendar no_dateutil (VStr "next month")
       (Some (midnight 2025 12 15)) june_first = Ok (Some "2026-01-15").
Proof.
  destruct (next_month_clamps no_calendar no_dateutil) as (H & _ & _).
  split.
  - apply (H "  Next Month " (Some (afternoon 2024 1 31)) june_first);
      [reflexivity | reflexivity | left; reflexivity].
  - apply (H "next month" (Some (midnight 2025 12 15)) june_first);
      [reflexivity | reflexivity | left; reflexivity].
Defined.

(** C4 as stated fails in December 9999. *)
Lemma next_month_counterexample :
  valid_datetime (midnight 9999 12 15) = true
  /\ parse_date_string no_calendar no_dateutil (VStr "next month")
       (Some (midnight 9999 12 15)) june_first = Raise ValueError.
Proof. split; reflexivity. Qed.

(** C6 on a record with the destination only and on a one-way record to
    which a return in ten days is added. *)
Lemma missing_fields_witness :
  parse_query no_calendar no_dateutil june_first
    (delete "retdate" rec_only_destination)
  = Incomplete "Missing fields: from, depdate" ["from"; "depdate"]
      [ASK_FROM; ASK_DEPDATE] VNone (VStr "DXB") VNone
  /\ [ASK_FROM; ASK_DEPDATE] = map prompt_for ["from"; "depdate"]
  /\ (exists p', parse_query no_calendar no_dateutil june_first
                   (<["retdate" := VStr "after 10 days"]> rec_one_way)
                 = Complete p')
  /\ parse_query no_calendar no_dateutil june_first rec_far_return
     = Error500 OverflowError.
Proof.
  destruct (missing_fields_in_lockstep no_calendar no_dateutil june_first
              rec_only_destination) as ((_ & _ & H0) & _ & H2 & H3 & _ & _).
  destruct (missing_fields_in_lockstep no_calendar no_dateutil june_first
              rec_one_way) as (_ & _ & _ & _ & H4 & _).
  split; [|split; [|split]].
  - apply (H3 (VStr "after 10 days")). reflexivity.
  - apply (H2 "Missing fields: from, depdate" ["from"; "depdate"]
             [ASK_FROM; ASK_DEPDATE] VNone (VStr "DXB") VNone eq_refl).
  - destruct (H4 (VStr "after 10 days")
                (mkpayload 1 0 0 "economy" false (VStr "") []
                   [mksegment (VStr "DEL") (VStr "DXB") "2025-06-02"])
                eq_refl) as [H|(dep & e & _ & H)].
    + exact H.
    + vm_compute in H. discriminate H.
  - exact H0.
Defined.

(** C7 on the placeholder in capitals. *)
Lemma is_missing_witness :
  is_missing (VStr "DEPARTURE City (Not Provided)") = true
  /\ (is_missing (VStr "  Not Provided ") = true ->
      In (lower (strip "  Not Provided "))
        [""; "none"; "not provided"; "departure city (not provided)";
         "arrival city (not provided)"]).
Proof.
  destruct is_missing_sentinels as (H1 & _ & H3).
  split.
  - exact (proj1 (H3 "DEPARTURE City (Not Provided)" eq_refl)).
  - intros H. destruct (proj1 (H1 (VStr "  Not Provided ")) H) as [K|K];
      [discriminate K | exact K].
Defined.

(** C7 as stated fails on the text "none", which the code counts as
    missing and the claim does not list. *)
Lemma is_missing_counterexample :
  is_missing (VStr "none") = true
  /\ VStr "none" <> VNone
  /\ ~ In (lower (strip "none")) CLAIMED_SENTINELS.
Proof.
  split; [reflexivity|]. split; [discriminate|].
  cbn. intros H. repeat (destruct H as [H|H]; [discriminate H|]). exact H.
Qed.

(** C8 as stated fails: the departure echoed is the raw text. *)
Lemma incomplete_echo_counterexample :
  parse_query no_calendar no_dateutil (midnight 2025 6 1) rec_no_destination
  = Incomplete "Missing fields: to" ["to"] [ASK_TO]
      (VStr "DEL") VNone (VStr "tomorrow")
  /\ VStr "tomorrow" <> VStr "2025-06-02".
Proof. split; [reflexivity | discriminate]. Qed.

(** C10 on the round trip of [rec_round_trip]. *)
Lemma segments_witness :
  parse_query no_calendar no_dateutil june_first rec_round_trip
  = Complete payload_round_trip
  /\ exists dep,
      resolve_depdate no_calendar no_dateutil june_first
        (get rec_round_trip "depdate") = Ok (Some dep)
      /\ match resolve_retdate no_calendar no_dateutil june_first
                (get rec_round_trip "retdate") (Some dep) with
         | Ok None =>
             segments payload_round_trip
             = [mksegment (get rec_round_trip "from") (get rec_round_trip "to")
                  dep]
         | Ok (Some ret) =>
             segments payload_round_trip
             = [mksegment (get rec_round_trip "from") (get rec_round_trip "to")
                  dep;
                mksegment (get rec_round_trip "to") (get rec_round_trip "from")
                  ret]
         | Raise _ => False
         end.
Proof.
  split; [reflexivity|].
  exact (segments_of_complete no_calendar no_dateutil june_first rec_round_trip
           payload_round_trip eq_refl).
Defined.

End Instances.

(** * Further properties of the code *)

Import Endpoint Aux2.

(** ** The resolver *)

Section ResolverProperties.

Variable cal_parse : string -> struct_time -> pyres (struct_time * Z).
Variable dateutil_parse : string -> datetime -> pyres struct_time.

Abbreviation resolve := (parse_date_string cal_parse dateutil_parse).
Abbreviation fallback := (parser_fallback cal_parse dateutil_parse).

(** X1: every date that [parse_date_string] returns is the text of a day of
    the calendar, the digits of the year followed by month and day on two
    digits each.  From the year 1000 on the text has ten characters and
    [strptime] reads it back, with the format of line 155, to that day at
    midnight; before the year 1000 it is shorter and [strptime] refuses it
    with ValueError. *)
Theorem resolved_date_is_readable v base now d :
  resolve v base now = Ok (Some d) ->
  exists D,
    valid_datetime D = true /\ strftime D = d
    /\ (hour D, minute D, second D, microsecond D) = (0, 0, 0, 0)
    /\ (1000 <= year D -> String.length d = 10%nat /\ strptime d = Ok D)
    /\ (year D < 1000 ->
        (String.length d < 10)%nat /\ strptime d = Raise ValueError).
Proof.
  intros H. apply resolve_output in H. destruct H as (D0 & Hv & ->).
  exists (mkdatetime (year D0) (month D0) (day D0) 0 0 0 0).
  split; [unfold valid_datetime; cbn; now rewrite Hv|].
  split; [reflexivity|]. split; [reflexivity|]. cbn [year].
  pose proof Hv as Hv'. apply valid_date_iff in Hv'. destruct Hv' as (Hy & _).
  split.
  - intros H1000. split; [apply strftime_length; lia|].
    now apply strptime_strftime.
  - intros Hlt. destruct (strptime_strftime_short D0 Hv Hlt) as [Hs Hl].
    now split.
Qed.

Lemma day_after_tomorrow_holds_tomorrow s :
  contains "day after tomorrow" s = true -> contains "tomorrow" s = true.
Proof.
  intros E. apply contains_spec in E. destruct E as (a & b & ->).
  apply contains_spec. exists (a +:+ "day after "), b.
  now rewrite !app_assoc.
Qed.

Lemma search_after_days_sound t g :
  search_after_days t = Some g -> all_digits g = true /\ g <> "".
Proof.
  induction t as [|c t IH]; cbn [search_after_days].
  - destruct (match_here "") eqn:E; [|discriminate].
    intros [= <-]. apply match_here_sound in E. destruct E as (_ & _ & H). exact H.
  - destruct (match_here (String c t)) eqn:E; [|exact IH].
    intros [= <-]. apply match_here_sound in E. destruct E as (_ & _ & H). exact H.
Qed.

Lemma days_before_year_le y :
  1 <= y <= 9998 -> days_before_year y + 366 <= MAXORDINAL - 364.
Proof. unfold days_before_year, MAXORDINAL. lia. Qed.

Lemma toordinal_before_last_year dt :
  valid_date (year dt) (month dt) (day dt) = true -> year dt <= 9998 ->
  1 <= toordinal dt <= MAXORDINAL - 364.
Proof.
  intros Hv Hy. pose proof (toordinal_bounds dt Hv) as Hb.
  pose proof Hv as Hv'. apply valid_date_iff in Hv'.
  destruct Hv' as (Hy' & Hm & Hd).
  pose proof (yday_of_md_ok (is_leap (year dt)) (month dt) (day dt) Hm Hd) as K.
  unfold yday_ok in K. rewrite !andb_true_iff, Z.leb_le, Z.ltb_lt in K.
  destruct K as ((K1 & K2) & _).
  pose proof (days_before_year_le (year dt) ltac:(lia)) as L.
  unfold toordinal, ymd2ord, days_before_month, yday_of_md in *.
  destruct (is_leap (year dt)); lia.
Qed.

Lemma add_days_small dt n :
  valid_date (year dt) (month dt) (day dt) = true -> year dt <= 9998 ->
  0 <= n <= 2 -> exists r, add_days dt n = Ok r.
Proof.
  intros Hv Hy Hn. apply add_days_in_range; [exact Hv | lia |].
  pose proof (toordinal_before_last_year dt Hv Hy). lia.
Qed.

Lemma add_days_overflow dt n :
  valid_date (year dt) (month dt) (day dt) = true -> 0 <= n ->
  MAXORDINAL < toordinal dt + n -> add_days dt n = Raise OverflowError.
Proof.
  intros Hv Hn Hmax. pose proof (toordinal_bounds dt Hv) as Hb.
  unfold add_days. destruct (Z.abs n >? 999999999); [reflexivity|].
  destruct (Z.leb_spec (toordinal dt + n) MAXORDINAL); [lia|].
  now rewrite andb_false_r.
Qed.

Lemma fallback_behaves text today :
  calendar_behaves cal_parse -> exists r, fallback text today = Ok r.
Proof.
  intros Hc. destruct (Hc text (timetuple today)) as (ts & st & E & Hst).
  unfold parser_fallback. rewrite E. cbn [pyres_bind].
  destruct (Z.eqb_spec st 0) as [->|Hne]; cbn [negb].
  - destruct (let! t := dateutil_parse text today in datetime_of_struct t); eauto.
  - destruct (Hst Hne) as [D ->]. cbn [pyres_bind]. eauto.
Qed.

(** X2: on a text, with an anchor of a year before 9999 and a calendar
    parser that behaves, [parse_date_string] raises in two cases only, both
    of the relative-offset pattern: the number has more digits than [int]
    takes (ValueError), or it leads past the last day of [datetime]
    (OverflowError). *)
Theorem resolver_raises_exactly text base now e :
  let today := default now base in
  let low := strip (lower text) in
  calendar_behaves cal_parse ->
  valid_datetime today = true -> year today <= 9998 ->
  (resolve (VStr text) base now = Raise e <->
   contains "tomorrow" low = false /\ low <> "next month"
   /\ exists g,
       search_after_days low = Some g
       /\ (((MAX_STR_DIGITS < String.length g)%nat /\ e = ValueError)
           \/ ((String.length g <= MAX_STR_DIGITS)%nat
               /\ MAXORDINAL < toordinal today + int_of_digits g
               /\ e = OverflowError))).
Proof.
  cbv zeta. intros Hc Hv Hy.
  pose proof Hv as Hv0. unfold valid_datetime in Hv0.
  apply andb_true_iff in Hv0. destruct Hv0 as [Hd Ht].
  destruct text as [|c text].
  { split; [discriminate|]. intros (_ & _ & g & E & _). discriminate E. }
  rewrite resolve_text by discriminate. cbv zeta.
  set (low := strip (lower (String c text))).
  set (today := default now base) in *.
  destruct (contains "day after tomorrow" low) eqn:E2.
  { pose proof (day_after_tomorrow_holds_tomorrow _ E2) as E1.
    destruct (add_days_small today 2 Hd Hy ltac:(lia)) as [r ->].
    split; [discriminate|]. intros (K & _). congruence. }
  destruct (contains "tomorrow" low) eqn:E1.
  { destruct (add_days_small today 1 Hd Hy ltac:(lia)) as [r ->].
    split; [discriminate|]. intros (K & _). congruence. }
  destruct (String.eqb_spec low "next month") as [En|En].
  { rewrite (add_one_month_spec today Hv). cbv zeta.
    destruct (Z.leb_spec (if month today =? 12 then year today + 1 else year today)
                MAXYEAR) as [_|Hgt].
    - split; [discriminate|]. intros (_ & K & _). congruence.
    - exfalso. unfold MAXYEAR in Hgt. destruct (month today =? 12); lia. }
  destruct (search_after_days low) as [g|] eqn:Es.
  - destruct (search_after_days_sound _ _ Es) as [Hg Hne].
    pose proof (int_of_digits_from_nonneg g 0 ltac:(lia) Hg) as Hpos.
    fold (int_of_digits g) in Hpos.
    unfold int_of_digit_text.
    destruct (Nat.ltb_spec MAX_STR_DIGITS (String.length g)) as [Hlong|Hshort].
    + cbn [pyres_bind]. split.
      * intros [= <-]. repeat split; try assumption.
        exists g. split; [reflexivity|]. left. now split.
      * intros (_ & _ & g' & [= <-] & [[_ ->]|[K _]]); [reflexivity | lia].
    + cbn [pyres_bind].
      destruct (Z.le_gt_cases (toordinal today + int_of_digits g) MAXORDINAL)
        as [Hin|Hout].
      * destruct (add_days_in_range today (int_of_digits g) Hd Hpos Hin) as [r ->].
        split; [discriminate|].
        intros (_ & _ & g' & [= <-] & [[K _]|[_ [K _]]]); lia.
      * rewrite (add_days_overflow today (int_of_digits g) Hd Hpos ltac:(lia)).
        cbn [pyres_bind]. split.
        -- intros [= <-]. repeat split; try assumption.
           exists g. split; [reflexivity|]. right. repeat split; [assumption|lia].
        -- intros (_ & _ & g' & [= <-] & [[K _]|[_ [_ ->]]]); [lia | reflexivity].
  - destruct (fallback_behaves (String c text) today Hc) as [r ->].
    split; [discriminate|]. intros (_ & _ & g & K & _). discriminate K.
Qed.

(** X3: a text that no strategy of the code recognises, and in which
    [parsedatetime] recognises nothing, gives what [dateutil] gives: its date
    when it returns one, [None] when it raises or returns fields that are
    out of range; the exception does not leave [parse_date_string]. *)
Theorem unrecognised_text_is_left_to_dateutil text base now source :
  let today := default now base in
  let low := strip (lower text) in
  text <> "" ->
  contains "tomorrow" low = false -> low <> "next month" ->
  search_after_days low = None ->
  cal_parse text (timetuple today) = Ok (source, 0) ->
  (forall e, dateutil_parse text today = Raise e ->
             resolve (VStr text) base now = Ok None)
  /\ (forall t e,
         dateutil_parse text today = Ok t -> datetime_of_struct t = Raise e ->
         resolve (VStr text) base now = Ok None)
  /\ (forall t D,
         dateutil_parse text today = Ok t -> datetime_of_struct t = Ok D ->
         resolve (VStr text) base now = Ok (Some (strftime D))).
Proof.
  cbv zeta. intros Hne H1 H2 H3 Hcal.
  assert (E : resolve (VStr text) base now
              = fallback text (default now base)).
  { rewrite resolve_text by exact Hne. cbv zeta.
    destruct (contains "day after tomorrow" _) eqn:E2.
    - apply day_after_tomorrow_holds_tomorrow in E2. congruence.
    - rewrite H1. destruct (String.eqb_spec (strip (lower text)) "next month");
        [contradiction|]. now rewrite H3. }
  rewrite E. unfold parser_fallback. rewrite Hcal. cbn [pyres_bind Z.eqb negb].
  repeat split.
  - intros e ->. reflexivity.
  - intros t e -> K. cbn [pyres_bind]. now rewrite K.
  - intros t D -> K. cbn [pyres_bind]. now rewrite K.
Qed.

Lemma add_days_date_only A1 A2 n :
  (year A1, month A1, day A1) = (year A2, month A2, day A2) ->
  (let! d := add_days A1 n in Ok (Some (strftime d)))
  = (let! d := add_days A2 n in Ok (Some (strftime d))).
Proof.
  intros [= Ey Em Ed]. unfold add_days, toordinal. rewrite Ey, Em, Ed.
  destruct (Z.abs n >? 999999999); [reflexivity|].
  destruct (_ && _); [|reflexivity].
  destruct (ord2ymd _) as [[y m] d]. reflexivity.
Qed.

(** X4: with a text of one of the three strategies of the code (a phrase,
    "next month", the pattern), the result depends on the day of the anchor
    only, not on its time of day, and not on the current date. *)
Theorem strategies_ignore_time_of_day text A1 A2 now1 now2 :
  let low := strip (lower text) in
  valid_datetime A1 = true -> valid_datetime A2 = true ->
  (year A1, month A1, day A1) = (year A2, month A2, day A2) ->
  (contains "tomorrow" low = true \/ low = "next month"
   \/ search_after_days low <> None) ->
  resolve (VStr text) (Some A1) now1 = resolve (VStr text) (Some A2) now2.
Proof.
  cbv zeta. intros Hv1 Hv2 Hsame Hs.
  destruct text as [|c text].
  { exfalso. destruct Hs as [K|[K|K]]; [discriminate K | discriminate K |].
    apply K. reflexivity. }
  rewrite !resolve_text by discriminate. cbv zeta.
  change (default now1 (Some A1)) with A1.
  change (default now2 (Some A2)) with A2.
  set (low := strip (lower (String c text))) in *.
  destruct (contains "day after tomorrow" low);
    [now apply add_days_date_only|].
  destruct (contains "tomorrow" low) eqn:E1;
    [now apply add_days_date_only|].
  destruct (String.eqb_spec low "next month") as [En|En].
  - rewrite (add_one_month_spec A1 Hv1), (add_one_month_spec A2 Hv2). cbv zeta.
    injection Hsame as Ey Em Ed. rewrite Ey, Em, Ed.
    destruct (_ <=? MAXYEAR); reflexivity.
  - destruct (search_after_days low) as [g|].
    + destruct (int_of_digit_text g); [|reflexivity]. cbn [pyres_bind].
      now apply add_days_date_only.
    + exfalso. destruct Hs as [K|[K|K]]; [discriminate K | contradiction |].
      now apply K.
Qed.

End ResolverProperties.

(** ** The answers of parse_query *)

Section QueryProperties.

Variable cal_parse : string -> struct_time -> pyres (struct_time * Z).
Variable dateutil_parse : string -> datetime -> pyres struct_time.

Abbreviation resolve := (parse_date_string cal_parse dateutil_parse).
Abbreviation dep_of := (resolve_depdate cal_parse dateutil_parse).
Abbreviation ret_of := (resolve_retdate cal_parse dateutil_parse).
Abbreviation query := (parse_query cal_parse dateutil_parse).

Lemma lower_char_idem c : lower_char (lower_char c) = lower_char c.
Proof. each_ascii c; reflexivity. Qed.

Lemma lower_idem s : lower (lower s) = lower s.
Proof. induction s as [|c s IH]; cbn; [reflexivity|]. now rewrite lower_char_idem, IH. Qed.

Lemma dep_of_output now v d :
  dep_of now v = Ok (Some d) ->
  truthy v = true
  /\ exists D, valid_date (year D) (month D) (day D) = true /\ d = strftime D.
Proof.
  unfold resolve_depdate. destruct (truthy v); [|discriminate].
  intros H. split; [reflexivity|]. now apply resolve_output in H.
Qed.

Lemma query_steps now parsed r :
  query now parsed = r ->
  (forall e, r <> Error500 e) ->
  exists depdate retdate,
    dep_of now (get parsed "depdate") = Ok depdate
    /\ ret_of now (get parsed "retdate") depdate = Ok retdate
    /\ query_tail parsed depdate retdate = Ok r.
Proof.
  intros H Hr. rewrite parse_query_eq in H.
  destruct (dep_of now (get parsed "depdate")) as [depdate|e];
    [|exfalso; apply (Hr e); symmetry; exact H].
  cbn [pyres_bind] in H.
  destruct (ret_of now (get parsed "retdate") depdate) as [retdate|e] eqn:E1;
    [|exfalso; apply (Hr e); symmetry; exact H].
  cbn [pyres_bind] in H.
  destruct (query_tail parsed depdate retdate) as [r'|e] eqn:E2;
    [|exfalso; apply (Hr e); symmetry; exact H].
  subst r'. exists depdate, retdate. repeat split; assumption.
Qed.

Lemma check_missing_nil depfrom arrto depdate_raw depdate :
  (check_missing depfrom arrto depdate_raw depdate).1 = [] <->
  is_missing depfrom = false /\ is_missing arrto = false
  /\ truthy depdate_raw = true /\ truthy_str depdate = true.
Proof.
  unfold check_missing.
  destruct (is_missing depfrom), (is_missing arrto), (truthy depdate_raw),
    (truthy_str depdate); cbn; split; intros H;
    try discriminate H; try reflexivity; try (repeat split; reflexivity);
    destruct H as (? & ? & ? & ?); discriminate.
Qed.

Lemma check_missing_nil_both depfrom arrto depdate_raw depdate :
  (check_missing depfrom arrto depdate_raw depdate).1 = [] ->
  check_missing depfrom arrto depdate_raw depdate = ([], []).
Proof.
  unfold check_missing.
  destruct (is_missing depfrom), (is_missing arrto), (truthy depdate_raw),
    (truthy_str depdate); cbn; intros H; try discriminate H; reflexivity.
Qed.

(** X5: in a Complete answer whose return text is one of the phrases or
    the pattern of the code, there are two segments and the date of the
    second is the date of the first plus the days of the text, counted on
    the calendar: the return leg is never before the outward leg. *)
Theorem return_leg_counts_from_departure now parsed p text k :
  query now parsed = Complete p ->
  get parsed "retdate" = VStr text ->
  day_offset (strip (lower text)) = Some k ->
  0 <= k
  /\ exists D R,
      valid_datetime D = true /\ valid_datetime R = true
      /\ toordinal R = toordinal D + k
      /\ segments p
         = [mksegment (get parsed "from") (get parsed "to") (strftime D);
            mksegment (get parsed "to") (get parsed "from") (strftime R)].
Proof.
  intros Hq Hret Hk.
  destruct (query_steps now parsed _ Hq ltac:(discriminate))
    as (depdate & retdate & Hdep & Hr & Htail).
  apply query_tail_complete in Htail.
  destruct Htail as (dep & -> & _ & _ & _ & _ & _ & _ & _ & _ & Hseg).
  destruct (dep_of_output _ _ _ Hdep) as (_ & D0 & Hv0 & ->).
  set (D := mkdatetime (year D0) (month D0) (day D0) 0 0 0 0).
  assert (HvD : valid_datetime D = true).
  { unfold valid_datetime. cbn. now rewrite Hv0. }
  assert (Hne : text <> "").
  { intros ->. discriminate Hk. }
  rewrite Hret in Hr. unfold resolve_retdate in Hr.
  assert (Ht : truthy (VStr text) = true) by (destruct text; [congruence|reflexivity]).
  rewrite Ht in Hr. cbn [truthy_str andb] in Hr.
  rewrite strftime_not_empty in Hr. cbn [negb] in Hr.
  change (default "" (Some (strftime D0))) with (strftime D0) in Hr.
  assert (H1000 : 1000 <= year D0).
  { destruct (Z.le_gt_cases 1000 (year D0)) as [|Hlt]; [assumption|].
    destruct (strptime_strftime_short D0 Hv0 ltac:(lia)) as [Hs _].
    rewrite Hs in Hr. discriminate Hr. }
  rewrite (strptime_strftime D0 Hv0 H1000) in Hr. cbn [pyres_bind] in Hr.
  fold D in Hr. rewrite resolve_text in Hr by exact Hne. cbv zeta in Hr.
  change (default now (Some D)) with D in Hr.
  assert (Hadd : 0 <= k /\
                 (let! d := add_days D k in Ok (Some (strftime d))) = Ok retdate).
  { unfold day_offset in Hk.
    destruct (contains "day after tomorrow" _).
    { injection Hk as <-. split; [lia | exact Hr]. }
    destruct (contains "tomorrow" _).
    { injection Hk as <-. split; [lia | exact Hr]. }
    destruct (String.eqb _ "next month"); [discriminate Hk|].
    destruct (search_after_days _) as [g|] eqn:Es; [|discriminate Hk].
    destruct (search_after_days_sound _ _ Es) as [Hg _].
    unfold int_of_digit_text in Hr.
    destruct (MAX_STR_DIGITS <? String.length g)%nat; [discriminate Hk|].
    injection Hk as <-. cbn [pyres_bind] in Hr. split; [|exact Hr].
    apply (int_of_digits_from_nonneg g 0); [lia | exact Hg]. }
  destruct Hadd as [Hk0 Hadd]. split; [exact Hk0|].
  destruct (add_days D k) as [R|e] eqn:Ea; [|discriminate Hadd].
  cbn [pyres_bind] in Hadd. injection Hadd as <-.
  apply add_days_ok in Ea. destruct Ea as (HvR & Hord & Htime).
  exists D, R. repeat split.
  - exact HvD.
  - unfold valid_datetime. rewrite HvR. cbn [andb].
    injection Htime as -> -> -> ->. reflexivity.
  - exact Hord.
  - rewrite Hseg. cbn [truthy_str]. rewrite strftime_not_empty. reflexivity.
Qed.

Lemma ret_of_date now v depdate r :
  ret_of now v depdate = Ok (Some r) ->
  exists D, valid_date (year D) (month D) (day D) = true /\ r = strftime D.
Proof.
  unfold resolve_retdate. destruct (truthy v && truthy_str depdate); [|discriminate].
  destruct (strptime (default "" depdate)) as [base|e]; [|discriminate].
  cbn [pyres_bind]. apply resolve_output.
Qed.

Lemma readable_date D :
  valid_date (year D) (month D) (day D) = true -> 1000 <= year D ->
  String.length (strftime D) = 10%nat
  /\ exists D', strptime (strftime D) = Ok D' /\ strftime D' = strftime D.
Proof.
  intros Hv H1000. pose proof Hv as Hv'. apply valid_date_iff in Hv'.
  split; [apply strftime_length; lia|].
  exists (mkdatetime (year D) (month D) (day D) 0 0 0 0).
  split; [now apply strptime_strftime | reflexivity].
Qed.

(** A text of [strftime] that [strptime] reads is of the year 1000 or
    later. *)
Lemma read_back_year D base :
  valid_date (year D) (month D) (day D) = true ->
  strptime (strftime D) = Ok base -> 1000 <= year D.
Proof.
  intros Hv Hs. destruct (Z.le_gt_cases 1000 (year D)) as [|Hlt]; [assumption|].
  destruct (strptime_strftime_short D Hv ltac:(lia)) as [E _].
  rewrite E in Hs. discriminate Hs.
Qed.

Lemma ret_of_base now v dep r :
  ret_of now v (Some dep) = Ok (Some r) -> exists base, strptime dep = Ok base.
Proof.
  unfold resolve_retdate. destruct (truthy v && truthy_str (Some dep));
    [|discriminate].
  change (default "" (Some dep)) with dep.
  destruct (strptime dep) as [base|e]; [eauto | discriminate].
Qed.

(** X6: [parse_query] answers Complete exactly when origin and destination
    are not missing, the departure value resolves to a date, the resolution
    of the return value does not raise, and the three counts and the cabin
    are converted without an exception. *)
Theorem complete_exactly_when now parsed :
  (exists p, query now parsed = Complete p) <->
  is_missing (get parsed "from") = false
  /\ is_missing (get parsed "to") = false
  /\ (exists dep retdate,
         dep_of now (get parsed "depdate") = Ok (Some dep)
         /\ ret_of now (get parsed "retdate") (Some dep) = Ok retdate)
  /\ (exists a c i cab,
         py_int (get_default parsed "adults" (VInt 1)) = Ok a
         /\ py_int (get_default parsed "children" (VInt 0)) = Ok c
         /\ py_int (get_default parsed "infants" (VInt 0)) = Ok i
         /\ py_lower (get_default parsed "cabin" (VStr "economy")) = Ok cab).
Proof.
  split.
  - intros [p Hq].
    destruct (query_steps now parsed _ Hq ltac:(discriminate))
      as (depdate & retdate & Hdep & Hr & Htail).
    apply query_tail_complete in Htail.
    destruct Htail as (dep & -> & Hc & Ha & Hch & Hi & Hcab & _).
    pose proof (proj1 (check_missing_nil _ _ _ _) (f_equal fst Hc))
      as (Hf & Ht & _ & _).
    repeat split; try assumption.
    + now exists dep, retdate.
    + now exists (adults p), (children p), (infants p), (cabin p).
  - intros (Hf & Ht & (dep & retdate & Hdep & Hr) & (a & c & i & cab & Ha & Hc & Hi & Hcab)).
    destruct (dep_of_output _ _ _ Hdep) as (Hraw & D & _ & ->).
    rewrite parse_query_eq, Hdep. cbn [pyres_bind]. rewrite Hr. cbn [pyres_bind].
    unfold query_tail. rewrite Ha, Hc, Hi, Hcab. cbn [pyres_bind].
    assert (E : (check_missing (get parsed "from") (get parsed "to")
                   (get parsed "depdate") (Some (strftime D))).1 = []).
    { apply check_missing_nil. repeat split; try assumption.
      cbn [truthy_str]. now rewrite strftime_not_empty. }
    apply check_missing_nil_both in E. rewrite E. cbn [negb]. eauto.
Qed.

(** X7: what every Complete payload satisfies: no stops filter, no ages, a
    cabin in lower case, one or two segments, in every segment an origin and
    a destination that are not missing and a date that is the text of a day
    of the calendar; and when there are two segments, the date of the first
    is of the year 1000 or later: it has ten characters and [strptime] reads
    it back. *)
Theorem complete_payload_invariants now parsed p :
  query now parsed = Complete p ->
  stops p = false /\ ages p = []
  /\ lower (cabin p) = cabin p
  /\ (1 <= length (segments p) <= 2)%nat
  /\ Forall (fun s =>
               is_missing (seg_depfrom s) = false
               /\ is_missing (seg_arrto s) = false
               /\ exists D, valid_datetime D = true
                            /\ strftime D = seg_depdate s)
       (segments p)
  /\ (forall s1 s2,
         segments p = [s1; s2] ->
         String.length (seg_depdate s1) = 10%nat
         /\ exists D, strptime (seg_depdate s1) = Ok D
                      /\ strftime D = seg_depdate s1).
Proof.
  intros Hq.
  destruct (query_steps now parsed _ Hq ltac:(discriminate))
    as (depdate & retdate & Hdep & Hr & Htail).
  apply query_tail_complete in Htail.
  destruct Htail as (dep & -> & Hc & _ & _ & _ & Hcab & _ & Hs & Ha & Hseg).
  pose proof (proj1 (check_missing_nil _ _ _ _) (f_equal fst Hc))
    as (Hf & Ht & _ & _).
  destruct (dep_of_output _ _ _ Hdep) as (_ & D & HvD & ->).
  assert (Hday : forall X, valid_date (year X) (month X) (day X) = true ->
                 exists D', valid_datetime D' = true
                            /\ strftime D' = strftime X).
  { intros X HvX. exists (mkdatetime (year X) (month X) (day X) 0 0 0 0).
    split; [|reflexivity]. unfold valid_datetime. cbn. now rewrite HvX. }
  split; [exact Hs|]. split; [exact Ha|]. split.
  { destruct (get_default parsed "cabin" (VStr "economy")); try discriminate Hcab.
    injection Hcab as <-. apply lower_idem. }
  rewrite Hseg. destruct retdate as [r|]; cbn [truthy_str].
  - destruct (ret_of_date _ _ _ _ Hr) as (R & HvR & ->).
    destruct (ret_of_base _ _ _ _ Hr) as [base Hb].
    pose proof (read_back_year D base HvD Hb) as H1000.
    destruct (readable_date D HvD H1000) as [Hlen Hread].
    rewrite strftime_not_empty. cbn [negb].
    change (default "" (Some (strftime R))) with (strftime R).
    split; [cbn; lia|]. split.
    + repeat constructor; try assumption; now apply Hday.
    + intros s1 s2 [= <- _]. cbn [seg_depdate]. now split.
  - split; [cbn; lia|]. split.
    + repeat constructor; try assumption; now apply Hday.
    + intros s1 s2 H. discriminate H.
Qed.

Lemma check_missing_members depfrom arrto depdate_raw depdate :
  let missing := (check_missing depfrom arrto depdate_raw depdate).1 in
  (In "from" missing <-> is_missing depfrom = true)
  /\ (In "to" missing <-> is_missing arrto = true)
  /\ (In "depdate" missing <->
      negb (truthy depdate_raw) || negb (truthy_str depdate) = true).
Proof.
  unfold check_missing.
  destruct (is_missing depfrom), (is_missing arrto),
    (negb (truthy depdate_raw) || negb (truthy_str depdate)); cbn;
    repeat split; intros H; try reflexivity; try discriminate H;
    try (now left); try (now right; left); try (now right; right; left);
    repeat (destruct H as [H|H]; try discriminate H); try contradiction.
Qed.

Lemma query_tail_incomplete_content parsed depdate retdate msg missing prompts a b c :
  query_tail parsed depdate retdate = Ok (Incomplete msg missing prompts a b c) ->
  msg = "Missing fields: " +:+ join ", " missing
  /\ a = get parsed "from" /\ b = get parsed "to"
  /\ c = (if truthy (get parsed "depdate") then get parsed "depdate" else VNone)
  /\ missing = (check_missing (get parsed "from") (get parsed "to")
                  (get parsed "depdate") depdate).1
  /\ exists ad ch inf cab,
      py_int (get_default parsed "adults" (VInt 1)) = Ok ad
      /\ py_int (get_default parsed "children" (VInt 0)) = Ok ch
      /\ py_int (get_default parsed "infants" (VInt 0)) = Ok inf
      /\ py_lower (get_default parsed "cabin" (VStr "economy")) = Ok cab.
Proof.
  unfold query_tail.
  destruct (py_int (get_default parsed "adults" (VInt 1))) as [ad|]; [|discriminate].
  destruct (py_int (get_default parsed "children" (VInt 0))) as [ch|]; [|discriminate].
  destruct (py_int (get_default parsed "infants" (VInt 0))) as [inf|]; [|discriminate].
  destruct (py_lower (get_default parsed "cabin" (VStr "economy"))) as [cab|];
    [|discriminate].
  cbn [pyres_bind].
  destruct (check_missing _ _ _ depdate) as [mf fu].
  destruct mf as [|f mf]; cbn [negb]; [discriminate|].
  intros [= <- <- <- <- <- <-]. repeat split. now exists ad, ch, inf, cab.
Qed.

(** X8: what an Incomplete answer holds, for every record: the message is
    the fixed words followed by the missing names joined with a comma and a
    space; origin and destination are echoed as the record has them; the
    departure is echoed as the record has it, or [None] when it is false,
    and not as the date it resolved to; [from] and [to] are listed exactly
    when [is_missing] holds of them, [depdate] exactly when the resolver
    returned [None]; and the counts and the cabin, which the answer does not
    show, were converted without an exception. *)
Theorem incomplete_answer_content now parsed msg missing prompts a b c :
  query now parsed = Incomplete msg missing prompts a b c ->
  msg = "Missing fields: " +:+ join ", " missing
  /\ a = get parsed "from" /\ b = get parsed "to"
  /\ c = (if truthy (get parsed "depdate") then get parsed "depdate" else VNone)
  /\ (In "from" missing <-> is_missing (get parsed "from") = true)
  /\ (In "to" missing <-> is_missing (get parsed "to") = true)
  /\ (In "depdate" missing <-> dep_of now (get parsed "depdate") = Ok None)
  /\ exists ad ch inf cab,
      py_int (get_default parsed "adults" (VInt 1)) = Ok ad
      /\ py_int (get_default parsed "children" (VInt 0)) = Ok ch
      /\ py_int (get_default parsed "infants" (VInt 0)) = Ok inf
      /\ py_lower (get_default parsed "cabin" (VStr "economy")) = Ok cab.
Proof.
  intros Hq.
  destruct (query_steps now parsed _ Hq ltac:(discriminate))
    as (depdate & retdate & Hdep & Hr & Htail).
  apply query_tail_incomplete_content in Htail.
  destruct Htail as (Hm & Ha & Hb & Hc & Hmiss & Hconv).
  pose proof (check_missing_members (get parsed "from") (get parsed "to")
                (get parsed "depdate") depdate) as (K1 & K2 & K3).
  cbv zeta in K1, K2, K3. rewrite <- Hmiss in K1, K2, K3.
  repeat split; try assumption; try (apply K1 || apply K2); try assumption.
  - intros Hin. apply K3 in Hin. rewrite Hdep. f_equal.
    destruct depdate as [d|]; [|reflexivity].
    destruct (dep_of_output _ _ _ Hdep) as (Hraw & D & _ & ->).
    rewrite Hraw in Hin. cbn [truthy_str negb orb] in Hin.
    rewrite strftime_not_empty in Hin. discriminate Hin.
  - intros E. apply K3. rewrite Hdep in E. injection E as ->.
    cbn [truthy_str negb]. apply orb_true_r.
Qed.

(** X9: a departure value that is true and is no text (a number other than
    zero, the constant true) ends in the error answer with AttributeError,
    whatever else the record holds. *)
Theorem non_text_departure_is_an_error now parsed :
  truthy (get parsed "depdate") = true ->
  (forall s, get parsed "depdate" <> VStr s) ->
  query now parsed = Error500 AttributeError.
Proof.
  intros Ht Hn. rewrite parse_query_eq. unfold resolve_depdate. rewrite Ht.
  unfold parse_date_string. rewrite Ht. cbn [negb].
  destruct (get parsed "depdate") as [| | |s]; try reflexivity.
  now destruct (Hn s).
Qed.

End QueryProperties.

(** ** Values of the record: is_missing and int *)

Section Values.

Lemma lstrip_all_space a : all_space a = true -> lstrip a = "".
Proof.
  induction a as [|c a IH]; cbn; [reflexivity|].
  intros H. apply andb_true_iff in H. destruct H as [-> H]. auto.
Qed.

Lemma lstrip_pad a s : all_space a = true -> lstrip (a +:+ s) = lstrip s.
Proof.
  induction a as [|c a IH]; cbn; [reflexivity|].
  intros H. apply andb_true_iff in H. destruct H as [-> H]. auto.
Qed.

Lemma rstrip_all_space b : all_space b = true -> rstrip b = "".
Proof.
  induction b as [|c b IH]; cbn; [reflexivity|].
  intros H. apply andb_true_iff in H. destruct H as [-> H]. now rewrite IH.
Qed.

Lemma rstrip_pad s b : all_space b = true -> rstrip (s +:+ b) = rstrip s.
Proof.
  intros H. induction s as [|c s IH]; cbn.
  - now apply rstrip_all_space.
  - now rewrite IH.
Qed.

Lemma strip_pad a s b :
  all_space a = true -> all_space b = true -> strip (a +:+ s +:+ b) = strip s.
Proof.
  intros Ha Hb. unfold strip. rewrite (lstrip_pad a _ Ha).
  induction s as [|c s IH]; cbn.
  - now rewrite (lstrip_all_space b Hb).
  - destruct (is_space c); [exact IH|].
    change (String c (s +:+ b)) with (String c s +:+ b).
    now apply rstrip_pad.
Qed.

(** X10: [is_missing] does not see white space around a text, nor the case
    of its letters: two texts with the same lower-case form, one of them
    padded with white space, are missing together or not at all. *)
Theorem is_missing_ignores_padding_and_case a b s t :
  all_space a = true -> all_space b = true -> lower s = lower t ->
  is_missing (VStr (a +:+ s +:+ b)) = is_missing (VStr t).
Proof.
  intros Ha Hb Hl. unfold is_missing. cbn [py_str].
  rewrite (strip_pad a s b Ha Hb), <- !strip_lower, Hl. reflexivity.
Qed.





(** The text of an integer: digits, after a minus sign when it is
    negative. *)
Lemma py_str_int z :
  exists ds,
    all_digits ds = true /\ ds <> ""
    /\ int_of_digits ds = Z.abs z
    /\ ds = py_str (VInt (Z.abs z))
    /\ py_str (VInt z) = (if z <? 0 then String "-" ds else ds).
Proof.
  exists (py_str (VInt (Z.abs z))).
  destruct (decimal_text (Z.abs z) (Z.abs_nonneg z)) as (H1 & H2 & H3).
  repeat split; try assumption.
  destruct z as [|p|p]; reflexivity.
Qed.



Lemma int_literal_digits ds :
  all_digits ds = true ->
  forall after_digit count acc,
    int_literal after_digit count acc ds
    = if is_empty ds
      then (if after_digit then Some (acc, count) else None)
      else Some (int_of_digits_from acc ds, (count + String.length ds)%nat).
Proof.
  induction ds as [|c ds IH]; intros H after_digit count acc; [reflexivity|].
  cbn in H. apply andb_true_iff in H. destruct H as [Hc H].
  cbn [int_literal is_empty]. rewrite Hc, (IH H).
  destruct ds as [|c' ds]; cbn [is_empty String.length int_of_digits_from].
  - f_equal. f_equal. lia.
  - f_equal. f_equal. lia.
Qed.

Lemma int_of_str_digits sign ds :
  all_digits ds = true -> ds <> "" ->
  (String.length ds <= MAX_STR_DIGITS)%nat ->
  match int_literal false 0 0 ds with
  | Some (n, count) =>
      if (MAX_STR_DIGITS <? count)%nat then Raise ValueError
      else Ok (sign * n)
  | None => Raise ValueError
  end = Ok (sign * int_of_digits ds).
Proof.
  intros Hd Hne Hlen. rewrite (int_literal_digits ds Hd).
  destruct ds as [|c ds]; [congruence|]. cbn [is_empty].
  destruct (Nat.ltb_spec MAX_STR_DIGITS (0 + String.length (String c ds))); [lia|].
  reflexivity.
Qed.

Lemma int_of_str_unsigned s c ds :
  is_digit c = true -> int_rstrip (int_lstrip s) = String c ds ->
  int_of_str s
  = match int_literal false 0 0 (String c ds) with
    | Some (n, count) =>
        if (MAX_STR_DIGITS <? count)%nat then Raise ValueError
        else Ok (1 * n)
    | None => Raise ValueError
    end.
Proof.
  intros Hc E. unfold int_of_str. rewrite E.
  each_ascii c; try discriminate Hc; reflexivity.
Qed.

Lemma int_of_str_minus s ds :
  int_rstrip (int_lstrip s) = String "-" ds ->
  int_of_str s
  = match int_literal false 0 0 ds with
    | Some (n, count) =>
        if (MAX_STR_DIGITS <? count)%nat then Raise ValueError
        else Ok (-1 * n)
    | None => Raise ValueError
    end.
Proof. intros E. unfold int_of_str. now rewrite E. Qed.

Lemma int_lstrip_pad a s :
  all_int_space a = true -> int_lstrip (a +:+ s) = int_lstrip s.
Proof.
  induction a as [|c a IH]; cbn; [reflexivity|].
  intros H. apply andb_true_iff in H. destruct H as [-> H]. auto.
Qed.

Lemma int_rstrip_all_space b : all_int_space b = true -> int_rstrip b = "".
Proof.
  induction b as [|c b IH]; cbn; [reflexivity|].
  intros H. apply andb_true_iff in H. destruct H as [-> H]. now rewrite IH.
Qed.

Lemma int_rstrip_pad s b :
  all_int_space b = true -> int_rstrip (s +:+ b) = int_rstrip s.
Proof.
  intros H. induction s as [|c s IH]; cbn.
  - now apply int_rstrip_all_space.
  - now rewrite IH.
Qed.

Lemma is_digit_not_int_space c : is_digit c = true -> is_int_space c = false.
Proof. each_ascii c; vm_compute; congruence. Qed.

Lemma int_rstrip_digits ds : all_digits ds = true -> int_rstrip ds = ds.
Proof.
  induction ds as [|c ds IH]; cbn; [reflexivity|].
  intros H. apply andb_true_iff in H. destruct H as [Hc H].
  rewrite (IH H). destruct ds; [|reflexivity].
  now rewrite (is_digit_not_int_space c Hc).
Qed.

(** The text of an integer between white space that [int] skips, once
    [int] has skipped it. *)
Lemma int_strip_number a b z :
  all_int_space a = true -> all_int_space b = true ->
  int_rstrip (int_lstrip (a +:+ py_str (VInt z) +:+ b)) = py_str (VInt z).
Proof.
  intros Ha Hb. rewrite (int_lstrip_pad a _ Ha).
  destruct (py_str_int z) as (ds & Hd & Hne & _ & _ & ->).
  destruct ds as [|c ds]; [congruence|].
  assert (Hc : is_digit c = true).
  { cbn in Hd. now apply andb_true_iff in Hd. }
  destruct (z <? 0).
  - change (int_lstrip (String "-" (String c ds) +:+ b))
      with (String "-" (String c ds) +:+ b).
    rewrite (int_rstrip_pad _ b Hb).
    pose proof (int_rstrip_digits _ Hd) as K.
    cbn [int_rstrip] in K |- *. now rewrite K.
  - cbn [String.append int_lstrip].
    rewrite (is_digit_not_int_space c Hc).
    change (String c (ds +:+ b)) with (String c ds +:+ b).
    rewrite (int_rstrip_pad _ b Hb). now apply int_rstrip_digits.
Qed.

(** [int] reads back the text of an integer, with white space that it skips
    around it, as long as the digits are not more than the limit. *)
Lemma py_int_py_str a b z :
  all_int_space a = true -> all_int_space b = true ->
  (String.length (py_str (VInt (Z.abs z))) <= MAX_STR_DIGITS)%nat ->
  py_int (VStr (a +:+ py_str (VInt z) +:+ b)) = Ok z.
Proof.
  intros Ha Hb Hlen. cbn [py_int].
  pose proof (int_strip_number a b z Ha Hb) as Es.
  destruct (py_str_int z) as (ds & Hd & Hne & Hv & Hds & E).
  rewrite <- Hds in Hlen.
  destruct (Z.ltb_spec z 0) as [Hz|Hz].
  - rewrite E in *. rewrite (int_of_str_minus _ ds Es).
    rewrite (int_of_str_digits (-1) ds Hd Hne Hlen), Hv. f_equal. lia.
  - destruct ds as [|c ds]; [congruence|].
    assert (Hc : is_digit c = true).
    { cbn in Hd. now apply andb_true_iff in Hd. }
    rewrite E in *. rewrite (int_of_str_unsigned _ c ds Hc Es).
    rewrite (int_of_str_digits 1 _ Hd Hne Hlen), Hv. f_equal. lia.
Qed.

(** The separators 28-31 are white space for [strip] and not for [int]. *)
Lemma int_refuses_separator :
  strip (String "2" (String "031" "")) = "2"
  /\ py_int (VStr (String "2" (String "031" ""))) = Raise ValueError.
Proof. split; reflexivity. Qed.

End Values.

Section Counts.

Variable cal_parse : string -> struct_time -> pyres (struct_time * Z).
Variable dateutil_parse : string -> datetime -> pyres struct_time.

Abbreviation query := (parse_query cal_parse dateutil_parse).

Lemma get_default_insert_eq parsed k v dflt :
  get_default (<[k := v]> parsed) k dflt = v.
Proof. unfold get_default. now rewrite lookup_insert_eq. Qed.

Lemma query_adults now parsed v w :
  py_int v = py_int w ->
  query now (<["adults" := v]> parsed) = query now (<["adults" := w]> parsed).
Proof.
  intros E. rewrite !parse_query_eq. unfold query_tail.
  rewrite !get_insert_ne by discriminate.
  rewrite !get_default_insert_eq, E.
  rewrite !get_default_insert_ne by discriminate. reflexivity.
Qed.

Lemma query_children now parsed v w :
  py_int v = py_int w ->
  query now (<["children" := v]> parsed) = query now (<["children" := w]> parsed).
Proof.
  intros E. rewrite !parse_query_eq. unfold query_tail.
  rewrite !get_insert_ne by discriminate.
  rewrite !get_default_insert_eq, E.
  rewrite !get_default_insert_ne by discriminate. reflexivity.
Qed.

Lemma query_infants now parsed v w :
  py_int v = py_int w ->
  query now (<["infants" := v]> parsed) = query now (<["infants" := w]> parsed).
Proof.
  intros E. rewrite !parse_query_eq. unfold query_tail.
  rewrite !get_insert_ne by discriminate.
  rewrite !get_default_insert_eq, E.
  rewrite !get_default_insert_ne by discriminate. reflexivity.
Qed.

(** X12: a count that the record holds as text (the decimal digits of the
    number, with or without white space that [int] skips around them: tab,
    line feed, vertical tab, form feed, carriage return, space, next line,
    no-break space) gives the same answer as the number itself, for the
    three counts, as long as the digits are not more than [int] takes. *)
Theorem count_as_text_or_number now parsed a b z :
  all_int_space a = true -> all_int_space b = true ->
  (String.length (py_str (VInt (Z.abs z))) <= MAX_STR_DIGITS)%nat ->
  let text := VStr (a +:+ py_str (VInt z) +:+ b) in
  query now (<["adults" := text]> parsed)
  = query now (<["adults" := VInt z]> parsed)
  /\ query now (<["children" := text]> parsed)
     = query now (<["children" := VInt z]> parsed)
  /\ query now (<["infants" := text]> parsed)
     = query now (<["infants" := VInt z]> parsed).
Proof.
  intros Ha Hb Hlen. cbv zeta.
  pose proof (py_int_py_str a b z Ha Hb Hlen) as E.
  repeat split;
    [apply query_adults | apply query_children | apply query_infants];
    exact E.
Qed.

End Counts.

(** ** The endpoint *)

Section ObjectSearch.

Lemma has_char_app x a b : has_char x (a +:+ b) = has_char x a || has_char x b.
Proof.
  induction a as [|c a IH]; cbn; [reflexivity|]. now rewrite IH, orb_assoc.
Qed.

Lemma upto_last_close_none s :
  upto_last_close s = None <-> has_char "}" s = false.
Proof.
  induction s as [|c s IH]; cbn; [tauto|].
  destruct (upto_last_close s) as [r|].
  - split; [discriminate|]. intros H. apply orb_false_iff in H.
    destruct H as [_ H]. apply IH in H. discriminate H.
  - rewrite (proj1 IH eq_refl), orb_false_r.
    destruct (Ascii.eqb c "}"); split; congruence.
Qed.

Lemma upto_last_close_spec s r :
  upto_last_close s = Some r <->
  exists mid post,
    s = mid +:+ "}" +:+ post /\ has_char "}" post = false /\ r = mid +:+ "}".
Proof.
  split.
  - revert r. induction s as [|c s IH]; intros r; cbn; [discriminate|].
    destruct (upto_last_close s) as [r'|] eqn:E.
    + intros [= <-]. destruct (IH r' eq_refl) as (mid & post & -> & Hp & ->).
      now exists (String c mid), post.
    + destruct (Ascii.eqb_spec c "}") as [->|]; [|discriminate].
      intros [= <-]. exists "", s. repeat split.
      now apply upto_last_close_none.
  - intros (mid & post & -> & Hp & ->).
    induction mid as [|c mid IH]; cbn.
    + now rewrite (proj2 (upto_last_close_none post) Hp).
    + cbn in IH. now rewrite IH.
Qed.

Lemma search_object_spec content j :
  search_object content = Some j <->
  exists pre mid post,
    content = pre +:+ "{" +:+ mid +:+ "}" +:+ post
    /\ has_char "{" pre = false /\ has_char "}" post = false
    /\ j = "{" +:+ mid +:+ "}".
Proof.
  split.
  - induction content as [|c s IH]; cbn; [discriminate|].
    destruct (Ascii.eqb_spec c "{") as [->|Hc].
    + destruct (upto_last_close s) as [r|] eqn:E.
      * intros [= <-]. apply upto_last_close_spec in E.
        destruct E as (mid & post & -> & Hp & ->).
        now exists "", mid, post.
      * intros H. destruct (IH H) as (pre & mid & post & -> & _).
        apply upto_last_close_none in E.
        rewrite !has_char_app in E. cbn in E.
        rewrite !orb_true_r in E. discriminate E.
    + intros H. destruct (IH H) as (pre & mid & post & -> & Hpre & Hpost & ->).
      exists (String c pre), mid, post. repeat split; try assumption.
      cbn. rewrite Hpre, orb_false_r. now apply Ascii.eqb_neq.
  - intros (pre & mid & post & -> & Hpre & Hpost & ->).
    induction pre as [|c pre IH].
    + cbn.
      assert (E : upto_last_close (mid +:+ "}" +:+ post) = Some (mid +:+ "}")).
      { apply upto_last_close_spec. now exists mid, post. }
      cbn in E. now rewrite E.
    + cbn in Hpre. apply orb_false_iff in Hpre. destruct Hpre as [Hc Hpre].
      cbn. rewrite Hc. now apply IH.
Qed.

Lemma search_object_of_pair a b c :
  exists j, search_object (a +:+ "{" +:+ b +:+ "}" +:+ c) = Some j.
Proof.
  assert (K : forall s, has_char "}" s = true ->
                        exists r, upto_last_close s = Some r).
  { intros s H. destruct (upto_last_close s) as [r|] eqn:E; [eauto|].
    apply upto_last_close_none in E. congruence. }
  induction a as [|x a IH]; cbn.
  - destruct (K (b +:+ "}" +:+ c)) as [r E].
    { rewrite has_char_app. cbn. apply orb_true_r. }
    cbn in E. rewrite E. eauto.
  - destruct (Ascii.eqb x "{"); [|exact IH].
    destruct (K (a +:+ "{" +:+ b +:+ "}" +:+ c)) as [r E].
    { rewrite !has_char_app. cbn. rewrite !orb_true_r. reflexivity. }
    cbn in E. rewrite E. eauto.
Qed.

Lemma search_object_none content :
  search_object content = None <->
  ~ exists a b c, content = a +:+ "{" +:+ b +:+ "}" +:+ c.
Proof.
  split.
  - intros H (a & b & c & ->).
    destruct (search_object_of_pair a b c) as [j E]. congruence.
  - intros H. destruct (search_object content) as [j|] eqn:E; [|reflexivity].
    exfalso. apply H. apply search_object_spec in E.
    destruct E as (pre & mid & post & -> & _). now exists pre, mid, post.
Qed.

(** X13: what line 143 finds in the content of the model.  The match runs
    from the first opening brace to the last closing brace; there is none
    exactly when no opening brace has a closing brace after it; and the
    match is its own match, so that the text given to [json.loads] begins and
    ends with a brace. *)
Theorem search_object_finds_the_outer_braces content :
  (forall j,
      search_object content = Some j <->
      exists pre mid post,
        content = pre +:+ "{" +:+ mid +:+ "}" +:+ post
        /\ has_char "{" pre = false /\ has_char "}" post = false
        /\ j = "{" +:+ mid +:+ "}")
  /\ (search_object content = None <->
      ~ exists a b c, content = a +:+ "{" +:+ b +:+ "}" +:+ c)
  /\ (forall j, search_object content = Some j -> search_object j = Some j).
Proof.
  split; [intros j; apply search_object_spec|].
  split; [apply search_object_none|].
  intros j H. apply search_object_spec in H.
  destruct H as (pre & mid & post & _ & _ & _ & ->).
  apply search_object_spec. exists "", mid, "". repeat split.
Qed.

Lemma space_is_no_brace c :
  is_space c = true -> Ascii.eqb c "{" = false /\ Ascii.eqb c "}" = false.
Proof. each_ascii c; vm_compute; intros H; try discriminate H; now split. Qed.

Lemma search_object_lstrip s : search_object (lstrip s) = search_object s.
Proof.
  induction s as [|c s IH]; [reflexivity|]. cbn [lstrip].
  destruct (is_space c) eqn:E; [|reflexivity].
  rewrite IH. cbn. now rewrite (proj1 (space_is_no_brace c E)).
Qed.

Lemma upto_last_close_rstrip s : upto_last_close (rstrip s) = upto_last_close s.
Proof.
  induction s as [|c s IH]; [reflexivity|]. cbn [rstrip upto_last_close].
  rewrite <- IH. destruct (rstrip s) as [|c' r]; [|reflexivity].
  cbn [upto_last_close]. destruct (is_space c) eqn:E.
  - now rewrite (proj2 (space_is_no_brace c E)).
  - reflexivity.
Qed.

Lemma search_object_rstrip s : search_object (rstrip s) = search_object s.
Proof.
  induction s as [|c s IH]; [reflexivity|]. cbn [rstrip search_object].
  rewrite <- IH, <- (upto_last_close_rstrip s).
  destruct (rstrip s) as [|c' r]; [|reflexivity].
  cbn [upto_last_close search_object].
  destruct (is_space c) eqn:E.
  - now rewrite (proj1 (space_is_no_brace c E)).
  - cbn. now destruct (Ascii.eqb c "{").
Qed.

Lemma search_object_strip s : search_object (strip s) = search_object s.
Proof. unfold strip. now rewrite search_object_rstrip, search_object_lstrip. Qed.

End ObjectSearch.

Section EndpointProperties.

Variable cal_parse : string -> struct_time -> pyres (struct_time * Z).
Variable dateutil_parse : string -> datetime -> pyres struct_time.
Variables PROMPT_HEAD PROMPT_MIDDLE PROMPT_TAIL : string.
Variable chat_completion : string -> pyres (option string).
Variable json_loads : string -> pyres (gmap string pyval).

Abbreviation query := (parse_query cal_parse dateutil_parse).
Abbreviation prompt := (build_prompt PROMPT_HEAD PROMPT_MIDDLE PROMPT_TAIL).
Abbreviation endpoint :=
  (search cal_parse dateutil_parse PROMPT_HEAD PROMPT_MIDDLE PROMPT_TAIL
     chat_completion json_loads).

Lemma endpoint_on_content now d text :
  truthy (get d "query") = true ->
  chat_completion (prompt now (get d "query")) = Ok (Some text) ->
  endpoint now (Ok (JObject d))
  = match search_object text with
    | None => InvalidModelOutput
    | Some j =>
        match json_loads j with
        | Ok parsed => Answer (query now parsed)
        | Raise e => Answer (Error500 e)
        end
    end.
Proof.
  intros Hq Hc. unfold search. cbn [pyres_bind]. rewrite Hq. cbn [negb].
  rewrite Hc. cbn [pyres_bind]. rewrite search_object_strip.
  destruct (search_object text) as [j|]; [|reflexivity].
  now destruct (json_loads j).
Qed.

(** X14: the answer reads the content of the model through the span of its
    outer braces only: what comes before the first opening brace and after
    the last closing brace (white space, an explanation, a code fence) has
    no effect on the answer, and a content with no such span gives the
    error body of line 145.  The [strip] of line 142 changes nothing. *)
Theorem answer_reads_the_outer_braces now d text :
  truthy (get d "query") = true ->
  chat_completion (prompt now (get d "query")) = Ok (Some text) ->
  (forall pre mid post,
      text = pre +:+ "{" +:+ mid +:+ "}" +:+ post ->
      has_char "{" pre = false -> has_char "}" post = false ->
      endpoint now (Ok (JObject d))
      = match json_loads ("{" +:+ mid +:+ "}") with
        | Ok parsed => Answer (query now parsed)
        | Raise e => Answer (Error500 e)
        end)
  /\ ((~ exists a b c, text = a +:+ "{" +:+ b +:+ "}" +:+ c) ->
      endpoint now (Ok (JObject d)) = InvalidModelOutput)
  /\ search_object (strip text) = search_object text.
Proof.
  intros Hq Hc. rewrite (endpoint_on_content now d text Hq Hc).
  split; [|split; [|apply search_object_strip]].
  - intros pre mid post E Hpre Hpost.
    assert (K : search_object text = Some ("{" +:+ mid +:+ "}")).
    { apply search_object_spec. now exists pre, mid, post. }
    now rewrite K.
  - intros H. apply search_object_none in H. now rewrite H.
Qed.

(** X15: the endpoint answers with the body of line 128 and status 400
    exactly when the body of the request is an object whose [query] is
    absent or false; the model is not asked then.  A body that is not an
    object gives the error answer, with status 500. *)
Theorem missing_query_exactly_when now body :
  (endpoint now body = MissingQuery <->
   exists d, body = Ok (JObject d) /\ truthy (get d "query") = false)
  /\ (status_code (endpoint now body) = 400 <->
      endpoint now body = MissingQuery)
  /\ (body = Ok JOther -> endpoint now body = Answer (Error500 AttributeError)).
Proof.
  split; [|split].
  - split.
    + unfold search. destruct body as [[d|]|e]; cbn [pyres_bind];
        [|discriminate|discriminate].
      destruct (truthy (get d "query")) eqn:Hq; cbn [negb]; [|eauto].
      destruct (chat_completion _) as [[text|]|e]; cbn [pyres_bind];
        [|discriminate|discriminate].
      destruct (search_object _) as [j|]; [|discriminate].
      destruct (json_loads j); discriminate.
    + intros (d & -> & Hq). unfold search. cbn [pyres_bind].
      now rewrite Hq.
  - destruct (endpoint now body) as [| |[]]; cbn; split; intros H;
      try discriminate H; reflexivity.
  - intros ->. reflexivity.
Qed.

Lemma app_inv_tail a b t : a +:+ t = b +:+ t -> a = b.
Proof.
  revert b. induction a as [|x a IH]; intros [|y b] H.
  - reflexivity.
  - exfalso. apply (f_equal String.length) in H.
    cbn in H. rewrite length_app in H. lia.
  - exfalso. apply (f_equal String.length) in H.
    cbn in H. rewrite length_app in H. lia.
  - cbn in H. injection H as -> H. f_equal. now apply IH.
Qed.

(** X16: the prompt carries the date of the day and the text of the query as
    they are, with no escaping: both occur in it, the length of the date
    (ten characters from the year 1000 on) and of the query add to the
    length of the prompt, and two queries with different texts never give
    the same prompt. *)
Theorem prompt_carries_date_and_query now q :
  contains (strftime now) (prompt now q) = true
  /\ contains (py_str q) (prompt now q) = true
  /\ String.length (prompt now q)
     = (String.length PROMPT_HEAD + String.length (strftime now)
        + String.length PROMPT_MIDDLE
        + String.length (py_str q) + String.length PROMPT_TAIL)%nat
  /\ (1000 <= year now <= 9999 ->
      String.length (prompt now q)
      = (String.length PROMPT_HEAD + 10 + String.length PROMPT_MIDDLE
         + String.length (py_str q) + String.length PROMPT_TAIL)%nat)
  /\ (forall q', prompt now q = prompt now q' -> py_str q = py_str q').
Proof.
  unfold build_prompt. split; [|split; [|split; [|split]]].
  - apply contains_spec. now exists PROMPT_HEAD, (PROMPT_MIDDLE +:+ py_str q +:+ PROMPT_TAIL).
  - apply contains_spec.
    exists (PROMPT_HEAD +:+ strftime now +:+ PROMPT_MIDDLE), PROMPT_TAIL.
    now rewrite !app_assoc.
  - rewrite !length_app. lia.
  - intros Hy. rewrite !length_app. rewrite (strftime_length now Hy). lia.
  - intros q' H. do 3 apply app_inv_head in H. now apply app_inv_tail in H.
Qed.

End EndpointProperties.

Section ApiKey.

Lemma lstrip_first s : lstrip s = "" \/ first_char_ok (lstrip s) = true.
Proof.
  induction s as [|c s IH]; cbn; [now left|].
  destruct (is_space c) eqn:E; [exact IH|]. right. cbn. now rewrite E.
Qed.

Lemma rstrip_last s : rstrip s = "" \/ last_char_ok (rstrip s) = true.
Proof.
  induction s as [|c s IH]; cbn; [now left|].
  destruct (rstrip s) as [|c' r].
  - destruct (is_space c) eqn:E; [now left|]. right. cbn. now rewrite E.
  - right. destruct IH as [IH|IH]; [discriminate IH | exact IH].
Qed.

Lemma rstrip_first s : first_char_ok s = true -> first_char_ok (rstrip s) = true.
Proof.
  destruct s as [|c s]; cbn; [discriminate|]. intros H.
  destruct (rstrip s); [|exact H].
  apply negb_true_iff in H. rewrite H. cbn. now rewrite H.
Qed.

Lemma lstrip_empty s : lstrip s = "" <-> all_space s = true.
Proof.
  induction s as [|c s IH]; cbn; [tauto|].
  destruct (is_space c); cbn; [exact IH|]. split; discriminate.
Qed.

Lemma strip_empty s : strip s = "" <-> all_space s = true.
Proof.
  rewrite <- lstrip_empty. unfold strip. split.
  - intros H. destruct (lstrip_first s) as [E|E]; [exact E|].
    apply rstrip_first in E. rewrite H in E. discriminate E.
  - intros ->. reflexivity.
Qed.

(** X17: the key that the module keeps (lines 19-24) is the value of the
    variable without the white space around it, is not empty and has no
    white space at either end; a value of white space only stops the module
    with ValueError, and a variable that is not set stops it with
    AttributeError, before the test of line 23 is reached. *)
Theorem api_key_is_stripped_and_not_empty env :
  (forall key,
      load_api_key env = Ok key ->
      exists value,
        env = Some value /\ key = strip value /\ key <> ""
        /\ first_char_ok key = true /\ last_char_ok key = true
        /\ strip key = key)
  /\ (load_api_key env = Raise ValueError <->
      exists value, env = Some value /\ all_space value = true)
  /\ (load_api_key env = Raise AttributeError <-> env = None).
Proof.
  unfold load_api_key. destruct env as [value|].
  - split; [|split].
    + intros key H. destruct (strip value) as [|c k] eqn:E; [discriminate H|].
      injection H as <-. exists value.
      assert (Hf : first_char_ok (String c k) = true).
      { rewrite <- E. unfold strip in *. apply rstrip_first.
        destruct (lstrip_first value) as [K|K]; [|exact K].
        rewrite K in E. discriminate E. }
      assert (Hl : last_char_ok (String c k) = true).
      { rewrite <- E. unfold strip in *.
        destruct (rstrip_last (lstrip value)) as [K|K]; [|exact K].
        rewrite K in E. discriminate E. }
      repeat split; try assumption; try discriminate.
      * now symmetry.
      * now apply strip_tight.
    + split.
      * intros H. exists value. split; [reflexivity|]. apply strip_empty.
        destruct (strip value); [reflexivity | discriminate H].
      * intros (v & [= <-] & H). apply strip_empty in H. now rewrite H.
    + split; [|discriminate]. destruct (strip value); discriminate.
  - split; [|split].
    + discriminate.
    + split; [discriminate|]. intros (v & H & _). discriminate H.
    + tauto.
Qed.

End ApiKey.

(** ** What the answer does not read, and what the module prints *)

Section Reach.

Variable cal_parse : string -> struct_time -> pyres (struct_time * Z).
Variable dateutil_parse : string -> datetime -> pyres struct_time.

Abbreviation query := (parse_query cal_parse dateutil_parse).

(** X18: the answer of [parse_query] depends on nine keys of the decoded
    object only: a key of any other name, added, changed or removed, leaves
    the answer as it is. *)
Theorem other_keys_are_ignored now parsed k v :
  ~ In k READ_KEYS ->
  query now (<[k := v]> parsed) = query now parsed
  /\ query now (delete k parsed) = query now parsed.
Proof.
  intros H.
  assert (K : forall k', In k' READ_KEYS -> k <> k').
  { intros k' Hin ->. exact (H Hin). }
  split; rewrite !parse_query_eq; unfold query_tail.
  - rewrite !get_insert_ne, !get_default_insert_ne
      by (apply K; cbn; tauto). reflexivity.
  - rewrite !get_delete_ne, !get_default_delete_ne
      by (apply K; cbn; tauto). reflexivity.
Qed.

End Reach.

Section KeyReport.

Lemma first_chars_drop n s : s = first_chars n s +:+ drop n s.
Proof.
  revert s. induction n as [|n IH]; intros [|c s]; cbn; try reflexivity.
  now rewrite <- IH.
Qed.

Lemma drop_drop n m s : drop n (drop m s) = drop (m + n) s.
Proof.
  revert s. induction m as [|m IH]; intros s; [reflexivity|].
  destruct s as [|c s]; cbn; [now destruct n | apply IH].
Qed.

Lemma length_first_chars n s :
  (n <= String.length s)%nat -> String.length (first_chars n s) = n.
Proof.
  revert s. induction n as [|n IH]; intros [|c s]; cbn; intros H;
    try reflexivity; try lia.
  rewrite IH; [reflexivity | lia].
Qed.

Lemma first_chars_app a s : first_chars (String.length a) (a +:+ s) = a.
Proof. induction a as [|c a IH]; cbn; [now destruct s | now rewrite IH]. Qed.

Lemma drop_app a s n :
  (String.length a <= n)%nat -> drop n (a +:+ s) = drop (n - String.length a) s.
Proof.
  revert n. induction a as [|c a IH]; intros n H; cbn.
  - now rewrite Nat.sub_0_r.
  - destruct n as [|n]; cbn in H; [lia|]. cbn. apply IH. lia.
Qed.

Lemma length_drop n s : String.length (drop n s) = (String.length s - n)%nat.
Proof.
  revert s. induction n as [|n IH]; intros [|c s]; cbn; try reflexivity.
  apply IH.
Qed.

Lemma other_char_differs c : other_char c <> c.
Proof.
  unfold other_char. destruct (Ascii.eqb_spec c "x") as [->|H]; [discriminate|].
  congruence.
Qed.

(** X19: the three lines that the module prints when it is loaded (the
    length of the key, its first ten characters, its last ten) give the whole
    key when it has twenty characters or fewer, and only then: a longer key
    shares its three lines with another key. *)
Theorem key_report_gives_short_keys key :
  ((String.length key <= 20)%nat ->
   forall key', key_report key' = key_report key -> key' = key)
  /\ ((20 < String.length key)%nat ->
      exists key', key' <> key /\ key_report key' = key_report key).
Proof.
  split.
  - intros Hlen key' H.
    pose proof (f_equal (fun r => fst (fst r)) H) as Hl.
    pose proof (f_equal (fun r => snd (fst r)) H) as Hf.
    pose proof (f_equal snd H) as Hd.
    change (String.length key' = String.length key) in Hl.
    change (first_chars 10 key' = first_chars 10 key) in Hf.
    change (drop (String.length key' - 10) key'
            = drop (String.length key - 10) key) in Hd.
    rewrite Hl in Hd.
    rewrite (first_chars_drop 10 key'), (first_chars_drop 10 key), Hf.
    f_equal.
    assert (E : forall s, String.length s = String.length key ->
                drop 10 s
                = drop (10 - (String.length key - 10))
                    (drop (String.length key - 10) s)).
    { intros s Hs. rewrite drop_drop. f_equal. lia. }
    rewrite (E key' Hl), (E key eq_refl), Hd. reflexivity.
  - intros Hlen.
    pose proof (first_chars_drop 10 key) as E.
    pose proof (length_first_chars 10 key ltac:(lia)) as La.
    pose proof (length_drop 10 key) as Lr.
    set (a := first_chars 10 key) in *. clearbody a.
    destruct (drop 10 key) as [|c rest]; [cbn in Lr; lia|].
    subst key. rewrite length_app in Hlen, Lr. cbn [String.length] in Hlen, Lr.
    exists (a +:+ String (other_char c) rest). split.
    + intros H. apply app_inv_head in H. injection H as H.
      exact (other_char_differs c H).
    + unfold key_report, last_chars. rewrite !length_app. cbn [String.length].
      f_equal; [f_equal|].
      * rewrite <- La. now rewrite !first_chars_app.
      * rewrite !drop_app by lia.
        destruct (String.length a + S (String.length rest) - 10
                  - String.length a)%nat as [|n] eqn:En; [lia|].
        reflexivity.
Qed.

End KeyReport.

(** ** Instances of the further properties *)

Section FurtherInstances.

Lemma no_calendar_behaves : calendar_behaves no_calendar.
Proof.
  intros text source. exists source, 0. split; [reflexivity|].
  intros H. now destruct H.
Qed.

Lemma resolved_date_witness :
  exists D,
    valid_datetime D = true /\ strftime D = "2025-06-02"
    /\ (hour D, minute D, second D, microsecond D) = (0, 0, 0, 0)
    /\ (1000 <= year D ->
        String.length "2025-06-02" = 10%nat /\ strptime "2025-06-02" = Ok D)
    /\ (year D < 1000 ->
        (String.length "2025-06-02" < 10)%nat
        /\ strptime "2025-06-02" = Raise ValueError).
Proof.
  exact (resolved_date_is_readable no_calendar no_dateutil (VStr "tomorrow")
           None june_first "2025-06-02" eq_refl).
Defined.

Lemma resolver_raises_witness :
  parse_date_string no_calendar no_dateutil (VStr "After 9999999 Days") None
    june_first = Raise OverflowError
  <-> contains "tomorrow" (strip (lower "After 9999999 Days")) = false
      /\ strip (lower "After 9999999 Days") <> "next month"
      /\ exists g,
          search_after_days (strip (lower "After 9999999 Days")) = Some g
          /\ (((MAX_STR_DIGITS < String.length g)%nat
               /\ OverflowError = ValueError)
              \/ ((String.length g <= MAX_STR_DIGITS)%nat
                  /\ MAXORDINAL < toordinal june_first + int_of_digits g
                  /\ OverflowError = OverflowError)).
Proof.
  apply (resolver_raises_exactly no_calendar no_dateutil "After 9999999 Days"
           None june_first OverflowError no_calendar_behaves);
    [reflexivity | cbn; lia].
Defined.

Lemma unrecognised_text_witness :
  parse_date_string no_calendar no_dateutil (VStr "someday") None june_first
  = Ok None.
Proof.
  refine (proj1 (unrecognised_text_is_left_to_dateutil no_calendar no_dateutil
                   "someday" None june_first (timetuple june_first)
                   _ eq_refl _ eq_refl eq_refl) ValueError eq_refl);
    discriminate.
Defined.

Lemma time_of_day_witness :
  parse_date_string no_calendar no_dateutil (VStr "tomorrow")
    (Some (midnight 2025 6 1)) june_first
  = parse_date_string no_calendar no_dateutil (VStr "tomorrow")
      (Some (afternoon 2025 6 1)) (midnight 2030 1 1).
Proof.
  apply (strategies_ignore_time_of_day no_calendar no_dateutil "tomorrow"
           (midnight 2025 6 1) (afternoon 2025 6 1) june_first
           (midnight 2030 1 1));
    [reflexivity | reflexivity | reflexivity | left; reflexivity].
Defined.

Lemma return_leg_witness :
  0 <= 10
  /\ exists D R,
      valid_datetime D = true /\ valid_datetime R = true
      /\ toordinal R = toordinal D + 10
      /\ segments payload_round_trip
         = [mksegment (get rec_round_trip "from") (get rec_round_trip "to")
              (strftime D);
            mksegment (get rec_round_trip "to") (get rec_round_trip "from")
              (strftime R)].
Proof.
  exact (return_leg_counts_from_departure no_calendar no_dateutil june_first
           rec_round_trip payload_round_trip "after 10 days" 10
           eq_refl eq_refl eq_refl).
Defined.

Lemma complete_payload_witness :
  stops payload_round_trip = false /\ ages payload_round_trip = []
  /\ lower (cabin payload_round_trip) = cabin payload_round_trip
  /\ (1 <= length (segments payload_round_trip) <= 2)%nat
  /\ Forall (fun s =>
               is_missing (seg_depfrom s) = false
               /\ is_missing (seg_arrto s) = false
               /\ exists D, valid_datetime D = true
                            /\ strftime D = seg_depdate s)
       (segments payload_round_trip)
  /\ (forall s1 s2,
         segments payload_round_trip = [s1; s2] ->
         String.length (seg_depdate s1) = 10%nat
         /\ exists D, strptime (seg_depdate s1) = Ok D
                      /\ strftime D = seg_depdate s1).
Proof.
  exact (complete_payload_invariants no_calendar no_dateutil june_first
           rec_round_trip payload_round_trip eq_refl).
Defined.

Lemma incomplete_content_witness :
  "Missing fields: from, depdate"
  = "Missing fields: " +:+ join ", " ["from"; "depdate"]
  /\ VNone = get rec_only_destination "from"
  /\ VStr "DXB" = get rec_only_destination "to"
  /\ VNone = (if truthy (get rec_only_destination "depdate")
              then get rec_only_destination "depdate" else VNone)
  /\ (In "from" ["from"; "depdate"] <->
      is_missing (get rec_only_destination "from") = true)
  /\ (In "to" ["from"; "depdate"] <->
      is_missing (get rec_only_destination "to") = true)
  /\ (In "depdate" ["from"; "depdate"] <->
      resolve_depdate no_calendar no_dateutil june_first
        (get rec_only_destination "depdate") = Ok None)
  /\ exists ad ch inf cab,
      py_int (get_default rec_only_destination "adults" (VInt 1)) = Ok ad
      /\ py_int (get_default rec_only_destination "children" (VInt 0)) = Ok ch
      /\ py_int (get_default rec_only_destination "infants" (VInt 0)) = Ok inf
      /\ py_lower (get_default rec_only_destination "cabin" (VStr "economy"))
         = Ok cab.
Proof.
  exact (incomplete_answer_content no_calendar no_dateutil june_first
           rec_only_destination "Missing fields: from, depdate"
           ["from"; "depdate"] [ASK_FROM; ASK_DEPDATE] VNone (VStr "DXB") VNone
           eq_refl).
Defined.

Lemma non_text_departure_witness :
  parse_query no_calendar no_dateutil june_first
    (<["depdate" := VInt 20250610]> rec_one_way)
  = Error500 AttributeError.
Proof.
  apply (non_text_departure_is_an_error no_calendar no_dateutil june_first
           (<["depdate" := VInt 20250610]> rec_one_way)).
  - reflexivity.
  - intros s H. vm_compute in H. discriminate H.
Defined.

Lemma is_missing_padding_witness :
  is_missing (VStr ("  " +:+ "Not Provided" +:+ " "))
  = is_missing (VStr "not provided").
Proof.
  exact (is_missing_ignores_padding_and_case "  " " " "Not Provided"
           "not provided" eq_refl eq_refl eq_refl).
Defined.

Lemma count_as_text_witness :
  parse_query no_calendar no_dateutil june_first
    (<["adults" := VStr (" " +:+ py_str (VInt 2) +:+ "")]> rec_one_way)
  = parse_query no_calendar no_dateutil june_first
      (<["adults" := VInt 2]> rec_one_way)
  /\ parse_query no_calendar no_dateutil june_first
       (<["children" := VStr (" " +:+ py_str (VInt 2) +:+ "")]> rec_one_way)
     = parse_query no_calendar no_dateutil june_first
         (<["children" := VInt 2]> rec_one_way)
  /\ parse_query no_calendar no_dateutil june_first
       (<["infants" := VStr (" " +:+ py_str (VInt 2) +:+ "")]> rec_one_way)
     = parse_query no_calendar no_dateutil june_first
         (<["infants" := VInt 2]> rec_one_way).
Proof.
  apply (count_as_text_or_number no_calendar no_dateutil june_first rec_one_way
           " " "" 2); [reflexivity | reflexivity |].
  apply Nat.leb_le. reflexivity.
Defined.

Lemma answer_reads_witness :
  search no_calendar no_dateutil "Today is " ". Query: " "." 
    (constant_model (Some "Here it is: {x} and that is all"))
    (decode_only "{x}" rec_one_way) june_first
    (body_with_query (VStr "Delhi to Dubai tomorrow"))
  = Answer (parse_query no_calendar no_dateutil june_first rec_one_way).
Proof.
  exact (proj1 (answer_reads_the_outer_braces no_calendar no_dateutil
                  "Today is " ". Query: " "."
                  (constant_model (Some "Here it is: {x} and that is all"))
                  (decode_only "{x}" rec_one_way) june_first
                  (<["query" := VStr "Delhi to Dubai tomorrow"]> ∅)
                  "Here it is: {x} and that is all" eq_refl eq_refl)
           "Here it is: " "x" " and that is all" eq_refl eq_refl eq_refl).
Defined.

Lemma other_keys_witness :
  parse_query no_calendar no_dateutil june_first
    (<["note" := VStr "window seat"]> rec_one_way)
  = parse_query no_calendar no_dateutil june_first rec_one_way
  /\ parse_query no_calendar no_dateutil june_first (delete "note" rec_one_way)
     = parse_query no_calendar no_dateutil june_first rec_one_way.
Proof.
  apply (other_keys_are_ignored no_calendar no_dateutil june_first rec_one_way
           "note" (VStr "window seat")).
  intros H. cbn in H.
  repeat (destruct H as [H|H]; [discriminate H|]). exact H.
Defined.

End FurtherInstances.
